(** * Real-time face recognition: matcher, normalizer and persistence loop

    A shallow embedding of
      - [FaceDetection/04_recognition_realtime.py]
        ([FaceRecognitionSystem]: the two distances, [recognize_face],
        the reliability shown by [draw_face_box], and the frame loop [run]);
      - [FaceDetection/02_detect_and_align_faces.py] ([align_face]);
      - [FaceDetection/config.py] (the numeric constants).

    Numbers.  Python floats are modelled by the real numbers [R]: sums,
    products and square roots are the exact ones, there is no rounding, no
    NaN and no infinity.  Statements that only compare and select numbers
    do not depend on this; statements about exact values (a distance equal
    to 0, a norm equal to 1, an algebraic identity) hold in exact
    arithmetic only.  To measure the difference, module [F64] gives the
    distances and the matcher a second time on IEEE 754 binary64 numbers,
    the numbers numpy computes with.  Pixel coordinates and counters are
    Python ints, modelled by [Z] (or [nat] where the value is a length or
    an index).

    Exceptions.  A Python call that may raise returns a [result]; the
    [except Exception] handler of the loop is a match on it. *)

From Stdlib Require Import Floats.
From Stdlib Require Import Reals Lra Lia ZArith String Bool Psatz List.
Import ListNotations.

(** ** Exceptions *)

Module Py.

Inductive exn : Type :=
| ValueError      (* numpy: operands of different shape, argmin of nothing *)
| IndexError      (* subscript out of range *)
| ExternalError.  (* raised by cv2, by the detector or by the embedder *)

Inductive result (A : Type) : Type :=
| Ok (a : A)
| Raise (e : exn).

Arguments Ok {A} a.
Arguments Raise {A} e.

Definition bind {A B : Type} (m : result A) (k : A -> result B) : result B :=
  match m with
  | Ok a => k a
  | Raise e => Raise e
  end.

(** [l[i]] for a non-negative index. *)
Definition getitem {A : Type} (l : list A) (i : nat) : result A :=
  match nth_error l i with
  | Some a => Ok a
  | None => Raise IndexError
  end.

(** [max(a, b)] of Python on two floats: the first argument wins unless
    the second is strictly greater. *)
Definition max (a b : R) : R := if Rlt_dec a b then b else a.

End Py.

Import Py.

Notation "x <- m ;; k" := (bind m (fun x => k))
  (at level 61, m at next level, right associativity).

(** ** The numpy operations the matcher uses, on one-dimensional arrays *)

Module Np.

Open Scope R_scope.

Definition ndarray := list R.

(** Sum of products of two arrays of the same length. *)
Fixpoint inner (a b : ndarray) : R :=
  match a, b with
  | x :: a', y :: b' => x * y + inner a' b'
  | _, _ => 0
  end.

(** [np.dot(a, b)]: the shapes must agree. *)
Definition dot (a b : ndarray) : result R :=
  if Nat.eqb (length a) (length b) then Ok (inner a b) else Raise ValueError.

Fixpoint zip_minus (a b : ndarray) : ndarray :=
  match a, b with
  | x :: a', y :: b' => (x - y) :: zip_minus a' b'
  | _, _ => []
  end.

(** [a - b]: elementwise on equal shapes; an array of one element is
    broadcast against the other; anything else is a shape error. *)
Definition subtract (a b : ndarray) : result ndarray :=
  if Nat.eqb (length a) (length b) then Ok (zip_minus a b)
  else if Nat.eqb (length b) 1 then Ok (map (fun x => x - hd 0 b) a)
  else if Nat.eqb (length a) 1 then Ok (map (fun y => hd 0 a - y) b)
  else Raise ValueError.

(** [np.linalg.norm(x)] with the default order: [sqrt(x.dot(x))]. *)
Definition linalg_norm (x : ndarray) : R := sqrt (inner x x).

(** [np.argmin]: one pass that keeps the smallest value seen so far and
    its index, and moves only on a strictly smaller value. *)
Fixpoint argmin_scan (mp : R) (min_ind i : nat) (ip : list R) : nat :=
  match ip with
  | [] => min_ind
  | x :: rest =>
      if Rlt_dec x mp then argmin_scan x i (S i) rest
      else argmin_scan mp min_ind (S i) rest
  end.

Definition argmin (a : list R) : result nat :=
  match a with
  | [] => Raise ValueError
  | x :: rest => Ok (argmin_scan x 0 1 rest)
  end.

End Np.

(** ** config.py *)

Record Config : Type := {
  IMAGE_SIZE : Z;
  CONFIDENCE_THRESHOLD : R;
  DISTANCE_THRESHOLD : R
}.

(** The values of the shipped [config.py]. *)
Definition config : Config := {|
  IMAGE_SIZE := 160;
  CONFIDENCE_THRESHOLD := 0.9;
  DISTANCE_THRESHOLD := 0.6
|}.

(** ** The embedding database ([face_embeddings.pkl]) *)

Record Database : Type := {
  embeddings : list Np.ndarray;
  labels : list string
}.

(** ** FaceRecognitionSystem: distances and matcher *)

Section Matcher.

Open Scope R_scope.

Variable cfg : Config.
Variable database : Database.

Definition euclidean_distance (embedding1 embedding2 : Np.ndarray) : result R :=
  d <- Np.subtract embedding1 embedding2 ;;
  Ok (Np.linalg_norm d).

Definition cosine_distance (embedding1 embedding2 : Np.ndarray) : result R :=
  dot_product <- Np.dot embedding1 embedding2 ;;
  Ok (1 - dot_product).

Definition distance (use_cosine : bool) (a b : Np.ndarray) : result R :=
  if use_cosine then cosine_distance a b else euclidean_distance a b.

(** The [for db_embedding in self.database['embeddings']] loop. *)
Fixpoint distances_of (face_embedding : Np.ndarray) (use_cosine : bool)
         (embs : list Np.ndarray) : result (list R) :=
  match embs with
  | [] => Ok []
  | db_embedding :: rest =>
      dist <- distance use_cosine face_embedding db_embedding ;;
      ds <- distances_of face_embedding use_cosine rest ;;
      Ok (dist :: ds)
  end.

Definition recognize_face (face_embedding : Np.ndarray) (use_cosine : bool)
  : result (option string * R) :=
  distances <- distances_of face_embedding use_cosine (embeddings database) ;;
  min_distance_idx <- Np.argmin distances ;;
  min_distance <- getitem distances min_distance_idx ;;
  if Rlt_dec min_distance (DISTANCE_THRESHOLD cfg) then
    recognized_name <- getitem (labels database) min_distance_idx ;;
    Ok (Some recognized_name, min_distance)
  else
    Ok (None, min_distance).

(** The reliability percentage computed at the top of [draw_face_box]. *)
Definition reliability (distance : option R) : R :=
  match distance with
  | Some d => Py.max 0 ((0.8 - d) / 0.8 * 100)
  | None => 0
  end.

End Matcher.

(** ** Images

    A frame is a numpy array of shape [(shape0, shape1, 3)]: [shape0] rows,
    [shape1] columns, three channels per pixel. *)

Module Img.

Open Scope Z_scope.

Definition pixel : Type := (Z * Z * Z)%type.

Record image : Type := {
  shape0 : Z;
  shape1 : Z;
  at_ : Z -> Z -> pixel
}.

(** [face.size]: the number of array elements. *)
Definition size (img : image) : Z := shape0 img * shape1 img * 3.

(** A bound of a Python slice [start:stop] over an axis of length [n]:
    a negative bound counts from the end, then the bound is clipped to
    [0..n]. *)
Definition slice_bound (n i : Z) : Z :=
  if i <? 0 then Z.max 0 (i + n) else Z.min i n.

Definition slice_len (n start stop : Z) : Z :=
  Z.max 0 (slice_bound n stop - slice_bound n start).

(** [img[y:y2, x:x2]] *)
Definition crop (img : image) (y y2 x x2 : Z) : image := {|
  shape0 := slice_len (shape0 img) y y2;
  shape1 := slice_len (shape1 img) x x2;
  at_ := fun r c =>
           at_ img (slice_bound (shape0 img) y + r) (slice_bound (shape1 img) x + c)
|}.

(** [cv2.cvtColor(frame, cv2.COLOR_BGR2RGB)]: the first and third channel
    of every pixel change places. *)
Definition cvtColor_BGR2RGB (img : image) : image := {|
  shape0 := shape0 img;
  shape1 := shape1 img;
  at_ := fun r c => let '(b, g, r') := at_ img r c in (r', g, b)
|}.

(** [int(0.15 * n)] and [int(n * 0.15)]: the product with the float 0.15,
    truncated toward zero.  For every [n] with [|n| < 2^40] the rounded
    float product truncates to the same integer as the exact [15 n / 100]:
    the double nearest to 0.15 is off by a relative 3.7e-17, less than half
    a unit in the last place, so an integral [15 n / 100] is hit exactly
    and a fractional one, which is at least 1/20 away from an integer, is
    not moved across it. *)
Definition int_15_percent (n : Z) : Z := Z.quot (15 * n) 100.

(** A nearest-neighbour resampler, one of the algorithms [cv2.resize]
    offers; it refuses an empty source and a non-positive target size, as
    [cv2.resize] does. *)
Definition resize_nearest (src : image) (dsize : Z * Z) : result image :=
  let '(w, h) := dsize in
  if (0 <? shape0 src) && (0 <? shape1 src) && (0 <? w) && (0 <? h) then
    Ok {| shape0 := h;
          shape1 := w;
          at_ := fun r c => at_ src (r * shape0 src / h) (c * shape1 src / w) |}
  else Raise ExternalError.

End Img.

Import Img.

(** What the code relies on from [cv2.resize(src, (w, h))]: on a non-empty
    source and a positive target size it returns an image of [h] rows and
    [w] columns. *)
Definition resize_contract (resize : image -> Z * Z -> result image) : Prop :=
  forall src w h,
    (0 < shape0 src)%Z -> (0 < shape1 src)%Z -> (0 < w)%Z -> (0 < h)%Z ->
    exists dst, resize src (w, h) = Ok dst /\ shape0 dst = h /\ shape1 dst = w.

(** ** Detections, as MTCNN returns them *)

Record Detection : Type := {
  box : Z * Z * Z * Z;        (* x, y, width, height *)
  confidence : R
}.

(** ** 02_detect_and_align_faces.py *)

Section Normalizer.

Open Scope Z_scope.

Variable cv2_resize : image -> Z * Z -> result image.

(** [align_face(image, detection, output_size)]; [Ok None] is the
    [return None] of an empty crop. *)
Definition align_face (img : image) (detection : Detection) (output_size : Z)
  : result (option image) :=
  let '(x, y, width, height) := box detection in
  let x := Z.abs x in
  let y := Z.abs y in
  let x2 := x + width in
  let y2 := y + height in
  let x_margin := int_15_percent width in
  let y_margin := int_15_percent height in
  let x := Z.max 0 (x - x_margin) in
  let y := Z.max 0 (y - y_margin) in
  let x2 := Z.min (shape1 img) (x2 + x_margin) in
  let y2 := Z.min (shape0 img) (y2 + y_margin) in
  let face := crop img y y2 x x2 in
  if size face =? 0 then Ok None
  else
    face_resized <- cv2_resize face (output_size, output_size) ;;
    Ok (Some face_resized).

End Normalizer.

(** ** 04_recognition_realtime.py: the frame loop *)

(** An entry of [active_faces]. *)
Record FaceData : Type := {
  fd_detection : Detection;
  fd_name : option string;
  fd_distance : R
}.

Definition process_every_n_frames : Z := 15.
Definition PERSISTENCE_LIMIT : Z := 20.

(** [ord('q')] and [ord('c')]. *)
Definition ord_q : Z := 113.
Definition ord_c : Z := 99.

(** The local variables of [run] that live across iterations. *)
Record LoopState : Type := {
  use_cosine : bool;
  frame_count : Z;
  frames_without_detection : Z;
  active_faces : list FaceData
}.

(** What one iteration does that can be seen from outside: whether the
    detection phase ran and what came out of its [try] block, and the
    entries handed to [draw_face_box]. *)
Record Observation : Type := {
  obs_frame : Z;
  obs_cycle : option (result (list FaceData));
  obs_drawn : list FaceData
}.

Section Loop.

Variable cfg : Config.
Variable database : Database.

(** The collaborators: [cv2.resize], [self.detector.detect_faces] and
    [self.embedder.embeddings] on a batch of one image. *)
Variable cv2_resize : image -> Z * Z -> result image.
Variable detect_faces : image -> result (list Detection).
Variable embedder_embeddings : image -> result Np.ndarray.

Definition get_face_embedding (face_image : image) : result Np.ndarray :=
  face_image <-
    (if (shape0 face_image =? IMAGE_SIZE cfg)%Z && (shape1 face_image =? IMAGE_SIZE cfg)%Z
     then Ok face_image
     else cv2_resize face_image (IMAGE_SIZE cfg, IMAGE_SIZE cfg)) ;;
  embedding <- embedder_embeddings face_image ;;
  Ok (map (fun v => (v / Np.linalg_norm embedding)%R) embedding).

(** The crop of the live variant, lines "Extraer coordenadas" to
    [face = rgb_frame[y1:y2, x1:x2]]. *)
Definition live_crop (rgb_frame : image) (detection : Detection) : image :=
  let '(x, y, width, height) := box detection in
  let x := Z.abs x in
  let y := Z.abs y in
  let margin := int_15_percent (Z.max width height) in
  let x1 := Z.max 0 (x - margin) in
  let y1 := Z.max 0 (y - margin) in
  let x2 := Z.min (shape1 rgb_frame) (x + width + margin) in
  let y2 := Z.min (shape0 rgb_frame) (y + height + margin) in
  crop rgb_frame y1 y2 x1 x2.

(** The body of [for detection in detections]: [Ok None] is a [continue],
    [Ok (Some entry)] an append to [current_detected_faces]. *)
Definition process_detection (rgb_frame : image) (cosine : bool)
           (detection : Detection) : result (option FaceData) :=
  if Rlt_dec (confidence detection) (CONFIDENCE_THRESHOLD cfg) then Ok None
  else
    let face := live_crop rgb_frame detection in
    if (size face =? 0)%Z then Ok None
    else
      face_embedding <- get_face_embedding face ;;
      r <- recognize_face cfg database face_embedding cosine ;;
      let '(name, distance) := r in
      Ok (Some {| fd_detection := detection;
                  fd_name := name;
                  fd_distance := distance |}).

Fixpoint detections_loop (rgb_frame : image) (cosine : bool)
         (detections : list Detection) (current_detected_faces : list FaceData)
  : result (list FaceData) :=
  match detections with
  | [] => Ok current_detected_faces
  | detection :: rest =>
      r <- process_detection rgb_frame cosine detection ;;
      match r with
      | None => detections_loop rgb_frame cosine rest current_detected_faces
      | Some entry =>
          detections_loop rgb_frame cosine rest (current_detected_faces ++ [entry])
      end
  end.

(** The [try] block up to the persistence logic: its value is
    [current_detected_faces], or the exception that left the block. *)
Definition detection_cycle (rgb_frame : image) (cosine : bool)
  : result (list FaceData) :=
  detections <- detect_faces rgb_frame ;;
  detections_loop rgb_frame cosine detections [].

(** One iteration of [while True], from [frame_count += 1] to the drawing
    of the active faces. *)
Definition loop_body (s : LoopState) (frame : image) : LoopState * Observation :=
  let frame_count' := (frame_count s + 1)%Z in
  let stale := (frames_without_detection s + 1)%Z in
  let '(cycle, active, stale) :=
    if (frame_count' mod process_every_n_frames =? 0)%Z then
      let rgb_frame := cvtColor_BGR2RGB frame in
      let outcome := detection_cycle rgb_frame (use_cosine s) in
      match outcome with
      | Ok current_detected_faces =>
          if (0 <? length current_detected_faces)%nat
          then (Some outcome, current_detected_faces, 0%Z)
          else (Some outcome, active_faces s, stale)
      | Raise _ => (Some outcome, active_faces s, stale)
      end
    else (None, active_faces s, stale) in
  let active := if (PERSISTENCE_LIMIT <? stale)%Z then [] else active in
  ({| use_cosine := use_cosine s;
      frame_count := frame_count';
      frames_without_detection := stale;
      active_faces := active |},
   {| obs_frame := frame_count';
      obs_cycle := cycle;
      obs_drawn := active |}).

Definition toggle_metric (s : LoopState) : LoopState :=
  {| use_cosine := negb (use_cosine s);
     frame_count := frame_count s;
     frames_without_detection := frames_without_detection s;
     active_faces := active_faces s |}.

(** The loop.  An element of [inputs] is a frame that [cap.read()]
    delivered together with what [cv2.waitKey(1)] returned after it was
    shown; the end of the list is the read that fails. *)
Fixpoint run_loop (s : LoopState) (inputs : list (image * Z))
  : list Observation * LoopState :=
  match inputs with
  | [] => ([], s)
  | (frame, waitKey) :: rest =>
      let '(s', o) := loop_body s frame in
      let key := Z.land waitKey 255 in
      if (key =? ord_q)%Z then ([o], s')
      else
        let s'' := if (key =? ord_c)%Z then toggle_metric s' else s' in
        let '(os, final) := run_loop s'' rest in
        (o :: os, final)
  end.

(** The state in which [run] enters the loop, once the camera is open. *)
Definition initial_state : LoopState := {|
  use_cosine := true;
  frame_count := 0;
  frames_without_detection := 0;
  active_faces := []
|}.

Definition run (inputs : list (image * Z)) : list Observation * LoopState :=
  run_loop initial_state inputs.

End Loop.

(** ** 04_recognition_realtime.py: what is put on the screen *)

Section Overlay.

Open Scope R_scope.

(** The truth value Python gives to [name], which is [None] or a string,
    and to [distance], which is [None] or a float. *)
Definition name_truthy (name : option string) : bool :=
  match name with
  | Some s => negb (String.eqb s "")
  | None => false
  end.

Definition distance_truthy (distance : option R) : bool :=
  match distance with
  | Some d => if Req_dec_T d 0 then false else true
  | None => false
  end.

(** What [draw_face_box] hands to the drawing calls of cv2: the two corners
    of the rectangle, its colour (blue, green, red), the label, and the
    reliability that is printed under the box; [None] stands for the empty
    [conf_text], for which nothing is printed.  The number is kept as it
    is, its formatting with one decimal is not modelled. *)
Record Overlay : Type := {
  ov_corner : Z * Z;
  ov_opposite : Z * Z;
  ov_color : Z * Z * Z;
  ov_label : string;
  ov_conf : option R
}.

Definition draw_face_box (detection : Detection) (name : option string)
           (distance : option R) : Overlay :=
  let '(x, y, width, height) := box detection in
  let x := Z.abs x in
  let y := Z.abs y in
  let reliability := reliability distance in
  let '(color, label, conf_text) :=
    if name_truthy name then
      (if Rlt_dec 60 reliability then (0, 255, 0)%Z else (0, 255, 255)%Z,
       match name with Some s => s | None => EmptyString end,
       Some reliability)
    else
      ((0, 0, 255)%Z,
       "Desconocido"%string,
       if distance_truthy distance then Some reliability else None) in
  {| ov_corner := (x, y);
     ov_opposite := ((x + width)%Z, (y + height)%Z);
     ov_color := color;
     ov_label := label;
     ov_conf := conf_text |}.

(** The call of phase 3 of [run] on an entry of [active_faces]. *)
Definition draw_entry (face_data : FaceData) : Overlay :=
  draw_face_box (fd_detection face_data) (fd_name face_data)
                (Some (fd_distance face_data)).

(** The colour of the status dot, from the stale counter of the frame. *)
Definition status_color (frames_without_detection : Z) : Z * Z * Z :=
  if (frames_without_detection <? PERSISTENCE_LIMIT)%Z
  then (0, 255, 0)%Z else (0, 0, 255)%Z.

End Overlay.

(** ** 02_detect_and_align_faces.py: the batch over the raw images *)

(** An image written by [cv2.imwrite]: the person's folder it goes to, the
    raw file it was made from (the written file is named after its stem)
    and the pixels. *)
Record Written : Type := {
  w_person : string;
  w_source : string;
  w_image : image
}.

(** Why an image of the batch produced no aligned face. *)
Inductive Skipped : Type :=
| Unreadable          (* cv2.imread returned None *)
| NoDetection         (* the detector found nothing *)
| LowConfidence       (* no detection reaches the confidence floor *)
| AlignFailed         (* align_face returned None *)
| Failed (e : exn).   (* an exception, caught and printed *)

Section AlignBatch.

Variable cfg : Config.
Variable cv2_resize : image -> Z * Z -> result image.
Variable detect_faces : image -> result (list Detection).

(** [face] of [align_face], the crop before the test for an empty one. *)
Definition align_crop (img : image) (detection : Detection) : image :=
  let '(x, y, width, height) := box detection in
  let x := Z.abs x in
  let y := Z.abs y in
  let x2 := (x + width)%Z in
  let y2 := (y + height)%Z in
  let x_margin := int_15_percent width in
  let y_margin := int_15_percent height in
  let x := Z.max 0 (x - x_margin) in
  let y := Z.max 0 (y - y_margin) in
  let x2 := Z.min (shape1 img) (x2 + x_margin) in
  let y2 := Z.min (shape0 img) (y2 + y_margin) in
  crop img y y2 x x2.

(** [[d for d in detections if d['confidence'] >= CONFIDENCE_THRESHOLD]] *)
Definition valid_detections (detections : list Detection) : list Detection :=
  filter (fun d => if Rle_dec (CONFIDENCE_THRESHOLD cfg) (confidence d)
                   then true else false)
         detections.

(** [max(valid_detections, key=lambda x: x['confidence'])] on a list that
    is not empty: the running best is replaced only by a detection of
    strictly greater confidence. *)
Definition max_by_confidence (first : Detection) (rest : list Detection) : Detection :=
  fold_left (fun best d => if Rlt_dec (confidence best) (confidence d) then d else best)
            rest first.

(** The body of the [try] block for one image file; [imread] is what
    [cv2.imread] returned for it. *)
Definition align_image (imread : option image)
  : result (Skipped + (Detection * image)) :=
  match imread with
  | None => Ok (inl Unreadable)
  | Some img =>
      let image_rgb := cvtColor_BGR2RGB img in
      detections <- detect_faces image_rgb ;;
      match detections with
      | [] => Ok (inl NoDetection)
      | _ :: _ =>
          match valid_detections detections with
          | [] => Ok (inl LowConfidence)
          | first :: rest =>
              let best_detection := max_by_confidence first rest in
              aligned_face <- align_face cv2_resize image_rgb best_detection
                                         (IMAGE_SIZE cfg) ;;
              match aligned_face with
              | None => Ok (inl AlignFailed)
              | Some face => Ok (inr (best_detection, cvtColor_BGR2RGB face))
              end
          end
      end
  end.

(** The [for idx, image_file in enumerate(image_files, 1)] loop of one
    person: the counters [processed] and [faces_detected] and the images
    written, in order. *)
Fixpoint align_person (person_name : string) (image_files : list (string * option image))
         (processed faces_detected : Z) (written : list Written)
  : Z * Z * list Written :=
  match image_files with
  | [] => (processed, faces_detected, written)
  | (image_file, imread) :: rest =>
      match align_image imread with
      | Ok (inr (_, aligned_face_bgr)) =>
          align_person person_name rest (processed + 1)%Z (faces_detected + 1)%Z
                       (written ++ [{| w_person := person_name;
                                       w_source := image_file;
                                       w_image := aligned_face_bgr |}])
      | Ok (inl _) | Raise _ =>
          align_person person_name rest processed faces_detected written
      end
  end.

(** [process_images] over the person folders: the two totals and all the
    images written.  Without any person folder nothing is done. *)
Fixpoint align_persons (persons : list (string * list (string * option image)))
         (total_processed total_faces_detected : Z) (written : list Written)
  : Z * Z * list Written :=
  match persons with
  | [] => (total_processed, total_faces_detected, written)
  | (person_name, image_files) :: rest =>
      let '(processed, faces_detected, written') :=
        align_person person_name image_files 0 0 written in
      align_persons rest (total_processed + processed)%Z
                    (total_faces_detected + faces_detected)%Z written'
  end.

Definition process_images (persons : list (string * list (string * option image)))
  : Z * Z * list Written :=
  align_persons persons 0 0 [].

End AlignBatch.

(** ** 03_generate_embeddings.py *)

(** The dictionary pickled into [face_embeddings.pkl]. *)
Record EmbeddingsFile : Type := {
  ef_embeddings : list Np.ndarray;
  ef_labels : list string;
  ef_image_paths : list string
}.

(** [np.array] on a list of one-dimensional arrays (numpy 1.24 and later):
    a matrix when the rows have one length, an error when they do not. *)
Definition np_array_rows (rows : list Np.ndarray) : result (list Np.ndarray) :=
  match rows with
  | [] => Ok []
  | first :: rest =>
      if forallb (fun r => Nat.eqb (length r) (length first)) rest
      then Ok rows else Raise ValueError
  end.

Section GenerateEmbeddings.

Variable cfg : Config.
Variable cv2_resize : image -> Z * Z -> result image.
Variable embedder_embeddings : image -> result Np.ndarray.

(** [preprocess_image(image_path)], on what [cv2.imread] returned. *)
Definition preprocess_image (imread : option image) : result (option image) :=
  match imread with
  | None => Ok None
  | Some img =>
      let img := cvtColor_BGR2RGB img in
      if negb (shape0 img =? IMAGE_SIZE cfg)%Z || negb (shape1 img =? IMAGE_SIZE cfg)%Z
      then img' <- cv2_resize img (IMAGE_SIZE cfg, IMAGE_SIZE cfg) ;; Ok (Some img')
      else Ok (Some img)
  end.

(** The body of the [try] block for one aligned image: [Ok None] is the
    [continue] taken when the image cannot be loaded. *)
Definition embed_image (imread : option image) : result (option Np.ndarray) :=
  img <- preprocess_image imread ;;
  match img with
  | None => Ok None
  | Some img =>
      embedding <- embedder_embeddings img ;;
      Ok (Some (map (fun v => (v / Np.linalg_norm embedding)%R) embedding))
  end.

(** The loop over the images of one person, appending to the three lists
    of [embeddings_database]. *)
Fixpoint embed_person (person_name : string) (image_files : list (string * option image))
         (db : EmbeddingsFile) : EmbeddingsFile :=
  match image_files with
  | [] => db
  | (image_path, imread) :: rest =>
      match embed_image imread with
      | Ok (Some embedding) =>
          embed_person person_name rest
                       {| ef_embeddings := ef_embeddings db ++ [embedding];
                          ef_labels := ef_labels db ++ [person_name];
                          ef_image_paths := ef_image_paths db ++ [image_path] |}
      | Ok None | Raise _ => embed_person person_name rest db
      end
  end.

Fixpoint embed_persons (persons : list (string * list (string * option image)))
         (db : EmbeddingsFile) : EmbeddingsFile :=
  match persons with
  | [] => db
  | (person_name, image_files) :: rest =>
      embed_persons rest (embed_person person_name image_files db)
  end.

(** [generate_embeddings], once the folder of aligned faces exists:
    [Ok None] when there is no person folder and nothing is written,
    otherwise the dictionary that is pickled, or the error of [np.array]
    on embeddings of different lengths. *)
Definition generate_embeddings (persons : list (string * list (string * option image)))
  : result (option EmbeddingsFile) :=
  match persons with
  | [] => Ok None
  | _ :: _ =>
      let db := embed_persons persons
                  {| ef_embeddings := []; ef_labels := []; ef_image_paths := [] |} in
      rows <- np_array_rows (ef_embeddings db) ;;
      Ok (Some {| ef_embeddings := rows;
                  ef_labels := ef_labels db;
                  ef_image_paths := ef_image_paths db |})
  end.

End GenerateEmbeddings.

(** [load_database] of 04_recognition_realtime.py, on what is on disk at
    the path of the pickle: [None] is the [FileNotFoundError]. *)
Definition load_database (on_disk : option EmbeddingsFile) : option Database :=
  match on_disk with
  | None => None
  | Some file => Some {| embeddings := ef_embeddings file; labels := ef_labels file |}
  end.

(** ** 01_capture_images.py: the capture loop *)

Section Capture.

(** One turn of [while True] in [capture_images_for_person]: the frame
    read, the faces the Haar cascade finds in it, and the key. *)
Record CaptureInput : Type := {
  ci_frame : image;
  ci_faces : list (Z * Z * Z * Z);
  ci_key : Z
}.

(** The loop: [image_count] and the frames handed to [cv2.imwrite]. *)
Fixpoint capture_loop (inputs : list CaptureInput) (image_count : Z)
         (saved : list image) : Z * list image :=
  match inputs with
  | [] => (image_count, saved)
  | i :: rest =>
      let key := Z.land (ci_key i) 255 in
      if (key =? ord_c)%Z then
        if (0 <? length (ci_faces i))%nat
        then capture_loop rest (image_count + 1)%Z (saved ++ [ci_frame i])
        else capture_loop rest image_count saved
      else if (key =? ord_q)%Z then (image_count, saved)
      else capture_loop rest image_count saved
  end.

End Capture.

(** ** ProyectoOCRTTS/api/app.py: the [/tts] endpoint *)

Module Tts.

(** What [request.get_json()] can return; the members of an object are the
    items of the Python dict, one per key. *)
#[local] Unset Elimination Schemes.
Inductive Json : Type :=
| JNull
| JBool (b : bool)
| JNumber (x : R)
| JString (s : string)
| JArray (items : list Json)
| JObject (members : list (string * Json)).
#[local] Set Elimination Schemes.

(** The exceptions of the handler's own steps; whatever the tokenizer, the
    model or the WAV writer raise is a [ModelError]. *)
Inductive PyError : Type :=
| TypeError
| AttributeError
| KeyError
| RequestError
| ModelError.

(** The three answers of the handler: status 400 with one of its two
    messages, status 500, or status 200 with the WAV bytes. *)
Inductive Response (Wav : Type) : Type :=
| MissingText      (* 400, "Falta el campo 'text' en el JSON" *)
| EmptyText        (* 400, "El texto no puede estar vacio" *)
| ServerError (e : PyError)   (* 500 *)
| Audio (wav : Wav).          (* 200, audio/wav *)

Arguments MissingText {Wav}.
Arguments EmptyText {Wav}.
Arguments ServerError {Wav} e.
Arguments Audio {Wav} wav.

Definition status {Wav : Type} (r : Response Wav) : Z :=
  match r with
  | MissingText | EmptyText => 400
  | ServerError _ => 500
  | Audio _ => 200
  end.

(** The truth value of a JSON value in Python. *)
Definition truthy (j : Json) : bool :=
  match j with
  | JNull => false
  | JBool b => b
  | JNumber x => if Req_dec_T x 0 then false else true
  | JString s => negb (String.eqb s "")
  | JArray items => match items with [] => false | _ :: _ => true end
  | JObject members => match members with [] => false | _ :: _ => true end
  end.

Fixpoint lookup (key : string) (members : list (string * Json)) : option Json :=
  match members with
  | [] => None
  | (k, v) :: rest => if String.eqb k key then Some v else lookup key rest
  end.

(** ['text' in data]: a key of an object, an element of an array, a
    substring of a string; a [TypeError] on anything else. *)
Definition contains_text (data : Json) : PyError + bool :=
  match data with
  | JObject members =>
      inr (match lookup "text" members with Some _ => true | None => false end)
  | JArray items =>
      inr (existsb (fun j => match j with
                             | JString s => String.eqb s "text"
                             | _ => false
                             end) items)
  | JString s =>
      inr (match String.index 0 "text" s with Some _ => true | None => false end)
  | JNull | JBool _ | JNumber _ => inl TypeError
  end.

(** [data['text']] *)
Definition getitem_text (data : Json) : PyError + Json :=
  match data with
  | JObject members =>
      match lookup "text" members with
      | Some v => inr v
      | None => inl KeyError
      end
  | _ => inl TypeError
  end.

Section Handler.

Variable Wav : Type.

(** [not text.strip()] on a string, and steps 2 to 5 of the handler, from
    the tokenizer to the WAV buffer. *)
Variable blank : string -> bool.
Variable synthesize : string -> PyError + Wav.

(** [text_to_speech_api], on what [request.get_json()] did. *)
Definition text_to_speech_api (get_json : PyError + Json) : Response Wav :=
  match get_json with
  | inl e => ServerError e
  | inr data =>
      if negb (truthy data) then MissingText
      else
        match contains_text data with
        | inl e => ServerError e
        | inr false => MissingText
        | inr true =>
            match getitem_text data with
            | inl e => ServerError e
            | inr (JString text) =>
                if blank text then EmptyText
                else
                  match synthesize text with
                  | inl e => ServerError e
                  | inr wav => Audio wav
                  end
            | inr _ => ServerError AttributeError
            end
        end
  end.

End Handler.

Arguments text_to_speech_api {Wav} blank synthesize get_json.

End Tts.

(** ** The distances and the matcher on binary64 numbers

    The functions of [FaceRecognitionSystem] once more, on the numbers
    numpy computes with: every operation rounds to the nearest binary64
    number, ties to even.  [np.dot] is taken to add the products from the
    first index on; the sample vectors below are chosen so that every
    product is exact and each sum is rounded once, whatever the order. *)

Module F64.

Open Scope float_scope.

Definition ndarray := list float.

Fixpoint inner_from (acc : float) (a b : ndarray) : float :=
  match a, b with
  | x :: a', y :: b' => inner_from (acc + x * y) a' b'
  | _, _ => acc
  end.

Definition inner (a b : ndarray) : float := inner_from 0 a b.

(** [np.dot(a, b)] *)
Definition dot (a b : ndarray) : result float :=
  if Nat.eqb (length a) (length b) then Ok (inner a b) else Raise ValueError.

Fixpoint zip_minus (a b : ndarray) : ndarray :=
  match a, b with
  | x :: a', y :: b' => (x - y) :: zip_minus a' b'
  | _, _ => []
  end.

(** [a - b], with the broadcasting of an array of one element. *)
Definition subtract (a b : ndarray) : result ndarray :=
  if Nat.eqb (length a) (length b) then Ok (zip_minus a b)
  else if Nat.eqb (length b) 1 then Ok (map (fun x => x - hd 0 b) a)
  else if Nat.eqb (length a) 1 then Ok (map (fun y => hd 0 a - y) b)
  else Raise ValueError.

(** [np.linalg.norm(x)]: [sqrt(x.dot(x))]. *)
Definition linalg_norm (x : ndarray) : float := PrimFloat.sqrt (inner x x).

(** [np.argmin]: the scan moves on a value that is not [>=] the smallest
    one so far, and stops at the first NaN. *)
Fixpoint argmin_scan (mp : float) (min_ind i : nat) (ip : list float) : nat :=
  match ip with
  | [] => min_ind
  | x :: rest =>
      if mp <=? x then argmin_scan mp min_ind (S i) rest
      else if PrimFloat.is_nan x then i
      else argmin_scan x i (S i) rest
  end.

Definition argmin (a : list float) : result nat :=
  match a with
  | [] => Raise ValueError
  | x :: rest => Ok (if PrimFloat.is_nan x then 0%nat else argmin_scan x 0 1 rest)
  end.

Record Database : Type := {
  embeddings : list ndarray;
  labels : list string
}.

Section Matcher.

Variable DISTANCE_THRESHOLD : float.
Variable database : Database.

Definition euclidean_distance (embedding1 embedding2 : ndarray) : result float :=
  d <- subtract embedding1 embedding2 ;;
  Ok (linalg_norm d).

Definition cosine_distance (embedding1 embedding2 : ndarray) : result float :=
  dot_product <- dot embedding1 embedding2 ;;
  Ok (1 - dot_product).

Definition distance (use_cosine : bool) (a b : ndarray) : result float :=
  if use_cosine then cosine_distance a b else euclidean_distance a b.

Fixpoint distances_of (face_embedding : ndarray) (use_cosine : bool)
         (embs : list ndarray) : result (list float) :=
  match embs with
  | [] => Ok []
  | db_embedding :: rest =>
      dist <- distance use_cosine face_embedding db_embedding ;;
      ds <- distances_of face_embedding use_cosine rest ;;
      Ok (dist :: ds)
  end.

Definition recognize_face (face_embedding : ndarray) (use_cosine : bool)
  : result (option string * float) :=
  distances <- distances_of face_embedding use_cosine (embeddings database) ;;
  min_distance_idx <- argmin distances ;;
  min_distance <- getitem distances min_distance_idx ;;
  if min_distance <? DISTANCE_THRESHOLD then
    recognized_name <- getitem (labels database) min_distance_idx ;;
    Ok (Some recognized_name, min_distance)
  else
    Ok (None, min_distance).

End Matcher.

(** [embedding / np.linalg.norm(embedding)], the last step of
    [get_face_embedding] and of the generation of the stored vectors. *)
Definition normalized (embedding : ndarray) : ndarray :=
  map (fun v => v / linalg_norm embedding) embedding.






End F64.

(** * Vocabulary of the statements *)

Section Vocabulary.

Open Scope R_scope.

(** The query and every stored vector have one shape, and there is a label
    for every stored vector: what [np.array] of equally long embeddings
    and [labels] built side by side give. *)
Definition well_shaped (database : Database) (query : Np.ndarray) : Prop :=
  Forall (fun e => length e = length query) (embeddings database)
  /\ length (labels database) = length (embeddings database).

Definition unit_vector (a : Np.ndarray) : Prop := Np.linalg_norm a = 1.


(** [d] is the least element of [ds] and [i] the first position holding it. *)
Definition first_min (ds : list R) (i : nat) (d : R) : Prop :=
  nth_error ds i = Some d
  /\ (forall j dj, nth_error ds j = Some dj -> d <= dj)
  /\ (forall j dj, (j < i)%nat -> nth_error ds j = Some dj -> d < dj).

(** The value of each distance on arrays of one shape. *)
Definition distance_value (cosine : bool) (a b : Np.ndarray) : R :=
  if cosine then 1 - Np.inner a b
  else sqrt (Np.inner a a - 2 * Np.inner a b + Np.inner b b).

(** [clamp(v, lo, hi)], as the specification writes the reliability. *)
Definition clamp (v lo hi : R) : R := Rmax lo (Rmin v hi).

End Vocabulary.

Section BoxVocabulary.

Open Scope Z_scope.

(** The box covers the columns [x .. x+w-1] and the rows [y .. y+h-1].
    It lies entirely outside the image when it shares no pixel with it. *)
Definition box_outside (img : image) (b : Z * Z * Z * Z) : bool :=
  let '(x, y, w, h) := b in
  (x + w <=? 0) || (shape1 img <=? x) || (y + h <=? 0) || (shape0 img <=? y).

(** It lies fully inside when all of its pixels are pixels of the image. *)
Definition box_inside (img : image) (b : Z * Z * Z * Z) : bool :=
  let '(x, y, w, h) := b in
  (0 <=? x) && (0 <=? y) && (x + w <=? shape1 img) && (y + h <=? shape0 img).

(** The box after [abs] of its origin and with the margin of [align_face]
    around it starts right of the last column or below the last row. *)
Definition widened_box_beyond (img : image) (b : Z * Z * Z * Z) : bool :=
  let '(x, y, w, h) := b in
  (shape1 img <=? Z.abs x - int_15_percent w)
  || (shape0 img <=? Z.abs y - int_15_percent h).

Definition box_has_area (b : Z * Z * Z * Z) : bool :=
  let '(x, y, w, h) := b in (0 <? w) && (0 <? h).

End BoxVocabulary.

Section LoopVocabulary.

(** The number of frames the loop works on: all those delivered, up to and
    including the first one answered by the key [q]. *)
Fixpoint frames_processed (inputs : list (image * Z)) : nat :=
  match inputs with
  | [] => 0
  | (_, waitKey) :: rest =>
      if (Z.land waitKey 255 =? ord_q)%Z then 1 else S (frames_processed rest)
  end.

(** The iteration entered the detection phase. *)
Definition cycle_ran (o : Observation) : bool :=
  match obs_cycle o with
  | Some _ => true
  | None => false
  end.

(** The detection phase of the iteration ended with a list that is not
    empty: the only outcome that replaces the active faces. *)
Definition cycle_found (o : Observation) : bool :=
  match obs_cycle o with
  | Some (Ok (_ :: _)) => true
  | _ => false
  end.

End LoopVocabulary.

(** ** Sample data *)

(** A frame of one colour. *)
Definition plain_image (rows cols : Z) (p : pixel) : image :=
  {| shape0 := rows; shape1 := cols; at_ := fun _ _ => p |}.


(** Two enrolled identities with orthogonal unit embeddings. *)
Definition store_two : Database := {|
  embeddings := [[1; 0]; [0; 1]]%R;
  labels := ["Ana"; "Luis"]%string
|}.

(** Two detections that pass the confidence floor. *)
Definition det_a : Detection := {| box := (10, 10, 40, 40)%Z; confidence := 1%R |}.
Definition det_b : Detection := {| box := (60, 60, 20, 20)%Z; confidence := 1%R |}.

(** A detector that reads the top left pixel of the frame: green 9 stands
    for a frame with two faces, red 1 for a frame with one face, anything
    else for a frame without faces. *)
Definition sample_detect (img : image) : result (list Detection) :=
  let '(r, g, b) := at_ img 0 0 in
  if (g =? 9)%Z then Ok [det_a; det_b]
  else if (r =? 1)%Z then Ok [det_b]
  else Ok [].

(** An embedder that fails on a face whose top left pixel has green 9. *)
Definition sample_embed (img : image) : result Np.ndarray :=
  let '(r, g, b) := at_ img 0 0 in
  if (g =? 9)%Z then Raise ExternalError else Ok [1; 0]%R.

Definition face_frame : image := plain_image 100 100 (1, 0, 1)%Z.
Definition empty_frame : image := plain_image 100 100 (0, 0, 0)%Z.

(** The upper half of the frame, where [det_a] lies, makes the embedder
    fail; the lower half, where [det_b] lies, does not. *)
Definition two_face_frame : image := {|
  shape0 := 100;
  shape1 := 100;
  at_ := fun r _ => if (r <? 50)%Z then (1, 9, 1)%Z else (1, 0, 1)%Z
|}.

(** A state one frame before a detection frame. *)
Definition state_before_cycle : LoopState := {|
  use_cosine := true;
  frame_count := 14;
  frames_without_detection := 3;
  active_faces := []
|}.

(** A frame with a face, answered by no key, and 21 frames without. *)
Definition window_inputs : list (image * Z) :=
  (face_frame, 0%Z) :: repeat (empty_frame, 0%Z) 21.

(** The permissive threshold that [config.py] mentions, beside the shipped
    one. *)
Definition config_permissive : Config := {|
  IMAGE_SIZE := 160;
  CONFIDENCE_THRESHOLD := 0.9;
  DISTANCE_THRESHOLD := 0.8
|}.

(** A store with one enrolled identity. *)
Definition store_luis : Database := {|
  embeddings := [[0; 1]]%R;
  labels := ["Luis"]%string
|}.

(** A state in which faces have gone 19 frames without a detection. *)
Definition state_nearly_stale : LoopState := {|
  use_cosine := true;
  frame_count := 0;
  frames_without_detection := 19;
  active_faces := [{| fd_detection := det_a; fd_name := None; fd_distance := 1%R |}]
|}.

(** The aligned faces of one enrolled person: a file that cannot be read
    and one that can. *)
Definition enrolled_persons : list (string * list (string * option image)) :=
  [("Ana"%string,
    [("aligned_broken.jpg"%string, None);
     ("aligned_face.jpg"%string, Some face_frame)])].

(** ** More vocabulary *)

(** The vectors that normalising an output of the embedder gives. *)
Definition normalized_output_of (embedder_embeddings : image -> result Np.ndarray)
           (e : Np.ndarray) : Prop :=
  exists img v,
    embedder_embeddings img = Ok v
    /\ e = map (fun x => (x / Np.linalg_norm v)%R) v.

(** The number of image files over all person folders. *)
Definition count_files (persons : list (string * list (string * option image))) : nat :=
  list_sum (map (fun p => length (snd p)) persons).

(** The presses of [c] that the loop acts upon: those on the frames before
    the first frame answered by [q]. *)
Fixpoint metric_toggles (inputs : list (image * Z)) : nat :=
  match inputs with
  | [] => 0
  | (_, waitKey) :: rest =>
      if (Z.land waitKey 255 =? ord_q)%Z then 0
      else if (Z.land waitKey 255 =? ord_c)%Z then S (metric_toggles rest)
      else metric_toggles rest
  end.

(** An entry of the active faces that a detection cycle can have produced
    on the given store: a detection at or above the confidence floor, named
    by a stored label when its distance is below the threshold and not
    named otherwise. *)
Definition genuine_entry (cfg : Config) (database : Database) (fd : FaceData) : Prop :=
  ~ (confidence (fd_detection fd) < CONFIDENCE_THRESHOLD cfg)%R
  /\ (forall label, fd_name fd = Some label ->
                    In label (labels database)
                    /\ (fd_distance fd < DISTANCE_THRESHOLD cfg)%R)
  /\ (fd_name fd = None -> ~ (fd_distance fd < DISTANCE_THRESHOLD cfg)%R).

(** The shapes of two arrays let the distance be computed: equal lengths
    for the dot product; for the subtraction also a single element on
    either side, which numpy broadcasts. *)
Definition shapes_agree (use_cosine : bool) (a b : Np.ndarray) : bool :=
  if use_cosine then Nat.eqb (length a) (length b)
  else Nat.eqb (length a) (length b) || Nat.eqb (length b) 1 || Nat.eqb (length a) 1.

(** * Properties *)

(** ** Real vectors *)

Section VectorAlgebra.

Open Scope R_scope.

Lemma inner_self_nonneg (a : Np.ndarray) : 0 <= Np.inner a a.
Proof.
  induction a as [|x a IH]; simpl; [lra|]. nra.
Qed.


Lemma inner_zip_minus (a b : Np.ndarray) :
  length a = length b ->
  Np.inner (Np.zip_minus a b) (Np.zip_minus a b)
  = Np.inner a a - 2 * Np.inner a b + Np.inner b b.
Proof.
  revert b; induction a as [|x a IH]; intros [|y b] Hlen; simpl in *;
    try discriminate; [lra|].
  injection Hlen as Hlen. rewrite (IH b Hlen). ring.
Qed.



Lemma dot_aligned (a b : Np.ndarray) :
  length a = length b -> Np.dot a b = Ok (Np.inner a b).
Proof.
  intros Hlen; unfold Np.dot. rewrite Hlen, Nat.eqb_refl. reflexivity.
Qed.

Lemma subtract_aligned (a b : Np.ndarray) :
  length a = length b -> Np.subtract a b = Ok (Np.zip_minus a b).
Proof.
  intros Hlen; unfold Np.subtract. rewrite Hlen, Nat.eqb_refl. reflexivity.
Qed.

Lemma distance_aligned (cosine : bool) (a b : Np.ndarray) :
  length a = length b -> distance cosine a b = Ok (distance_value cosine a b).
Proof.
  intros Hlen; destruct cosine; simpl.
  - unfold cosine_distance. rewrite (dot_aligned a b Hlen). reflexivity.
  - unfold euclidean_distance. rewrite (subtract_aligned a b Hlen). simpl.
    unfold Np.linalg_norm. rewrite (inner_zip_minus a b Hlen). reflexivity.
Qed.




End VectorAlgebra.

(** ** The scan of [np.argmin] *)

Section Argmin.

Open Scope R_scope.

Lemma argmin_scan_first_min (rest pre : list R) (mp : R) (k : nat) :
  nth_error pre k = Some mp ->
  (forall j dj, nth_error pre j = Some dj -> mp <= dj) ->
  (forall j dj, (j < k)%nat -> nth_error pre j = Some dj -> mp < dj) ->
  exists d,
    first_min (pre ++ rest) (Np.argmin_scan mp k (length pre) rest) d.
Proof.
  revert pre mp k; induction rest as [|x rest IH]; intros pre mp k Hk Hall Hbefore.
  - simpl. exists mp. rewrite app_nil_r. repeat split; assumption.
  - assert (Hk_lt : (k < length pre)%nat).
    { apply nth_error_Some. rewrite Hk. discriminate. }
    assert (Hshift : pre ++ x :: rest = (pre ++ [x]) ++ rest)
      by (rewrite <- app_assoc; reflexivity).
    assert (Hlen : S (length pre) = length (pre ++ [x]))
      by (rewrite length_app; simpl; lia).
    simpl. rewrite Hshift, Hlen.
    destruct (Rlt_dec x mp) as [Hlt|Hge].
    + apply IH.
      * rewrite nth_error_app2 by lia. rewrite Nat.sub_diag. reflexivity.
      * intros j dj Hj.
        destruct (Nat.lt_ge_cases j (length pre)) as [Hjl|Hjl].
        -- rewrite nth_error_app1 in Hj by assumption.
           specialize (Hall j dj Hj). lra.
        -- rewrite nth_error_app2 in Hj by assumption.
           destruct (j - length pre)%nat as [|n]; simpl in Hj.
           ++ injection Hj as <-. lra.
           ++ destruct n; discriminate.
      * intros j dj Hjl Hj.
        rewrite nth_error_app1 in Hj by lia.
        specialize (Hall j dj Hj). lra.
    + apply IH.
      * rewrite nth_error_app1 by assumption. exact Hk.
      * intros j dj Hj.
        destruct (Nat.lt_ge_cases j (length pre)) as [Hjl|Hjl].
        -- rewrite nth_error_app1 in Hj by assumption. exact (Hall j dj Hj).
        -- rewrite nth_error_app2 in Hj by assumption.
           destruct (j - length pre)%nat as [|n]; simpl in Hj.
           ++ injection Hj as <-. lra.
           ++ destruct n; discriminate.
      * intros j dj Hjl Hj.
        rewrite nth_error_app1 in Hj by lia.
        exact (Hbefore j dj Hjl Hj).
Qed.

Lemma argmin_first_min (x : R) (rest : list R) :
  exists i d, Np.argmin (x :: rest) = Ok i /\ first_min (x :: rest) i d.
Proof.
  destruct (argmin_scan_first_min rest [x] x 0) as [d Hd].
  - reflexivity.
  - intros [|[|j]] dj Hj; simpl in Hj; try discriminate.
    injection Hj as <-. lra.
  - intros j dj Hj; lia.
  - exists (Np.argmin_scan x 0 1 rest), d. split; [reflexivity|exact Hd].
Qed.


End Argmin.

(** ** The matcher *)

Section MatcherProperties.

Open Scope R_scope.

Variable cfg : Config.
Variable database : Database.

Lemma distances_of_aligned (q : Np.ndarray) (c : bool) (embs : list Np.ndarray) :
  Forall (fun e => length e = length q) embs ->
  distances_of q c embs = Ok (map (distance_value c q) embs).
Proof.
  induction 1 as [|e embs He _ IH]; simpl; [reflexivity|].
  rewrite (distance_aligned c q e (eq_sym He)). simpl.
  rewrite IH. reflexivity.
Qed.

Lemma distances_pointwise (q : Np.ndarray) (c : bool) (embs : list Np.ndarray) :
  Forall (fun e => length e = length q) embs ->
  Forall2 (fun e d => distance c q e = Ok d) embs (map (distance_value c q) embs).
Proof.
  induction 1 as [|e embs He _ IH]; simpl; constructor; [|exact IH].
  apply distance_aligned. symmetry; exact He.
Qed.

(** What [recognize_face] computes on a store that is not empty. *)
Lemma recognize_face_first_min (q : Np.ndarray) (c : bool) :
  embeddings database <> [] ->
  well_shaped database q ->
  exists i d label,
    Np.argmin (map (distance_value c q) (embeddings database)) = Ok i
    /\ first_min (map (distance_value c q) (embeddings database)) i d
    /\ nth_error (labels database) i = Some label
    /\ recognize_face cfg database q c
       = Ok (if Rlt_dec d (DISTANCE_THRESHOLD cfg) then Some label else None, d).
Proof.
  intros Hne [Hshape Hlabels].
  unfold recognize_face. rewrite (distances_of_aligned q c (embeddings database) Hshape).
  destruct (embeddings database) as [|e0 rest] eqn:Hembs; [contradiction|].
  destruct (argmin_first_min (distance_value c q e0)
                             (map (distance_value c q) rest)) as (i & d & Harg & Hmin).
  change (distance_value c q e0 :: map (distance_value c q) rest)
    with (map (distance_value c q) (e0 :: rest)) in Harg, Hmin.
  assert (Hi : (i < length (labels database))%nat).
  { rewrite Hlabels, <- (length_map (distance_value c q)).
    apply nth_error_Some. destruct Hmin as [Hnth _]. rewrite Hnth. discriminate. }
  destruct (nth_error (labels database) i) as [label|] eqn:Hlab;
    [|apply nth_error_Some in Hi; contradiction].
  exists i, d, label. repeat split; try assumption; try (apply Hmin).
  unfold bind at 1. rewrite Harg. unfold bind at 1.
  unfold getitem at 1. destruct Hmin as [Hnth _]. rewrite Hnth. unfold bind at 1.
  destruct (Rlt_dec d (DISTANCE_THRESHOLD cfg)); [|reflexivity].
  unfold getitem. rewrite Hlab. reflexivity.
Qed.

Lemma recognize_face_empty (q : Np.ndarray) (c : bool) :
  embeddings database = [] ->
  recognize_face cfg database q c = Raise ValueError.
Proof.
  intros Hembs. unfold recognize_face. rewrite Hembs. reflexivity.
Qed.

End MatcherProperties.

(** ** Unit vectors *)

Section UnitVectors.

Open Scope R_scope.

Lemma inner_self_zero (a : Np.ndarray) :
  Np.inner a a = 0 -> Forall (fun x => x = 0) a.
Proof.
  induction a as [|x a IH]; simpl; intros H; constructor.
  - pose proof (inner_self_nonneg a). nra.
  - apply IH. pose proof (inner_self_nonneg a). nra.
Qed.

Lemma zip_minus_zero (a b : Np.ndarray) :
  length a = length b ->
  Forall (fun x => x = 0) (Np.zip_minus a b) -> a = b.
Proof.
  revert b; induction a as [|x a IH]; intros [|y b] Hlen Hz; simpl in *;
    try discriminate; [reflexivity|].
  injection Hlen as Hlen. inversion Hz as [|? ? Hxy Hrest]; subst.
  f_equal; [lra|]. apply IH; assumption.
Qed.




Lemma unit_e1 : unit_vector [1; 0].
Proof.
  unfold unit_vector, Np.linalg_norm; simpl.
  replace (1 * 1 + (0 * 0 + 0)) with 1 by ring. apply sqrt_1.
Qed.


End UnitVectors.

(** ** Statements about the matcher *)

Open Scope R_scope.

(** C2.  On a store that is not empty, [recognize_face] returns the least of
    the distances between the query and the stored vectors under the
    selected metric, taken at the first position that holds it; the
    identity is the label at that position when the least distance is
    strictly below the threshold and [None] otherwise, and the least
    distance is returned in both cases. *)
Theorem recognize_face_nearest
        (cfg : Config) (db : Database) (q : Np.ndarray) (c : bool) :
  embeddings db <> [] ->
  well_shaped db q ->
  exists ds i d label,
    Forall2 (fun e dist => distance c q e = Ok dist) (embeddings db) ds
    /\ first_min ds i d
    /\ nth_error (labels db) i = Some label
    /\ recognize_face cfg db q c
       = Ok (if Rlt_dec d (DISTANCE_THRESHOLD cfg) then Some label else None, d).
Proof.
  intros Hne Hws.
  destruct (recognize_face_first_min cfg db q c Hne Hws)
    as (i & d & label & _ & Hmin & Hlab & Hrec).
  exists (map (distance_value c q) (embeddings db)), i, d, label.
  repeat split; try assumption; try (apply Hmin).
  apply distances_pointwise. exact (proj1 Hws).
Qed.

Lemma recognize_face_nearest_witness :
  exists ds i d label,
    Forall2 (fun e dist => distance true [1; 0] e = Ok dist) (embeddings store_two) ds
    /\ first_min ds i d
    /\ nth_error (labels store_two) i = Some label
    /\ recognize_face config store_two [1; 0] true
       = Ok (if Rlt_dec d (DISTANCE_THRESHOLD config) then Some label else None, d).
Proof.
  apply (recognize_face_nearest config store_two [1; 0] true).
  - discriminate.
  - split; repeat constructor.
Defined.







(** C7.  For a distance that is not negative, the reliability that
    [draw_face_box] shows is [(0.8 - d) / 0.8 * 100] clamped to the range
    from 0 to 100, hence a value of that range. *)
Theorem reliability_clamped (d : R) :
  0 <= d ->
  reliability (Some d) = clamp ((0.8 - d) / 0.8 * 100) 0 100
  /\ 0 <= reliability (Some d) <= 100.
Proof.
  intros Hd. unfold reliability, clamp, Py.max, Rmax, Rmin.
  destruct (Rlt_dec 0 ((0.8 - d) / 0.8 * 100)) as [H1|H1];
    destruct (Rle_dec ((0.8 - d) / 0.8 * 100) 100) as [H2|H2];
    try destruct (Rle_dec 0 ((0.8 - d) / 0.8 * 100)) as [H3|H3];
    try destruct (Rle_dec 0 100) as [H4|H4];
    repeat split; lra.
Qed.

Lemma reliability_clamped_witness :
  reliability (Some 0.2) = clamp ((0.8 - 0.2) / 0.8 * 100) 0 100
  /\ 0 <= reliability (Some 0.2) <= 100.
Proof.
  apply (reliability_clamped 0.2). lra.
Defined.

(** C9.  [recognize_face] fails on the empty store, with the [ValueError]
    of [np.argmin] on an empty sequence, and returns an identity and a
    distance on every store that holds at least one embedding. *)
Theorem recognize_face_total_on_nonempty
        (cfg : Config) (db : Database) (q : Np.ndarray) (c : bool) :
  (embeddings db = [] -> recognize_face cfg db q c = Raise ValueError)
  /\ (embeddings db <> [] ->
      well_shaped db q ->
      exists name d, recognize_face cfg db q c = Ok (name, d)).
Proof.
  split.
  - apply recognize_face_empty.
  - intros Hne Hws.
    destruct (recognize_face_first_min cfg db q c Hne Hws)
      as (i & d & label & _ & _ & _ & Hrec).
    rewrite Hrec. eexists; eexists; reflexivity.
Qed.

Lemma recognize_face_total_on_nonempty_witness :
  recognize_face config {| embeddings := []; labels := [] |} [1; 0] true
  = Raise ValueError
  /\ exists name d, recognize_face config store_two [1; 0] true = Ok (name, d).
Proof.
  split.
  - apply (proj1 (recognize_face_total_on_nonempty
                    config {| embeddings := []; labels := [] |} [1; 0] true)).
    reflexivity.
  - apply (proj2 (recognize_face_total_on_nonempty config store_two [1; 0] true)).
    + discriminate.
    + split; repeat constructor.
Defined.




Close Scope R_scope.

(** ** The normalizer *)

Section NormalizerProperties.

Open Scope Z_scope.

Lemma slice_len_empty_past_end (n start stop : Z) :
  0 <= n -> n <= start -> slice_len n start stop = 0.
Proof.
  intros Hn Hstart. unfold slice_len, slice_bound.
  destruct (start <? 0) eqn:Hs; destruct (stop <? 0) eqn:Ht; lia.
Qed.

Lemma slice_len_within (n start stop : Z) :
  0 <= start -> start <= stop -> stop <= n ->
  slice_len n start stop = stop - start.
Proof.
  intros H0 H1 H2. unfold slice_len, slice_bound.
  destruct (start <? 0) eqn:Hs; destruct (stop <? 0) eqn:Ht; lia.
Qed.

Lemma int_15_percent_nonneg (n : Z) : 0 <= n -> 0 <= int_15_percent n.
Proof.
  intros Hn. unfold int_15_percent. apply Z.quot_pos; lia.
Qed.

Variable cv2_resize : image -> Z * Z -> result image.

Lemma align_face_beyond (img : image) (x y w h output_size : Z) (conf : R) :
  0 <= shape0 img -> 0 <= shape1 img ->
  widened_box_beyond img (x, y, w, h) = true ->
  align_face cv2_resize img {| box := (x, y, w, h); confidence := conf |} output_size
  = Ok None.
Proof.
  intros H0 H1 Hb. unfold align_face, size, crop; cbn [box shape0 shape1].
  unfold widened_box_beyond in Hb. apply orb_true_iff in Hb.
  destruct Hb as [Hb|Hb]; apply Z.leb_le in Hb.
  - rewrite (slice_len_empty_past_end (shape1 img)) by lia.
    replace (_ * 0 * 3) with 0 by lia. reflexivity.
  - rewrite (slice_len_empty_past_end (shape0 img)) by lia.
    reflexivity.
Qed.

Lemma align_face_inside (img : image) (x y w h output_size : Z) (conf : R) :
  resize_contract cv2_resize ->
  box_inside img (x, y, w, h) = true ->
  box_has_area (x, y, w, h) = true ->
  0 < output_size ->
  exists face,
    align_face cv2_resize img {| box := (x, y, w, h); confidence := conf |} output_size
    = Ok (Some face)
    /\ shape0 face = output_size /\ shape1 face = output_size.
Proof.
  intros Hres Hin Harea Hout.
  unfold box_inside in Hin. unfold box_has_area in Harea.
  repeat (apply andb_true_iff in Hin; destruct Hin as [Hin ?]).
  apply andb_true_iff in Harea; destruct Harea as [Hw Hh].
  apply Z.leb_le in Hin. apply Z.ltb_lt in Hw, Hh.
  repeat match goal with H : (_ <=? _) = true |- _ => apply Z.leb_le in H end.
  pose proof (int_15_percent_nonneg w ltac:(lia)) as Hmx.
  pose proof (int_15_percent_nonneg h ltac:(lia)) as Hmy.
  unfold align_face, size, crop; cbn [box shape0 shape1].
  rewrite (slice_len_within (shape0 img)) by lia.
  rewrite (slice_len_within (shape1 img)) by lia.
  set (rows := Z.min (shape0 img) (Z.abs y + h + int_15_percent h)
               - Z.max 0 (Z.abs y - int_15_percent h)).
  set (cols := Z.min (shape1 img) (Z.abs x + w + int_15_percent w)
               - Z.max 0 (Z.abs x - int_15_percent w)).
  assert (Hrows : 0 < rows) by (unfold rows; lia).
  assert (Hcols : 0 < cols) by (unfold cols; lia).
  destruct (rows * cols * 3 =? 0) eqn:Hsz; [apply Z.eqb_eq in Hsz; nia|].
  match goal with
  | |- context [cv2_resize ?f _] =>
      destruct (Hres f output_size output_size) as (dst & Hdst & Hs0 & Hs1);
        cbn [shape0 shape1]; try assumption
  end.
  exists dst. rewrite Hdst. simpl. auto.
Qed.

End NormalizerProperties.

Lemma resize_nearest_contract : resize_contract resize_nearest.
Proof.
  intros src w h H0 H1 Hw Hh. unfold resize_nearest.
  apply Z.ltb_lt in H0, H1, Hw, Hh. rewrite H0, H1, Hw, Hh. simpl.
  eexists; repeat split.
Qed.

(** C8, as the code has it.  [align_face] returns [None] when the box, after
    [abs] of its origin and widened by its 15 % margin, starts right of the
    last column or below the last row of the image; and for a box of
    positive width and height that lies fully inside the image it returns an
    image of exactly [output_size] rows and [output_size] columns. *)
Theorem align_face_empty_or_sized
        (cv2_resize : image -> Z * Z -> result image)
        (img : image) (det : Detection) (output_size : Z) :
  resize_contract cv2_resize ->
  (0 <= shape0 img)%Z ->
  (0 <= shape1 img)%Z ->
  (widened_box_beyond img (box det) = true ->
   align_face cv2_resize img det output_size = Ok None)
  /\ (box_inside img (box det) = true ->
      box_has_area (box det) = true ->
      (0 < output_size)%Z ->
      exists face,
        align_face cv2_resize img det output_size = Ok (Some face)
        /\ shape0 face = output_size /\ shape1 face = output_size).
Proof.
  intros Hres H0 H1. destruct det as [[[[x y] w] h] conf]; cbn [box]. split.
  - intros Hb. apply align_face_beyond; assumption.
  - intros Hin Harea Hout. apply align_face_inside; assumption.
Qed.

Lemma align_face_empty_or_sized_witness :
  align_face resize_nearest (plain_image 100 100 (0, 0, 0)%Z)
             {| box := (200, 10, 40, 40)%Z; confidence := 1%R |} 160
  = Ok None
  /\ exists face,
      align_face resize_nearest (plain_image 100 100 (0, 0, 0)%Z)
                 {| box := (10, 10, 40, 40)%Z; confidence := 1%R |} 160
      = Ok (Some face)
      /\ shape0 face = 160%Z /\ shape1 face = 160%Z.
Proof.
  split.
  - apply (proj1 (align_face_empty_or_sized
                    resize_nearest (plain_image 100 100 (0, 0, 0)%Z)
                    {| box := (200, 10, 40, 40)%Z; confidence := 1%R |} 160
                    resize_nearest_contract ltac:(simpl; lia) ltac:(simpl; lia))).
    reflexivity.
  - apply (proj2 (align_face_empty_or_sized
                    resize_nearest (plain_image 100 100 (0, 0, 0)%Z)
                    {| box := (10, 10, 40, 40)%Z; confidence := 1%R |} 160
                    resize_nearest_contract ltac:(simpl; lia) ltac:(simpl; lia))).
    + reflexivity.
    + reflexivity.
    + reflexivity.
Defined.

(** C8 as stated fails: the box with origin (100, 10) and size 40 x 40 lies
    entirely right of a frame of 100 columns, yet its margin of 6 pixels
    reaches back into the frame and [align_face] returns the resized strip
    of columns 94 to 99. *)
Lemma align_face_outside_box_not_empty :
  box_outside (plain_image 100 100 (0, 0, 0)%Z) (100, 10, 40, 40)%Z = true
  /\ align_face resize_nearest (plain_image 100 100 (0, 0, 0)%Z)
                {| box := (100, 10, 40, 40)%Z; confidence := 1%R |} 160
     <> Ok None
  /\ exists face,
      align_face resize_nearest (plain_image 100 100 (0, 0, 0)%Z)
                 {| box := (100, 10, 40, 40)%Z; confidence := 1%R |} 160
      = Ok (Some face)
      /\ shape0 face = 160%Z /\ shape1 face = 160%Z.
Proof.
  split; [reflexivity|]. split.
  - discriminate.
  - eexists. split; [reflexivity|]. split; reflexivity.
Qed.

(** ** The frame loop *)

Section LoopProperties.

Open Scope Z_scope.

Variable cfg : Config.
Variable database : Database.
Variable cv2_resize : image -> Z * Z -> result image.
Variable detect_faces : image -> result (list Detection).
Variable embedder_embeddings : image -> result Np.ndarray.

Local Abbreviation body :=
  (loop_body cfg database cv2_resize detect_faces embedder_embeddings).
Local Abbreviation loop :=
  (run_loop cfg database cv2_resize detect_faces embedder_embeddings).

Lemma loop_body_counts (s : LoopState) (frame : image) :
  frame_count (fst (body s frame)) = frame_count s + 1
  /\ obs_frame (snd (body s frame)) = frame_count s + 1
  /\ cycle_ran (snd (body s frame))
     = ((frame_count s + 1) mod process_every_n_frames =? 0)
  /\ use_cosine (fst (body s frame)) = use_cosine s.
Proof.
  unfold loop_body, cycle_ran.
  destruct ((frame_count s + 1) mod process_every_n_frames =? 0).
  - destruct (detection_cycle _ _ _ _ _ _ _) as [faces|e];
      [destruct (0 <? length faces)%nat|]; simpl; auto.
  - simpl; auto.
Qed.

(** An iteration whose detection phase did not run, failed, or found
    nothing only ages the active faces. *)
Lemma loop_body_ages (s : LoopState) (frame : image) :
  cycle_found (snd (body s frame)) = false ->
  frames_without_detection (fst (body s frame)) = frames_without_detection s + 1
  /\ active_faces (fst (body s frame))
     = (if PERSISTENCE_LIMIT <? frames_without_detection s + 1
        then [] else active_faces s)
  /\ obs_drawn (snd (body s frame)) = active_faces (fst (body s frame)).
Proof.
  unfold loop_body, cycle_found.
  destruct ((frame_count s + 1) mod process_every_n_frames =? 0).
  - destruct (detection_cycle _ _ _ _ _ _ _) as [[|fd faces]|e];
      simpl; intros H; try discriminate; auto.
  - simpl; auto.
Qed.

(** An iteration whose detection phase found faces installs them. *)
Lemma loop_body_refreshes (s : LoopState) (frame : image) (results : list FaceData) :
  obs_cycle (snd (body s frame)) = Some (Ok results) ->
  results <> [] ->
  frames_without_detection (fst (body s frame)) = 0
  /\ active_faces (fst (body s frame)) = results
  /\ obs_drawn (snd (body s frame)) = results.
Proof.
  unfold loop_body.
  destruct ((frame_count s + 1) mod process_every_n_frames =? 0).
  - destruct (detection_cycle _ _ _ _ _ _ _) as [[|fd faces]|e];
      simpl; intros H Hne; try discriminate.
    + injection H as <-. contradiction.
    + injection H as <-. auto.
  - simpl; intros H; discriminate.
Qed.

Lemma run_loop_cons (s : LoopState) (frame : image) (waitKey : Z)
      (rest : list (image * Z)) :
  loop s ((frame, waitKey) :: rest)
  = if Z.land waitKey 255 =? ord_q then ([snd (body s frame)], fst (body s frame))
    else
      let s'' := if Z.land waitKey 255 =? ord_c
                 then toggle_metric (fst (body s frame)) else fst (body s frame) in
      (snd (body s frame) :: fst (loop s'' rest), snd (loop s'' rest)).
Proof.
  simpl.
  destruct (loop_body _ _ _ _ _ s frame) as [s' o]; simpl.
  destruct (Z.land waitKey 255 =? ord_q); [reflexivity|].
  destruct (run_loop _ _ _ _ _ _ rest) as [os final]. reflexivity.
Qed.

Lemma run_loop_length (inputs : list (image * Z)) :
  forall s, length (fst (loop s inputs)) = frames_processed inputs.
Proof.
  induction inputs as [|[frame waitKey] rest IH]; intros s; [reflexivity|].
  rewrite run_loop_cons. simpl.
  destruct (Z.land waitKey 255 =? ord_q); simpl; [reflexivity|].
  rewrite IH. reflexivity.
Qed.

(** The observations from position [t] on are those of the loop started in
    the state reached there, on the inputs that remain. *)
Lemma run_loop_skipn (t : nat) :
  forall s inputs,
    (t < length (fst (loop s inputs)))%nat ->
    exists s_t,
      fst (loop s_t (skipn t inputs)) = skipn t (fst (loop s inputs))
      /\ frame_count s_t = frame_count s + Z.of_nat t.
Proof.
  induction t as [|t IH]; intros s inputs Hlt.
  - exists s. simpl. split; [reflexivity|lia].
  - destruct inputs as [|[frame waitKey] rest]; [simpl in Hlt; lia|].
    rewrite run_loop_cons in Hlt |- *.
    destruct (Z.land waitKey 255 =? ord_q); simpl in Hlt |- *; [lia|].
    apply Nat.succ_lt_mono in Hlt.
    destruct (IH _ rest Hlt) as (s_t & Hobs & Hcount).
    exists s_t. split; [exact Hobs|].
    rewrite Hcount.
    destruct (Z.land waitKey 255 =? ord_c); simpl;
      rewrite (proj1 (loop_body_counts s frame)); lia.
Qed.

Lemma nth_error_skipn_cons {A : Type} (l : list A) (t : nat) (a : A) :
  nth_error l t = Some a -> skipn t l = a :: skipn (S t) l.
Proof.
  revert t; induction l as [|x l IH]; intros [|t] H; simpl in *; try discriminate.
  - injection H as ->. reflexivity.
  - apply IH. exact H.
Qed.

Lemma nth_error_after_skipn {A : Type} (l : list A) (t m : nat) :
  nth_error (skipn t l) m = nth_error l (t + m).
Proof.
  revert l; induction t as [|t IH]; intros [|x l]; simpl; auto.
  destruct m; reflexivity.
Qed.

(** The observation at position [t] is made by one iteration, started in
    the state reached after [t] frames. *)
Lemma run_loop_at (t : nat) (s : LoopState) (inputs : list (image * Z))
      (o : Observation) :
  nth_error (fst (loop s inputs)) t = Some o ->
  exists s_t frame waitKey rest,
    skipn t inputs = (frame, waitKey) :: rest
    /\ frame_count s_t = frame_count s + Z.of_nat t
    /\ o = snd (body s_t frame)
    /\ skipn t (fst (loop s inputs)) = fst (loop s_t ((frame, waitKey) :: rest)).
Proof.
  intros Hnth.
  assert (Hlt : (t < length (fst (loop s inputs)))%nat)
    by (apply nth_error_Some; rewrite Hnth; discriminate).
  destruct (run_loop_skipn t s inputs Hlt) as (s_t & Hobs & Hcount).
  pose proof (nth_error_skipn_cons _ _ _ Hnth) as Hcons.
  rewrite <- Hobs in Hcons.
  destruct (skipn t inputs) as [|[frame waitKey] rest] eqn:Hin;
    [simpl in Hcons; discriminate|].
  exists s_t, frame, waitKey, rest.
  repeat split; try assumption; [|symmetry; exact Hobs].
  rewrite run_loop_cons in Hcons.
  destruct (Z.land waitKey 255 =? ord_q); simpl in Hcons; congruence.
Qed.

Lemma run_loop_frame_numbers (s : LoopState) (inputs : list (image * Z))
      (k : nat) (o : Observation) :
  nth_error (fst (loop s inputs)) k = Some o ->
  obs_frame o = frame_count s + Z.of_nat k + 1
  /\ cycle_ran o
     = ((frame_count s + Z.of_nat k + 1) mod process_every_n_frames =? 0).
Proof.
  intros Hnth.
  destruct (run_loop_at k s inputs o Hnth)
    as (s_k & frame & waitKey & rest & _ & Hcount & -> & _).
  destruct (loop_body_counts s_k frame) as (_ & Hframe & Hran & _).
  rewrite Hframe, Hran, Hcount. auto.
Qed.

Lemma run_loop_cycle_count (inputs : list (image * Z)) :
  forall s,
    Z.of_nat (length (filter cycle_ran (fst (loop s inputs))))
    = (frame_count s + Z.of_nat (length (fst (loop s inputs))))
        / process_every_n_frames
      - frame_count s / process_every_n_frames.
Proof.
  unfold process_every_n_frames.
  induction inputs as [|[frame waitKey] rest IH]; intros s.
  - simpl. replace (frame_count s + 0) with (frame_count s) by lia. lia.
  - rewrite run_loop_cons.
    destruct (loop_body_counts s frame) as (Hcount & _ & Hran & _).
    unfold process_every_n_frames in Hran.
    assert (Hstep : (if (frame_count s + 1) mod 15 =? 0 then 1 else 0)
                    = (frame_count s + 1) / 15 - frame_count s / 15).
    { destruct ((frame_count s + 1) mod 15 =? 0) eqn:E;
        [apply Z.eqb_eq in E|apply Z.eqb_neq in E];
        Z.div_mod_to_equations; lia. }
    destruct (Z.land waitKey 255 =? ord_q).
    + cbn [fst filter length]. rewrite Hran.
      destruct ((frame_count s + 1) mod 15 =? 0); cbn [length];
        replace (frame_count s + Z.of_nat 1) with (frame_count s + 1) by lia; lia.
    + cbn zeta. cbn [fst filter]. rewrite Hran.
      set (s'' := if Z.land waitKey 255 =? ord_c
                  then toggle_metric (fst (body s frame)) else fst (body s frame)).
      assert (Hc'' : frame_count s'' = frame_count s + 1)
        by (unfold s''; destruct (Z.land waitKey 255 =? ord_c); simpl; exact Hcount).
      specialize (IH s''). rewrite Hc'' in IH.
      destruct ((frame_count s + 1) mod 15 =? 0); cbn [length];
        rewrite ?Nat2Z.inj_succ;
        replace (frame_count s + Z.succ (Z.of_nat (length (fst (loop s'' rest)))))
          with (frame_count s + 1 + Z.of_nat (length (fst (loop s'' rest))))
          by lia;
        lia.
Qed.

(** While no detection phase finds a face, the drawn set is the initial
    active set until the stale counter passes the limit, and empty after. *)
Lemma run_loop_aging (inputs : list (image * Z)) :
  forall s j o,
    nth_error (fst (loop s inputs)) j = Some o ->
    (forall i oi, (i <= j)%nat ->
                  nth_error (fst (loop s inputs)) i = Some oi ->
                  cycle_found oi = false) ->
    obs_drawn o
    = if PERSISTENCE_LIMIT <? frames_without_detection s + Z.of_nat j + 1
      then [] else active_faces s.
Proof.
  induction inputs as [|[frame waitKey] rest IH]; intros s j o Hnth Hquiet.
  - destruct j; discriminate.
  - rewrite run_loop_cons in Hnth, Hquiet.
    assert (Hhead : cycle_found (snd (body s frame)) = false).
    { apply (Hquiet 0%nat); [lia|].
      destruct (Z.land waitKey 255 =? ord_q); reflexivity. }
    destruct (loop_body_ages s frame Hhead) as (Hstale & Hactive & Hdrawn).
    destruct j as [|j].
    + assert (o = snd (body s frame))
        by (destruct (Z.land waitKey 255 =? ord_q); simpl in Hnth; congruence).
      subst o. rewrite Hdrawn, Hactive.
      replace (frames_without_detection s + Z.of_nat 0 + 1)
        with (frames_without_detection s + 1) by lia.
      reflexivity.
    + destruct (Z.land waitKey 255 =? ord_q); simpl in Hnth;
        [destruct j; discriminate|].
      set (s'' := if Z.land waitKey 255 =? ord_c
                  then toggle_metric (fst (body s frame)) else fst (body s frame))
        in *.
      assert (Hs'' : frames_without_detection s'' = frames_without_detection s + 1
                     /\ active_faces s'' = active_faces (fst (body s frame))).
      { unfold s''; destruct (Z.land waitKey 255 =? ord_c); simpl; auto. }
      destruct Hs'' as [Hst'' Hac''].
      rewrite (IH s'' j o Hnth).
      * rewrite Hst'', Hac'', Hactive. unfold PERSISTENCE_LIMIT.
        destruct (20 <? frames_without_detection s + 1) eqn:E1;
          destruct (20 <? frames_without_detection s + 1 + Z.of_nat j + 1) eqn:E2;
          destruct (20 <? frames_without_detection s + Z.of_nat (S j) + 1) eqn:E3;
          try reflexivity; exfalso;
          repeat match goal with
                 | H : (_ <? _) = true |- _ => apply Z.ltb_lt in H
                 | H : (_ <? _) = false |- _ => apply Z.ltb_ge in H
                 end; lia.
      * intros i oi Hi Hoi. apply (Hquiet (S i)); [lia|]. simpl. exact Hoi.
Qed.

Lemma skipn_head_In {A : Type} (l : list A) (t : nat) (a : A) (rest : list A) :
  skipn t l = a :: rest -> In a l.
Proof.
  intros H. rewrite <- (firstn_skipn t l), H.
  apply in_or_app. right. left. reflexivity.
Qed.

(** Frames on which the detection phase finds nothing never refresh. *)
Lemma run_loop_quiet (inputs : list (image * Z)) :
  (forall frame waitKey c,
      In (frame, waitKey) inputs ->
      detection_cycle cfg database cv2_resize detect_faces embedder_embeddings
                      (cvtColor_BGR2RGB frame) c = Ok []) ->
  forall s j oj,
    nth_error (fst (loop s inputs)) j = Some oj -> cycle_found oj = false.
Proof.
  intros Hquiet s j oj Hnth.
  destruct (run_loop_at j s inputs oj Hnth)
    as (s_j & frame & waitKey & rest & Hskip & _ & -> & _).
  pose proof (Hquiet frame waitKey (use_cosine s_j)
                     (skipn_head_In inputs j _ _ Hskip)) as Hcycle.
  unfold loop_body, cycle_found.
  destruct ((frame_count s_j + 1) mod process_every_n_frames =? 0);
    [rewrite Hcycle|]; reflexivity.
Qed.

End LoopProperties.

(** ** Statements about the loop *)

Section LoopSchedule.

Open Scope Z_scope.

Variable cfg : Config.
Variable database : Database.
Variable cv2_resize : image -> Z * Z -> result image.
Variable detect_faces : image -> result (list Detection).
Variable embedder_embeddings : image -> result Np.ndarray.

Local Abbreviation body :=
  (loop_body cfg database cv2_resize detect_faces embedder_embeddings).
Local Abbreviation loop :=
  (run_loop cfg database cv2_resize detect_faces embedder_embeddings).
Local Abbreviation cycle :=
  (detection_cycle cfg database cv2_resize detect_faces embedder_embeddings).

(** What an iteration records of its detection phase is the value of the
    [try] block on the converted frame, under the metric of the state. *)
Lemma loop_body_cycle (s : LoopState) (frame : image) :
  obs_cycle (snd (body s frame))
  = if (frame_count s + 1) mod process_every_n_frames =? 0
    then Some (cycle (cvtColor_BGR2RGB frame) (use_cosine s))
    else None.
Proof.
  unfold loop_body.
  destruct ((frame_count s + 1) mod process_every_n_frames =? 0); [|reflexivity].
  destruct (detection_cycle _ _ _ _ _ _ _) as [faces|e];
    [destruct (0 <? length faces)%nat|]; reflexivity.
Qed.

(** The observation at position [t] is made on the frame at position [t]
    of the inputs, in a state whose counter has advanced by [t] and whose
    metric has been toggled once for each [c] pressed before. *)
Lemma run_loop_observation (t : nat) :
  forall s inputs o,
    nth_error (fst (loop s inputs)) t = Some o ->
    exists s_t frame waitKey,
      nth_error inputs t = Some (frame, waitKey)
      /\ frame_count s_t = frame_count s + Z.of_nat t
      /\ use_cosine s_t
         = (if Nat.even (metric_toggles (firstn t inputs))
            then use_cosine s else negb (use_cosine s))
      /\ o = snd (body s_t frame).
Proof.
  induction t as [|t IH]; intros s inputs o Hnth.
  - destruct inputs as [|[frame waitKey] rest]; [discriminate|].
    rewrite run_loop_cons in Hnth.
    exists s, frame, waitKey. repeat split.
    + lia.
    + destruct (Z.land waitKey 255 =? ord_q); simpl in Hnth; congruence.
  - destruct inputs as [|[frame waitKey] rest]; [discriminate|].
    rewrite run_loop_cons in Hnth.
    cbn [firstn metric_toggles].
    destruct (Z.land waitKey 255 =? ord_q); simpl in Hnth;
      [destruct t; discriminate|].
    destruct (IH _ rest o Hnth) as (s_t & frame' & waitKey' & Hin & Hcount & Hmetric & Ho).
    exists s_t, frame', waitKey'.
    destruct (loop_body_counts cfg database cv2_resize detect_faces
                               embedder_embeddings s frame)
      as (Hc & _ & _ & Hu).
    split; [exact Hin|]. split; [|split; [|exact Ho]].
    + rewrite Hcount.
      destruct (Z.land waitKey 255 =? ord_c); simpl; rewrite Hc; lia.
    + rewrite Hmetric.
      destruct (Z.land waitKey 255 =? ord_c); cbn [toggle_metric use_cosine];
        rewrite Hu.
      * rewrite Nat.even_succ, <- Nat.negb_even.
        destruct (Nat.even (metric_toggles (firstn t rest)));
          destruct (use_cosine s); reflexivity.
      * reflexivity.
Qed.

End LoopSchedule.

Section LoopDependence.

Open Scope Z_scope.

Variable cfg : Config.
Variable database : Database.
Variables cv2_resize cv2_resize' : image -> Z * Z -> result image.
Variables detect_faces detect_faces' : image -> result (list Detection).
Variables embedder_embeddings embedder_embeddings' : image -> result Np.ndarray.

(** The loop consults its collaborators through the detection phase of the
    scheduled frames only: two sets of collaborators whose detection
    phases agree on those frames give the same run. *)
Lemma run_loop_depends_on_scheduled_cycles (inputs : list (image * Z)) :
  forall s,
    (forall k frame waitKey c,
        nth_error inputs k = Some (frame, waitKey) ->
        (frame_count s + Z.of_nat k + 1) mod process_every_n_frames = 0 ->
        detection_cycle cfg database cv2_resize detect_faces embedder_embeddings
                        (cvtColor_BGR2RGB frame) c
        = detection_cycle cfg database cv2_resize' detect_faces' embedder_embeddings'
                          (cvtColor_BGR2RGB frame) c) ->
    run_loop cfg database cv2_resize detect_faces embedder_embeddings s inputs
    = run_loop cfg database cv2_resize' detect_faces' embedder_embeddings' s inputs.
Proof.
  induction inputs as [|[frame waitKey] rest IH]; intros s Hagree; [reflexivity|].
  assert (Hbody : loop_body cfg database cv2_resize detect_faces
                            embedder_embeddings s frame
                  = loop_body cfg database cv2_resize' detect_faces'
                              embedder_embeddings' s frame).
  { unfold loop_body.
    destruct ((frame_count s + 1) mod process_every_n_frames =? 0) eqn:E;
      [|reflexivity].
    rewrite (Hagree 0%nat frame waitKey (use_cosine s) eq_refl); [reflexivity|].
    apply Z.eqb_eq in E. rewrite Z.add_0_r. exact E. }
  rewrite !run_loop_cons, Hbody.
  destruct (Z.land waitKey 255 =? ord_q); [reflexivity|].
  cbv zeta.
  rewrite IH; [reflexivity|].
  intros k frame' waitKey' c Hin Hmod.
  apply (Hagree (S k) frame' waitKey' c Hin).
  replace (frame_count s + Z.of_nat (S k) + 1)
    with (frame_count
            (if Z.land waitKey 255 =? ord_c
             then toggle_metric
                    (fst (loop_body cfg database cv2_resize' detect_faces'
                                    embedder_embeddings' s frame))
             else fst (loop_body cfg database cv2_resize' detect_faces'
                                 embedder_embeddings' s frame))
          + Z.of_nat k + 1); [exact Hmod|].
  destruct (loop_body_counts cfg database cv2_resize' detect_faces'
                             embedder_embeddings' s frame) as (Hc & _).
  destruct (Z.land waitKey 255 =? ord_c); simpl; rewrite Hc; lia.
Qed.

End LoopDependence.

(** C4.  Whatever the detector, the embedder and the matcher do, over the
    [F] frames the loop processes the detection phase is entered exactly
    [F / 15] times (integer division), namely on the frames whose counter,
    starting at 1, is a multiple of 15.  On such a frame the loop runs the
    pipeline of detection, cropping, embedding and matching
    ([detection_cycle]) on that very frame, converted to RGB, under the
    metric selected by the presses of [c] so far (the cosine distance at
    the start), and records what came out of it; on every other frame it
    runs nothing.  The collaborators are consulted on the scheduled frames
    only: two detectors, embedders and resizers whose pipelines agree on
    the frames at the multiples of 15 give the same run. *)
Theorem detection_every_nth_frame
        (cfg : Config) (db : Database)
        (cv2_resize : image -> Z * Z -> result image)
        (detect_faces : image -> result (list Detection))
        (embedder_embeddings : image -> result Np.ndarray)
        (inputs : list (image * Z)) :
  length (fst (run cfg db cv2_resize detect_faces embedder_embeddings inputs))
  = frames_processed inputs
  /\ Z.of_nat (length (filter cycle_ran
        (fst (run cfg db cv2_resize detect_faces embedder_embeddings inputs))))
     = (Z.of_nat (frames_processed inputs) / process_every_n_frames)%Z
  /\ (forall k o,
      nth_error (fst (run cfg db cv2_resize detect_faces embedder_embeddings inputs)) k
      = Some o ->
      obs_frame o = (Z.of_nat k + 1)%Z
      /\ (cycle_ran o = true
          <-> ((Z.of_nat k + 1) mod process_every_n_frames = 0)%Z)
      /\ exists frame waitKey,
          nth_error inputs k = Some (frame, waitKey)
          /\ obs_cycle o
             = if ((Z.of_nat k + 1) mod process_every_n_frames =? 0)%Z
               then Some (detection_cycle
                            cfg db cv2_resize detect_faces embedder_embeddings
                            (cvtColor_BGR2RGB frame)
                            (Nat.even (metric_toggles (firstn k inputs))))
               else None)
  /\ (forall (cv2_resize' : image -> Z * Z -> result image)
             (detect_faces' : image -> result (list Detection))
             (embedder_embeddings' : image -> result Np.ndarray),
         (forall k frame waitKey c,
             nth_error inputs k = Some (frame, waitKey) ->
             ((Z.of_nat k + 1) mod process_every_n_frames = 0)%Z ->
             detection_cycle cfg db cv2_resize detect_faces embedder_embeddings
                             (cvtColor_BGR2RGB frame) c
             = detection_cycle cfg db cv2_resize' detect_faces' embedder_embeddings'
                               (cvtColor_BGR2RGB frame) c) ->
         run cfg db cv2_resize detect_faces embedder_embeddings inputs
         = run cfg db cv2_resize' detect_faces' embedder_embeddings' inputs).
Proof.
  unfold run. split; [apply run_loop_length|]. split; [|split].
  - rewrite run_loop_cycle_count, run_loop_length. simpl frame_count.
    rewrite Z.add_0_l. change (0 / process_every_n_frames)%Z with 0%Z.
    apply Z.sub_0_r.
  - intros k o Hnth.
    destruct (run_loop_frame_numbers _ _ _ _ _ _ _ _ _ Hnth) as [Hframe Hran].
    simpl frame_count in Hframe, Hran. rewrite Z.add_0_l in Hframe, Hran.
    split; [exact Hframe|]. split; [rewrite Hran; apply Z.eqb_eq|].
    destruct (run_loop_observation _ _ _ _ _ _ _ _ _ Hnth)
      as (s_k & frame & waitKey & Hin & Hcount & Hmetric & ->).
    exists frame, waitKey. split; [exact Hin|].
    rewrite loop_body_cycle, Hcount, Hmetric.
    simpl frame_count. simpl use_cosine. rewrite Z.add_0_l.
    destruct (Nat.even (metric_toggles (firstn k inputs))); reflexivity.
  - intros cv2_resize' detect_faces' embedder_embeddings' Hagree.
    apply run_loop_depends_on_scheduled_cycles.
    intros k frame waitKey c Hin Hmod. apply (Hagree k frame waitKey c Hin).
    simpl frame_count in Hmod. rewrite Z.add_0_l in Hmod. exact Hmod.
Qed.

(** C1.  From any state of the loop: when the detection phase of the frame
    at position [t] ends with a list of results that is not empty, and no
    detection phase of the next [limit + 1] = 21 frames does, then the
    faces drawn on that frame and on each of the next 20 frames are exactly
    those results, and on the 21st frame after it nothing is drawn. *)
Theorem persistence_window
        (cfg : Config) (db : Database)
        (cv2_resize : image -> Z * Z -> result image)
        (detect_faces : image -> result (list Detection))
        (embedder_embeddings : image -> result Np.ndarray)
        (s : LoopState) (inputs : list (image * Z))
        (obs : list Observation) (final : LoopState)
        (t : nat) (o : Observation) (results : list FaceData) :
  run_loop cfg db cv2_resize detect_faces embedder_embeddings s inputs = (obs, final) ->
  nth_error obs t = Some o ->
  obs_cycle o = Some (Ok results) ->
  results <> [] ->
  (forall j oj,
      (t < j <= t + Z.to_nat PERSISTENCE_LIMIT + 1)%nat ->
      nth_error obs j = Some oj -> cycle_found oj = false) ->
  (forall j oj,
      (t <= j <= t + Z.to_nat PERSISTENCE_LIMIT)%nat ->
      nth_error obs j = Some oj ->
      obs_frame oj = (obs_frame o + Z.of_nat (j - t))%Z /\ obs_drawn oj = results)
  /\ (forall oj,
         nth_error obs (t + Z.to_nat PERSISTENCE_LIMIT + 1) = Some oj ->
         obs_frame oj = (obs_frame o + PERSISTENCE_LIMIT + 1)%Z /\ obs_drawn oj = []).
Proof.
  intros Hrun Hnth Hcycle Hne Hquiet.
  change (Z.to_nat PERSISTENCE_LIMIT) with 20%nat in *.
  assert (Hobs : obs = fst (run_loop cfg db cv2_resize detect_faces
                                     embedder_embeddings s inputs))
    by (rewrite Hrun; reflexivity).
  clear Hrun. subst obs.
  assert (Hframes : forall j oj,
             (t <= j)%nat ->
             nth_error (fst (run_loop cfg db cv2_resize detect_faces
                                      embedder_embeddings s inputs)) j = Some oj ->
             obs_frame oj = (obs_frame o + Z.of_nat (j - t))%Z).
  { intros j oj Hj Hoj.
    rewrite (proj1 (run_loop_frame_numbers _ _ _ _ _ _ _ _ _ Hoj)),
            (proj1 (run_loop_frame_numbers _ _ _ _ _ _ _ _ _ Hnth)). lia. }
  destruct (run_loop_at _ _ _ _ _ t s inputs o Hnth)
    as (s_t & frame & waitKey & rest & _ & _ & Ho & Hskip).
  rewrite Ho in Hcycle.
  destruct (loop_body_refreshes _ _ _ _ _ s_t frame results Hcycle Hne)
    as (Hstale & Hactive & Hdrawn).
  rewrite run_loop_cons in Hskip.
  assert (Hlater : forall m oj,
             (m <= 20)%nat ->
             nth_error (fst (run_loop cfg db cv2_resize detect_faces
                                      embedder_embeddings s inputs))
                       (t + S m) = Some oj ->
             obs_drawn oj
             = if (PERSISTENCE_LIMIT <? Z.of_nat m + 1)%Z then [] else results).
  { intros m oj Hm Hoj.
    rewrite <- nth_error_after_skipn, Hskip in Hoj.
    destruct (Z.land waitKey 255 =? ord_q)%Z; simpl in Hoj;
      [destruct m; discriminate|].
    rewrite (run_loop_aging _ _ _ _ _ rest _ m oj Hoj).
    - destruct (Z.land waitKey 255 =? ord_c)%Z; simpl;
        rewrite Hstale, Hactive; reflexivity.
    - intros i oi Hi Hoi. apply (Hquiet (t + S i)%nat); [lia|].
      rewrite <- nth_error_after_skipn, Hskip. simpl. exact Hoi. }
  split.
  - intros j oj Hj Hoj. split; [apply Hframes; [lia|exact Hoj]|].
    destruct (Nat.eq_dec j t) as [->|Hjt].
    + rewrite Hnth in Hoj. injection Hoj as <-. rewrite Ho. exact Hdrawn.
    + replace j with (t + S (j - t - 1))%nat in Hoj by lia.
      rewrite (Hlater (j - t - 1)%nat oj ltac:(lia) Hoj).
      destruct (Z.ltb_spec PERSISTENCE_LIMIT (Z.of_nat (j - t - 1) + 1));
        [|reflexivity].
      unfold PERSISTENCE_LIMIT in *. lia.
  - intros oj Hoj. split.
    + rewrite (Hframes (t + 20 + 1)%nat oj ltac:(lia) Hoj).
      unfold PERSISTENCE_LIMIT. lia.
    + replace (t + 20 + 1)%nat with (t + S 20)%nat in Hoj by lia.
      rewrite (Hlater 20%nat oj ltac:(lia) Hoj).
      destruct (Z.ltb_spec PERSISTENCE_LIMIT (Z.of_nat 20 + 1));
        [reflexivity|].
      unfold PERSISTENCE_LIMIT in *. lia.
Qed.

(** ** The sample collaborators at work *)

Lemma sample_detection_recognized (frame : image) (c : bool) :
  (size (live_crop frame det_b) =? 0)%Z = false ->
  get_face_embedding config resize_nearest sample_embed (live_crop frame det_b)
  = Ok (map (fun v => (v / Np.linalg_norm [1; 0])%R) [1; 0]%R) ->
  exists entry,
    process_detection config store_two resize_nearest sample_embed frame c det_b
    = Ok (Some entry).
Proof.
  intros Hsize Hemb. unfold process_detection.
  destruct (Rlt_dec (confidence det_b) (CONFIDENCE_THRESHOLD config)) as [Hlt|_];
    [simpl in Hlt; lra|].
  rewrite Hsize, Hemb. unfold bind at 1.
  destruct (recognize_face_first_min
              config store_two
              (map (fun v => (v / Np.linalg_norm [1; 0])%R) [1; 0]%R) c)
    as (i & d & label & _ & _ & _ & Hrec).
  - discriminate.
  - split; repeat constructor.
  - rewrite Hrec. unfold bind. eexists. reflexivity.
Qed.

Lemma sample_cycle_face (c : bool) :
  exists entry,
    detection_cycle config store_two resize_nearest sample_detect sample_embed
                    (cvtColor_BGR2RGB face_frame) c
    = Ok [entry].
Proof.
  destruct (sample_detection_recognized (cvtColor_BGR2RGB face_frame) c)
    as [entry Hentry]; [reflexivity|reflexivity|].
  exists entry. unfold detection_cycle.
  change (sample_detect (cvtColor_BGR2RGB face_frame)) with (Ok [det_b]).
  unfold bind at 1. cbn [detections_loop]. rewrite Hentry. reflexivity.
Qed.

Lemma sample_cycle_empty (c : bool) :
  detection_cycle config store_two resize_nearest sample_detect sample_embed
                  (cvtColor_BGR2RGB empty_frame) c
  = Ok [].
Proof. reflexivity. Qed.

Lemma sample_failure_upper_half (c : bool) :
  process_detection config store_two resize_nearest sample_embed
                    (cvtColor_BGR2RGB two_face_frame) c det_a
  = Raise ExternalError.
Proof.
  unfold process_detection.
  destruct (Rlt_dec (confidence det_a) (CONFIDENCE_THRESHOLD config)) as [Hlt|_];
    [simpl in Hlt; lra|].
  reflexivity.
Qed.

Lemma persistence_window_witness :
  exists results,
    results <> []
    /\ length (fst (run_loop config store_two resize_nearest sample_detect
                             sample_embed state_before_cycle window_inputs))
       = 22%nat
    /\ (forall j oj,
           (j <= 20)%nat ->
           nth_error (fst (run_loop config store_two resize_nearest sample_detect
                                    sample_embed state_before_cycle window_inputs)) j
           = Some oj ->
           obs_drawn oj = results)
    /\ (forall oj,
           nth_error (fst (run_loop config store_two resize_nearest sample_detect
                                    sample_embed state_before_cycle window_inputs)) 21
           = Some oj ->
           obs_drawn oj = []).
Proof.
  destruct (sample_cycle_face true) as [entry Hentry].
  exists [entry]. split; [discriminate|].
  split; [rewrite run_loop_length; reflexivity|].
  set (o := snd (loop_body config store_two resize_nearest sample_detect
                           sample_embed state_before_cycle face_frame)).
  assert (Hcons : fst (run_loop config store_two resize_nearest sample_detect
                                sample_embed state_before_cycle window_inputs)
                  = o :: fst (run_loop config store_two resize_nearest sample_detect
                                       sample_embed
                                       (fst (loop_body config store_two resize_nearest
                                                       sample_detect sample_embed
                                                       state_before_cycle face_frame))
                                       (repeat (empty_frame, 0%Z) 21))).
  { unfold window_inputs. rewrite run_loop_cons. reflexivity. }
  assert (Ho : obs_cycle o = Some (Ok [entry])).
  { unfold o, loop_body.
    change ((frame_count state_before_cycle + 1) mod process_every_n_frames =? 0)%Z
      with true.
    cbv iota. change (use_cosine state_before_cycle) with true.
    rewrite Hentry. reflexivity. }
  destruct (persistence_window
              config store_two resize_nearest sample_detect sample_embed
              state_before_cycle window_inputs
              (fst (run_loop config store_two resize_nearest sample_detect
                             sample_embed state_before_cycle window_inputs))
              (snd (run_loop config store_two resize_nearest sample_detect
                             sample_embed state_before_cycle window_inputs))
              0%nat o [entry]) as [Hheld Hcleared].
  - apply surjective_pairing.
  - rewrite Hcons. reflexivity.
  - exact Ho.
  - discriminate.
  - intros j oj Hj Hoj. rewrite Hcons in Hoj.
    destruct j as [|j]; [lia|]. cbn [nth_error] in Hoj.
    apply (run_loop_quiet config store_two resize_nearest sample_detect sample_embed
                          (repeat (empty_frame, 0%Z) 21)) in Hoj; [exact Hoj|].
    intros frame waitKey c Hin. apply repeat_spec in Hin.
    injection Hin as -> _. apply sample_cycle_empty.
  - split.
    + intros j oj Hj Hoj. apply (Hheld j oj); [simpl; lia|exact Hoj].
    + intros oj Hoj. apply (Hcleared oj). exact Hoj.
Defined.

(** ** Failures inside a detection cycle *)

Section CycleFailures.

Variable cfg : Config.
Variable database : Database.
Variable cv2_resize : image -> Z * Z -> result image.
Variable detect_faces : image -> result (list Detection).
Variable embedder_embeddings : image -> result Np.ndarray.

Local Abbreviation process :=
  (process_detection cfg database cv2_resize embedder_embeddings).
Local Abbreviation scan :=
  (detections_loop cfg database cv2_resize embedder_embeddings).

(** The first detection whose processing raises ends the scan, whatever was
    collected before it and whatever follows it. *)
Lemma detections_loop_raise (rgb_frame : image) (c : bool)
      (pre : list Detection) (d : Detection) (post : list Detection) (e : exn) :
  Forall (fun x => exists r, process rgb_frame c x = Ok r) pre ->
  process rgb_frame c d = Raise e ->
  forall acc, scan rgb_frame c (pre ++ d :: post) acc = Raise e.
Proof.
  intros Hpre Hd. induction Hpre as [|x pre [r Hx] _ IH]; intros acc; simpl.
  - rewrite Hd. reflexivity.
  - rewrite Hx. simpl. destruct r; apply IH.
Qed.

(** A skipped detection leaves the scan of the others as it is. *)
Lemma detections_loop_skip (rgb_frame : image) (c : bool)
      (d : Detection) (rest : list Detection) (acc : list FaceData) :
  process rgb_frame c d = Ok None ->
  scan rgb_frame c (d :: rest) acc = scan rgb_frame c rest acc.
Proof.
  intros Hd. simpl. rewrite Hd. reflexivity.
Qed.

(** An iteration whose detection phase raises only ages the active faces. *)
Lemma loop_body_cycle_raised (s : LoopState) (frame : image) (e : exn) :
  ((frame_count s + 1) mod process_every_n_frames = 0)%Z ->
  detection_cycle cfg database cv2_resize detect_faces embedder_embeddings
                  (cvtColor_BGR2RGB frame) (use_cosine s) = Raise e ->
  obs_cycle (snd (loop_body cfg database cv2_resize detect_faces
                            embedder_embeddings s frame)) = Some (Raise e)
  /\ cycle_found (snd (loop_body cfg database cv2_resize detect_faces
                                 embedder_embeddings s frame)) = false.
Proof.
  intros Hmod Hcycle. apply Z.eqb_eq in Hmod.
  unfold loop_body, cycle_found. rewrite Hmod, Hcycle. simpl. auto.
Qed.

End CycleFailures.

(** C3, as the code has it.  On a detection frame, when the processing of
    one detection raises, the detections before it having been processed
    without an exception, the cycle ends there with that exception: no
    result of the cycle is kept, the detections after it are not looked
    at, the active faces are only aged and the loop carries on with the
    state so obtained.  A detection that is skipped, for a confidence below
    the floor or an empty crop, leaves the processing of the others as it
    is. *)
Theorem failure_ends_cycle
        (cfg : Config) (db : Database)
        (cv2_resize : image -> Z * Z -> result image)
        (detect_faces : image -> result (list Detection))
        (embedder_embeddings : image -> result Np.ndarray)
        (s : LoopState) (frame : image)
        (pre : list Detection) (d : Detection) (post : list Detection) (e : exn) :
  ((frame_count s + 1) mod process_every_n_frames = 0)%Z ->
  detect_faces (cvtColor_BGR2RGB frame) = Ok (pre ++ d :: post) ->
  Forall (fun x => exists r,
              process_detection cfg db cv2_resize embedder_embeddings
                                (cvtColor_BGR2RGB frame) (use_cosine s) x = Ok r) pre ->
  process_detection cfg db cv2_resize embedder_embeddings
                    (cvtColor_BGR2RGB frame) (use_cosine s) d = Raise e ->
  obs_cycle (snd (loop_body cfg db cv2_resize detect_faces embedder_embeddings s frame))
  = Some (Raise e)
  /\ frames_without_detection
       (fst (loop_body cfg db cv2_resize detect_faces embedder_embeddings s frame))
     = (frames_without_detection s + 1)%Z
  /\ active_faces
       (fst (loop_body cfg db cv2_resize detect_faces embedder_embeddings s frame))
     = (if (PERSISTENCE_LIMIT <? frames_without_detection s + 1)%Z
        then [] else active_faces s)
  /\ (forall skipped rest acc,
         process_detection cfg db cv2_resize embedder_embeddings
                           (cvtColor_BGR2RGB frame) (use_cosine s) skipped = Ok None ->
         detections_loop cfg db cv2_resize embedder_embeddings
                         (cvtColor_BGR2RGB frame) (use_cosine s) (skipped :: rest) acc
         = detections_loop cfg db cv2_resize embedder_embeddings
                           (cvtColor_BGR2RGB frame) (use_cosine s) rest acc).
Proof.
  intros Hmod Hdet Hpre Hd.
  assert (Hcycle : detection_cycle cfg db cv2_resize detect_faces embedder_embeddings
                                   (cvtColor_BGR2RGB frame) (use_cosine s) = Raise e).
  { unfold detection_cycle. rewrite Hdet. unfold bind at 1.
    apply detections_loop_raise; assumption. }
  destruct (loop_body_cycle_raised cfg db cv2_resize detect_faces embedder_embeddings
                                   s frame e Hmod Hcycle) as [Hobs Hfound].
  destruct (loop_body_ages cfg db cv2_resize detect_faces embedder_embeddings
                           s frame Hfound) as (Hstale & Hactive & _).
  repeat split; try assumption.
  intros skipped rest acc Hskip. apply detections_loop_skip. exact Hskip.
Qed.

Lemma failure_ends_cycle_witness :
  obs_cycle (snd (loop_body config store_two resize_nearest sample_detect sample_embed
                            state_before_cycle two_face_frame))
  = Some (Raise ExternalError)
  /\ active_faces (fst (loop_body config store_two resize_nearest sample_detect
                                  sample_embed state_before_cycle two_face_frame))
     = [].
Proof.
  destruct (failure_ends_cycle
              config store_two resize_nearest sample_detect sample_embed
              state_before_cycle two_face_frame [] det_a [det_b] ExternalError)
    as (Hobs & _ & Hactive & _).
  - reflexivity.
  - reflexivity.
  - constructor.
  - apply sample_failure_upper_half.
  - split; [exact Hobs|exact Hactive].
Defined.

(** C3 as stated fails.  The detector reports [det_a] and [det_b]; alone,
    [det_b] is cropped, embedded and matched into an entry; but the
    embedder raises on the face of [det_a], and the cycle ends with that
    exception: [det_b] is never processed and no entry comes out. *)
Lemma one_failure_aborts_the_others :
  sample_detect (cvtColor_BGR2RGB two_face_frame) = Ok [det_a; det_b]
  /\ process_detection config store_two resize_nearest sample_embed
                       (cvtColor_BGR2RGB two_face_frame) true det_a
     = Raise ExternalError
  /\ (exists entry,
         process_detection config store_two resize_nearest sample_embed
                           (cvtColor_BGR2RGB two_face_frame) true det_b
         = Ok (Some entry))
  /\ detection_cycle config store_two resize_nearest sample_detect sample_embed
                     (cvtColor_BGR2RGB two_face_frame) true
     = Raise ExternalError.
Proof.
  split; [reflexivity|].
  split; [apply sample_failure_upper_half|].
  split; [apply sample_detection_recognized; reflexivity|].
  unfold detection_cycle.
  change (sample_detect (cvtColor_BGR2RGB two_face_frame)) with (Ok [det_a; det_b]).
  unfold bind at 1.
  apply (detections_loop_raise config store_two resize_nearest sample_embed
                               (cvtColor_BGR2RGB two_face_frame) true
                               [] det_a [det_b] ExternalError).
  - constructor.
  - apply sample_failure_upper_half.
Qed.

(** * More about the matcher *)

Section MatcherAnatomy.

Open Scope R_scope.

Variable cfg : Config.
Variable database : Database.

Lemma inner_comm (a b : Np.ndarray) : Np.inner a b = Np.inner b a.
Proof.
  revert b; induction a as [|x a IH]; intros [|y b]; simpl; try reflexivity.
  rewrite (IH b). ring.
Qed.

Lemma Forall2_nth_error_right {A B : Type} (P : A -> B -> Prop)
      (l : list A) (l' : list B) (i : nat) (b : B) :
  Forall2 P l l' -> nth_error l' i = Some b ->
  exists a, nth_error l i = Some a /\ P a b.
Proof.
  intros H; revert i; induction H as [|x y l l' Hxy _ IH]; intros [|i] Hi;
    simpl in *; try discriminate.
  - injection Hi as <-. exists x. auto.
  - apply IH. exact Hi.
Qed.

Lemma Forall2_nth_error_left {A B : Type} (P : A -> B -> Prop)
      (l : list A) (l' : list B) (i : nat) (a : A) :
  Forall2 P l l' -> nth_error l i = Some a ->
  exists b, nth_error l' i = Some b /\ P a b.
Proof.
  intros H; revert i; induction H as [|x y l l' Hxy _ IH]; intros [|i] Hi;
    simpl in *; try discriminate.
  - injection Hi as <-. exists y. auto.
  - apply IH. exact Hi.
Qed.

Lemma distances_of_ok_inv (q : Np.ndarray) (c : bool) (embs : list Np.ndarray)
      (ds : list R) :
  distances_of q c embs = Ok ds ->
  Forall2 (fun e d => distance c q e = Ok d) embs ds.
Proof.
  revert ds; induction embs as [|e embs IH]; intros ds H; simpl in H.
  - injection H as <-. constructor.
  - destruct (distance c q e) as [d|x] eqn:Hd; simpl in H; [|discriminate].
    destruct (distances_of q c embs) as [ds'|x]; simpl in H; [|discriminate].
    injection H as <-. constructor; [exact Hd|apply IH; reflexivity].
Qed.

Lemma distances_of_raise_inv (q : Np.ndarray) (c : bool) (embs : list Np.ndarray)
      (x : exn) :
  distances_of q c embs = Raise x ->
  Exists (fun e => distance c q e = Raise x) embs.
Proof.
  induction embs as [|e embs IH]; intros H; simpl in H; [discriminate|].
  destruct (distance c q e) as [d|y] eqn:Hd; simpl in H.
  - right. apply IH.
    destruct (distances_of q c embs) as [ds'|z]; simpl in H; congruence.
  - left. congruence.
Qed.

Lemma distances_of_raise_intro (q : Np.ndarray) (c : bool) (embs : list Np.ndarray) :
  Exists (fun e => exists x, distance c q e = Raise x) embs ->
  exists x, distances_of q c embs = Raise x.
Proof.
  induction 1 as [e embs [x Hx]|e embs _ [x IH]]; simpl.
  - rewrite Hx. exists x. reflexivity.
  - destruct (distance c q e) as [d|y]; simpl; [|exists y; reflexivity].
    rewrite IH. exists x. reflexivity.
Qed.

(** Every way [recognize_face] can end, read off its steps. *)
Lemma recognize_face_anatomy (q : Np.ndarray) (c : bool) :
  match distances_of q c (embeddings database) with
  | Raise x => recognize_face cfg database q c = Raise x
  | Ok [] => recognize_face cfg database q c = Raise ValueError
  | Ok (d0 :: ds) =>
      exists i d,
        Np.argmin (d0 :: ds) = Ok i
        /\ first_min (d0 :: ds) i d
        /\ recognize_face cfg database q c
           = if Rlt_dec d (DISTANCE_THRESHOLD cfg) then
               match nth_error (labels database) i with
               | Some label => Ok (Some label, d)
               | None => Raise IndexError
               end
             else Ok (None, d)
  end.
Proof.
  unfold recognize_face.
  destruct (distances_of q c (embeddings database)) as [[|d0 ds]|x]; try reflexivity.
  destruct (argmin_first_min d0 ds) as (i & d & Harg & Hmin).
  exists i, d. repeat split; try assumption; try (apply Hmin).
  unfold bind at 1. rewrite Harg. unfold bind at 1.
  unfold getitem at 1. rewrite (proj1 Hmin). unfold bind at 1.
  destruct (Rlt_dec d (DISTANCE_THRESHOLD cfg)); [|reflexivity].
  unfold getitem. destruct (nth_error (labels database) i); reflexivity.
Qed.

Lemma recognize_face_ok_inv (q : Np.ndarray) (c : bool) (name : option string) (d : R) :
  recognize_face cfg database q c = Ok (name, d) ->
  exists ds i,
    Forall2 (fun e dist => distance c q e = Ok dist) (embeddings database) ds
    /\ first_min ds i d
    /\ (d < DISTANCE_THRESHOLD cfg -> name = nth_error (labels database) i /\ name <> None)
    /\ (~ d < DISTANCE_THRESHOLD cfg -> name = None).
Proof.
  intros Hrec. pose proof (recognize_face_anatomy q c) as Han.
  destruct (distances_of q c (embeddings database)) as [[|d0 ds]|x] eqn:Hds;
    try (rewrite Han in Hrec; discriminate).
  destruct Han as (i & d' & _ & Hmin & Hval). rewrite Hval in Hrec.
  exists (d0 :: ds), i.
  destruct (Rlt_dec d' (DISTANCE_THRESHOLD cfg)) as [Hlt|Hge].
  - destruct (nth_error (labels database) i) as [label|] eqn:Hlab; [|discriminate].
    injection Hrec as <- <-.
    repeat split; try (apply distances_of_ok_inv; exact Hds); try (apply Hmin);
      try congruence; try contradiction.
  - injection Hrec as <- <-.
    repeat split; try (apply distances_of_ok_inv; exact Hds); try (apply Hmin);
      try congruence; try contradiction.
Qed.

End MatcherAnatomy.

Open Scope R_scope.

Lemma distance_shapes (c : bool) (a b : Np.ndarray) :
  if shapes_agree c a b
  then exists d, distance c a b = Ok d
  else distance c a b = Raise ValueError.
Proof.
  unfold shapes_agree, distance, cosine_distance, euclidean_distance,
    Np.dot, Np.subtract.
  destruct c.
  - destruct (Nat.eqb (length a) (length b)); simpl; eauto.
  - destruct (Nat.eqb (length a) (length b)); simpl; eauto.
    destruct (Nat.eqb (length b) 1); simpl; eauto.
    destruct (Nat.eqb (length a) 1); simpl; eauto.
Qed.

Lemma sample_recognize_ana :
  recognize_face config store_two [1; 0] true = Ok (Some "Ana"%string, 0).
Proof.
  unfold recognize_face, store_two; cbn [embeddings labels distances_of].
  unfold distance, cosine_distance, Np.dot; cbn [length Nat.eqb Np.inner bind].
  unfold Np.argmin, Np.argmin_scan.
  destruct (Rlt_dec (1 - (1 * 0 + (0 * 1 + 0))) (1 - (1 * 1 + (0 * 0 + 0))))
    as [H|_]; [lra|].
  cbn [bind getitem nth_error].
  destruct (Rlt_dec (1 - (1 * 1 + (0 * 0 + 0))) (DISTANCE_THRESHOLD config))
    as [_|H]; [|simpl in H; lra].
  cbn [bind labels nth_error]. do 2 f_equal. ring.
Qed.

(** X1.  Whatever [recognize_face] returns is backed by the store: the
    distance is the distance to a stored vector, no stored vector whose
    distance can be computed is nearer, a returned label is the one stored
    at that vector's position, and the identity is [None] exactly when the
    distance is not below the threshold. *)
Theorem recognize_face_result_sound
        (cfg : Config) (db : Database) (q : Np.ndarray) (c : bool)
        (name : option string) (d : R) :
  recognize_face cfg db q c = Ok (name, d) ->
  (exists i e,
      nth_error (embeddings db) i = Some e
      /\ distance c q e = Ok d
      /\ forall label, name = Some label -> nth_error (labels db) i = Some label)
  /\ (forall e d', In e (embeddings db) -> distance c q e = Ok d' -> d <= d')
  /\ (name = None <-> ~ d < DISTANCE_THRESHOLD cfg).
Proof.
  intros Hrec.
  destruct (recognize_face_ok_inv cfg db q c name d Hrec)
    as (ds & i & Hall & (Hnth & Hleast & _) & Hlt & Hge).
  split; [|split].
  - destruct (Forall2_nth_error_right _ _ _ i d Hall Hnth) as (e & He & Hd).
    exists i, e. repeat split; try assumption.
    intros label Hname.
    destruct (Rlt_dec d (DISTANCE_THRESHOLD cfg)) as [H|H].
    + destruct (Hlt H) as [Heq _]. congruence.
    + rewrite (Hge H) in Hname. discriminate.
  - intros e d' Hin Hd'.
    destruct (In_nth_error _ _ Hin) as [j Hj].
    destruct (Forall2_nth_error_left _ _ _ j e Hall Hj) as (dj & Hdj & Hdist).
    rewrite Hd' in Hdist. injection Hdist as ->. exact (Hleast j dj Hdj).
  - split.
    + intros Hnone Hlt'. destruct (Hlt Hlt') as [_ Hsome]. contradiction.
    + exact Hge.
Qed.

Lemma recognize_face_result_sound_witness :
  (exists i e,
      nth_error (embeddings store_two) i = Some e
      /\ distance true [1; 0] e = Ok 0
      /\ forall label, Some "Ana"%string = Some label ->
                       nth_error (labels store_two) i = Some label)
  /\ (forall e d', In e (embeddings store_two) ->
                   distance true [1; 0] e = Ok d' -> 0 <= d')
  /\ (Some "Ana"%string = None <-> ~ 0 < DISTANCE_THRESHOLD config).
Proof.
  apply (recognize_face_result_sound config store_two [1; 0] true).
  exact sample_recognize_ana.
Defined.

(** X2.  Raising the threshold keeps every recognition and its distance;
    lowering it keeps every rejection and its distance. *)
Theorem recognize_face_threshold_monotone
        (cfg1 cfg2 : Config) (db : Database) (q : Np.ndarray) (c : bool)
        (d : R) :
  DISTANCE_THRESHOLD cfg1 <= DISTANCE_THRESHOLD cfg2 ->
  (forall label,
      recognize_face cfg1 db q c = Ok (Some label, d) ->
      recognize_face cfg2 db q c = Ok (Some label, d))
  /\ (recognize_face cfg2 db q c = Ok (None, d) ->
      recognize_face cfg1 db q c = Ok (None, d)).
Proof.
  intros Hthr.
  pose proof (recognize_face_anatomy cfg1 db q c) as H1.
  pose proof (recognize_face_anatomy cfg2 db q c) as H2.
  destruct (distances_of q c (embeddings db)) as [[|d0 ds]|x].
  - rewrite H1, H2. split; intros; discriminate.
  - destruct H1 as (i1 & d1 & Ha1 & (Hn1 & _) & Hv1).
    destruct H2 as (i2 & d2 & Ha2 & (Hn2 & _) & Hv2).
    rewrite Ha1 in Ha2. injection Ha2 as <-.
    assert (d2 = d1) by congruence.
    subst d2. rewrite Hv1, Hv2. split.
    + intros label Hr.
      destruct (Rlt_dec d1 (DISTANCE_THRESHOLD cfg1)) as [Hl|Hl]; [|discriminate].
      destruct (Rlt_dec d1 (DISTANCE_THRESHOLD cfg2)) as [_|Hl2]; [exact Hr|lra].
    + intros Hr.
      destruct (Rlt_dec d1 (DISTANCE_THRESHOLD cfg2)) as [Hl|Hl].
      * destruct (nth_error (labels db) i1); discriminate.
      * destruct (Rlt_dec d1 (DISTANCE_THRESHOLD cfg1)) as [Hl1|_]; [lra|exact Hr].
  - rewrite H1, H2. split; intros; discriminate.
Qed.

Lemma recognize_face_threshold_monotone_witness :
  recognize_face config_permissive store_two [1; 0] true = Ok (Some "Ana"%string, 0).
Proof.
  apply (proj1 (recognize_face_threshold_monotone
                  config config_permissive store_two [1; 0] true 0
                  ltac:(simpl; lra))).
  exact sample_recognize_ana.
Defined.

Lemma distances_of_ok_intro (q : Np.ndarray) (c : bool) (embs : list Np.ndarray)
      (ds : list R) :
  Forall2 (fun e d => distance c q e = Ok d) embs ds ->
  distances_of q c embs = Ok ds.
Proof.
  induction 1 as [|e d embs ds He _ IH]; simpl; [reflexivity|].
  rewrite He. simpl. rewrite IH. reflexivity.
Qed.

Lemma first_min_unique (ds : list R) (i j : nat) (d d' : R) :
  first_min ds i d -> first_min ds j d' -> i = j /\ d = d'.
Proof.
  intros (Hi & Hle & Hlt) (Hj & Hle' & Hlt').
  pose proof (Hle j d' Hj). pose proof (Hle' i d Hi).
  assert (d = d') by lra. subst d'. split; [|reflexivity].
  destruct (Nat.lt_trichotomy i j) as [H1|[H1|H1]]; [|exact H1|].
  - pose proof (Hlt' i d H1 Hi). lra.
  - pose proof (Hlt j d H1 Hj). lra.
Qed.

(** X3.  [recognize_face] raises nothing but [ValueError] and [IndexError].
    It raises [ValueError] exactly when the store is empty or holds a vector
    whose shape does not agree with the query, and [IndexError] exactly when
    all distances can be computed, the nearest one is below the threshold
    and there is no label at its position. *)
Theorem recognize_face_failures
        (cfg : Config) (db : Database) (q : Np.ndarray) (c : bool) :
  (forall x, recognize_face cfg db q c = Raise x -> x = ValueError \/ x = IndexError)
  /\ (recognize_face cfg db q c = Raise ValueError
      <-> embeddings db = []
          \/ Exists (fun e => shapes_agree c q e = false) (embeddings db))
  /\ (recognize_face cfg db q c = Raise IndexError
      <-> exists ds i d,
          Forall2 (fun e dist => distance c q e = Ok dist) (embeddings db) ds
          /\ first_min ds i d
          /\ d < DISTANCE_THRESHOLD cfg
          /\ nth_error (labels db) i = None).
Proof.
  pose proof (recognize_face_anatomy cfg db q c) as Han.
  assert (Hshape : forall e x, distance c q e = Raise x ->
                               x = ValueError /\ shapes_agree c q e = false).
  { intros e x Hx. pose proof (distance_shapes c q e) as Hs.
    destruct (shapes_agree c q e); [destruct Hs as [d Hd]; congruence|].
    split; congruence. }
  assert (Hbad : Exists (fun e => shapes_agree c q e = false) (embeddings db) ->
                 exists x, distances_of q c (embeddings db) = Raise x).
  { intros Hex. apply distances_of_raise_intro.
    apply Exists_exists in Hex. destruct Hex as (e & Hin & Hs).
    apply Exists_exists. exists e. split; [exact Hin|].
    pose proof (distance_shapes c q e) as Hd. rewrite Hs in Hd. eauto. }
  destruct (distances_of q c (embeddings db)) as [[|d0 ds]|x] eqn:Hds.
  - assert (Hnil : embeddings db = []).
    { apply distances_of_ok_inv in Hds. inversion Hds. reflexivity. }
    rewrite Han. split; [|split].
    + intros x Hx. left. congruence.
    + split; auto.
    + split; [discriminate|].
      intros (ds & i & d & Hall & (Hnth & _) & _).
      rewrite Hnil in Hall. inversion Hall; subst. destruct i; discriminate.
  - destruct Han as (i & d & _ & Hmin & Hval). rewrite Hval.
    split; [|split].
    + intros x Hx. right.
      destruct (Rlt_dec d (DISTANCE_THRESHOLD cfg)); [|discriminate].
      destruct (nth_error (labels db) i); congruence.
    + split.
      * intros Hx.
        destruct (Rlt_dec d (DISTANCE_THRESHOLD cfg)); [|discriminate].
        destruct (nth_error (labels db) i); discriminate.
      * intros [Hnil|Hex].
        -- rewrite Hnil in Hds. discriminate.
        -- destruct (Hbad Hex) as [x Hx]. discriminate.
    + split.
      * intros Hx. exists (d0 :: ds), i, d.
        destruct (Rlt_dec d (DISTANCE_THRESHOLD cfg)) as [Hlt|]; [|discriminate].
        destruct (nth_error (labels db) i) eqn:Hlab; [discriminate|].
        repeat split; try assumption; try (apply Hmin).
        apply distances_of_ok_inv. exact Hds.
      * intros (ds' & i' & d' & Hall & Hmin' & Hlt & Hlab).
        apply distances_of_ok_intro in Hall. rewrite Hds in Hall.
        injection Hall as <-.
        destruct (first_min_unique _ _ _ _ _ Hmin Hmin') as [<- <-].
        destruct (Rlt_dec d (DISTANCE_THRESHOLD cfg)); [|contradiction].
        rewrite Hlab. reflexivity.
  - apply distances_of_raise_inv in Hds.
    apply Exists_exists in Hds. destruct Hds as (e & Hin & Hx).
    destruct (Hshape e x Hx) as [-> Hs].
    rewrite Han. split; [|split].
    + intros y Hy. left. congruence.
    + split; [|reflexivity]. intros _. right.
      apply Exists_exists. exists e. auto.
    + split; [discriminate|].
      intros (ds & i & d & Hall & _).
      destruct (In_nth_error _ _ Hin) as [j Hj].
      destruct (Forall2_nth_error_left _ _ _ j e Hall Hj) as (dj & _ & Hdj).
      congruence.
Qed.

(** X4.  Enrolling more embeddings never moves the nearest distance up:
    whenever [recognize_face] answers on a store and on that store with
    further records appended, the second distance is at most the first. *)
Theorem recognize_face_more_records
        (cfg : Config) (db : Database)
        (more : list Np.ndarray) (more_labels : list string)
        (q : Np.ndarray) (c : bool)
        (name name' : option string) (d d' : R) :
  recognize_face cfg db q c = Ok (name, d) ->
  recognize_face cfg {| embeddings := embeddings db ++ more;
                        labels := labels db ++ more_labels |} q c
  = Ok (name', d') ->
  d' <= d.
Proof.
  intros H H'.
  destruct (recognize_face_ok_inv cfg db q c name d H)
    as (ds & i & Hall & (Hnth & _) & _).
  destruct (Forall2_nth_error_right _ _ _ i d Hall Hnth) as (e & He & Hd).
  destruct (recognize_face_ok_inv _ _ q c name' d' H')
    as (ds' & i' & Hall' & (_ & Hleast' & _) & _).
  cbn [embeddings] in Hall'.
  assert (Hin : nth_error (embeddings db ++ more) i = Some e).
  { rewrite nth_error_app1; [exact He|].
    apply nth_error_Some. rewrite He. discriminate. }
  destruct (Forall2_nth_error_left _ _ _ i e Hall' Hin) as (dj & Hdj & Hdist).
  rewrite Hd in Hdist. injection Hdist as <-.
  exact (Hleast' i d Hdj).
Qed.

(** Evaluation of the matcher on sample data: the definitions are unfolded
    and every comparison of two concrete reals is decided. *)
Ltac decide_comparisons :=
  repeat match goal with
         | |- context [Rlt_dec ?a ?b] =>
             destruct (Rlt_dec a b); try (exfalso; simpl in *; lra)
         end.

Ltac evaluate_matcher :=
  unfold recognize_face; cbn [embeddings labels distances_of app];
  unfold distance, cosine_distance, euclidean_distance, Np.dot, Np.subtract;
  cbn [length Nat.eqb Np.inner Np.zip_minus bind];
  unfold Np.argmin, Np.argmin_scan;
  decide_comparisons; cbn [bind getitem nth_error];
  decide_comparisons; cbn [bind labels nth_error].

Lemma sample_recognize_luis_only :
  recognize_face config store_luis [1; 0] true = Ok (None, 1).
Proof.
  unfold store_luis. evaluate_matcher. do 2 f_equal. ring.
Qed.

Lemma sample_recognize_after_enrolling :
  recognize_face config
                 {| embeddings := embeddings store_luis ++ [[1; 0]];
                    labels := labels store_luis ++ ["Ana"%string] |}
                 [1; 0] true
  = Ok (Some "Ana"%string, 0).
Proof.
  unfold store_luis. evaluate_matcher. do 2 f_equal. ring.
Qed.

Lemma recognize_face_more_records_witness : 0 <= 1.
Proof.
  apply (recognize_face_more_records
           config store_luis [[1; 0]] ["Ana"%string] [1; 0] true
           None (Some "Ana"%string) 1 0).
  - exact sample_recognize_luis_only.
  - exact sample_recognize_after_enrolling.
Defined.

(** ** The euclidean distance as a metric *)

Lemma cauchy_schwarz (a b : Np.ndarray) :
  length a = length b ->
  Np.inner a b * Np.inner a b <= Np.inner a a * Np.inner b b.
Proof.
  revert b; induction a as [|x a IH]; intros [|y b] Hlen; simpl in *;
    try discriminate; [lra|].
  injection Hlen as Hlen. specialize (IH b Hlen).
  pose proof (inner_self_nonneg a) as HA. pose proof (inner_self_nonneg b) as HB.
  set (s := Np.inner a b) in *. set (A := Np.inner a a) in *.
  set (B := Np.inner b b) in *.
  assert (Hcross : 2 * (x * y * s) <= x * x * B + y * y * A).
  { assert (HP : 0 <= x * x * B + y * y * A) by nra.
    assert (HQ : (2 * (x * y * s)) * (2 * (x * y * s))
                 <= (x * x * B + y * y * A) * (x * x * B + y * y * A)).
    { assert (H1 : 0 <= (x * y) * (x * y) * (A * B - s * s)).
      { apply Rmult_le_pos; [apply Rle_0_sqr|lra]. }
      pose proof (Rle_0_sqr (x * x * B - y * y * A)) as H2. unfold Rsqr in H2.
      nra. }
    destruct (Rle_dec (2 * (x * y * s)) (x * x * B + y * y * A)) as [H|H];
      [exact H|]. exfalso. nra. }
  nra.
Qed.

Lemma inner_zip_minus_chain (a b c : Np.ndarray) :
  length a = length b -> length b = length c ->
  Np.inner (Np.zip_minus a c) (Np.zip_minus a c)
  = Np.inner (Np.zip_minus a b) (Np.zip_minus a b)
    + 2 * Np.inner (Np.zip_minus a b) (Np.zip_minus b c)
    + Np.inner (Np.zip_minus b c) (Np.zip_minus b c).
Proof.
  revert b c; induction a as [|x a IH]; intros [|y b] [|z c] H1 H2; simpl in *;
    try discriminate; [lra|].
  injection H1 as H1. injection H2 as H2. rewrite (IH b c H1 H2). ring.
Qed.

Lemma zip_minus_length (a b : Np.ndarray) :
  length a = length b -> length (Np.zip_minus a b) = length a.
Proof.
  revert b; induction a as [|x a IH]; intros [|y b] H; simpl in *;
    try discriminate; [reflexivity|].
  injection H as H. rewrite (IH b H). reflexivity.
Qed.

Lemma euclidean_aligned (a b : Np.ndarray) :
  length a = length b ->
  euclidean_distance a b
  = Ok (sqrt (Np.inner (Np.zip_minus a b) (Np.zip_minus a b))).
Proof.
  intros H. unfold euclidean_distance. rewrite (subtract_aligned a b H). reflexivity.
Qed.

(** X5.  On arrays of one shape both distances are symmetric, the euclidean
    distance is not negative, and it is zero exactly for equal arrays. *)
Theorem distances_symmetric (a b : Np.ndarray) :
  length a = length b ->
  exists de dc,
    euclidean_distance a b = Ok de
    /\ euclidean_distance b a = Ok de
    /\ cosine_distance a b = Ok dc
    /\ cosine_distance b a = Ok dc
    /\ 0 <= de
    /\ (de = 0 <-> a = b).
Proof.
  intros Hlen.
  exists (distance_value false a b), (distance_value true a b).
  split; [exact (distance_aligned false a b Hlen)|].
  split.
  { rewrite (distance_aligned false b a (eq_sym Hlen) : euclidean_distance b a = _).
    simpl. rewrite (inner_comm b a). do 2 f_equal. ring. }
  split; [exact (distance_aligned true a b Hlen)|].
  split.
  { rewrite (distance_aligned true b a (eq_sym Hlen) : cosine_distance b a = _).
    simpl. rewrite (inner_comm b a). reflexivity. }
  split; [apply sqrt_pos|].
  simpl. rewrite <- (inner_zip_minus a b Hlen). split.
  - intros H0. apply sqrt_eq_0 in H0; [|apply inner_self_nonneg].
    apply (zip_minus_zero a b Hlen), inner_self_zero. exact H0.
  - intros ->. rewrite (inner_zip_minus b b eq_refl).
    replace (Np.inner b b - 2 * Np.inner b b + Np.inner b b) with 0 by ring.
    apply sqrt_0.
Qed.

Lemma distances_symmetric_witness :
  exists de dc,
    euclidean_distance [1; 0] [0; 1] = Ok de
    /\ euclidean_distance [0; 1] [1; 0] = Ok de
    /\ cosine_distance [1; 0] [0; 1] = Ok dc
    /\ cosine_distance [0; 1] [1; 0] = Ok dc
    /\ 0 <= de
    /\ (de = 0 <-> [1; 0] = [0; 1]).
Proof.
  apply (distances_symmetric [1; 0] [0; 1]). reflexivity.
Defined.

(** X6.  On arrays of one shape the euclidean distance satisfies the
    triangle inequality. *)
Theorem euclidean_triangle (a b c : Np.ndarray) :
  length a = length b ->
  length b = length c ->
  exists dab dbc dac,
    euclidean_distance a b = Ok dab
    /\ euclidean_distance b c = Ok dbc
    /\ euclidean_distance a c = Ok dac
    /\ dac <= dab + dbc.
Proof.
  intros H1 H2.
  rewrite (euclidean_aligned a b H1), (euclidean_aligned b c H2),
          (euclidean_aligned a c (eq_trans H1 H2)).
  do 3 eexists. repeat split.
  rewrite (inner_zip_minus_chain a b c H1 H2).
  set (u := Np.zip_minus a b). set (v := Np.zip_minus b c).
  assert (Huv : length u = length v).
  { unfold u, v. rewrite (zip_minus_length a b H1), (zip_minus_length b c H2).
    exact H1. }
  pose proof (cauchy_schwarz u v Huv) as Hcs.
  pose proof (inner_self_nonneg u) as Hu. pose proof (inner_self_nonneg v) as Hv.
  pose proof (sqrt_pos (Np.inner u u)) as Hp.
  pose proof (sqrt_pos (Np.inner v v)) as Hr.
  pose proof (sqrt_sqrt _ Hu) as Hpp. pose proof (sqrt_sqrt _ Hv) as Hrr.
  set (p := sqrt (Np.inner u u)) in *. set (r := sqrt (Np.inner v v)) in *.
  assert (Hle : Np.inner u v <= p * r).
  { destruct (Rle_dec (Np.inner u v) (p * r)) as [H|H]; [exact H|].
    exfalso. assert (0 <= p * r) by nra. nra. }
  rewrite <- (sqrt_square (p + r)) by lra.
  apply sqrt_le_1_alt. nra.
Qed.

Lemma euclidean_triangle_witness :
  exists dab dbc dac,
    euclidean_distance [1; 0] [0; 1] = Ok dab
    /\ euclidean_distance [0; 1] [1; 1] = Ok dbc
    /\ euclidean_distance [1; 0] [1; 1] = Ok dac
    /\ dac <= dab + dbc.
Proof.
  apply (euclidean_triangle [1; 0] [0; 1] [1; 1]); reflexivity.
Defined.

(** ** Embedding a face *)



(** X7.  [get_face_embedding] hands the embedder the face itself when it
    has [IMAGE_SIZE] rows and columns, and what [cv2.resize] made of it
    otherwise: in both cases an image of [IMAGE_SIZE] rows and columns.
    When the embedder returns a vector that is not zero, the result is that
    vector with every component divided by the norm of the vector (floats
    modelled as reals), hence of the same length; when the embedder raises,
    so does [get_face_embedding]. *)
Theorem get_face_embedding_normalizes
        (cfg : Config)
        (cv2_resize : image -> Z * Z -> result image)
        (embedder_embeddings : image -> result Np.ndarray)
        (face : image) :
  resize_contract cv2_resize ->
  (0 < IMAGE_SIZE cfg)%Z ->
  (0 < shape0 face)%Z ->
  (0 < shape1 face)%Z ->
  exists model_input,
    shape0 model_input = IMAGE_SIZE cfg
    /\ shape1 model_input = IMAGE_SIZE cfg
    /\ ((shape0 face = IMAGE_SIZE cfg /\ shape1 face = IMAGE_SIZE cfg
         /\ model_input = face)
        \/ ((shape0 face <> IMAGE_SIZE cfg \/ shape1 face <> IMAGE_SIZE cfg)
            /\ cv2_resize face (IMAGE_SIZE cfg, IMAGE_SIZE cfg) = Ok model_input))
    /\ (forall embedding,
           embedder_embeddings model_input = Ok embedding ->
           Np.linalg_norm embedding <> 0 ->
           get_face_embedding cfg cv2_resize embedder_embeddings face
           = Ok (map (fun x => x / Np.linalg_norm embedding) embedding)
           /\ length (map (fun x => x / Np.linalg_norm embedding) embedding)
              = length embedding)
    /\ (forall x,
           embedder_embeddings model_input = Raise x ->
           get_face_embedding cfg cv2_resize embedder_embeddings face = Raise x).
Proof.
  intros Hres Hsize H0 H1. unfold get_face_embedding.
  destruct ((shape0 face =? IMAGE_SIZE cfg)%Z && (shape1 face =? IMAGE_SIZE cfg)%Z)
    eqn:Hshape.
  - apply andb_true_iff in Hshape. destruct Hshape as [Hs0 Hs1].
    apply Z.eqb_eq in Hs0, Hs1.
    exists face. split; [exact Hs0|]. split; [exact Hs1|].
    split; [left; auto|]. split.
    + intros embedding Hemb Hnorm. simpl. rewrite Hemb. simpl.
      split; [reflexivity|apply length_map].
    + intros x Hx. simpl. rewrite Hx. reflexivity.
  - destruct (Hres face (IMAGE_SIZE cfg) (IMAGE_SIZE cfg) H0 H1 Hsize Hsize)
      as (dst & Hdst & Hd0 & Hd1).
    exists dst. rewrite Hdst. split; [exact Hd0|]. split; [exact Hd1|].
    split; [|split].
    + right. split; [|reflexivity].
      apply andb_false_iff in Hshape.
      destruct Hshape as [E|E]; apply Z.eqb_neq in E; auto.
    + intros embedding Hemb Hnorm. simpl. rewrite Hemb. simpl.
      split; [reflexivity|apply length_map].
    + intros x Hx. simpl. rewrite Hx. reflexivity.
Qed.

Lemma get_face_embedding_normalizes_witness :
  exists model_input,
    shape0 model_input = IMAGE_SIZE config
    /\ shape1 model_input = IMAGE_SIZE config
    /\ ((shape0 face_frame = IMAGE_SIZE config /\ shape1 face_frame = IMAGE_SIZE config
         /\ model_input = face_frame)
        \/ ((shape0 face_frame <> IMAGE_SIZE config
             \/ shape1 face_frame <> IMAGE_SIZE config)
            /\ resize_nearest face_frame (IMAGE_SIZE config, IMAGE_SIZE config)
               = Ok model_input))
    /\ (forall embedding,
           sample_embed model_input = Ok embedding ->
           Np.linalg_norm embedding <> 0 ->
           get_face_embedding config resize_nearest sample_embed face_frame
           = Ok (map (fun x => x / Np.linalg_norm embedding) embedding)
           /\ length (map (fun x => x / Np.linalg_norm embedding) embedding)
              = length embedding)
    /\ (forall x,
           sample_embed model_input = Raise x ->
           get_face_embedding config resize_nearest sample_embed face_frame = Raise x).
Proof.
  apply (get_face_embedding_normalizes config resize_nearest sample_embed face_frame).
  - exact resize_nearest_contract.
  - reflexivity.
  - reflexivity.
  - reflexivity.
Defined.

(** ** What is shown for a face *)

Lemma reliability_above_60 (d : R) : 60 < reliability (Some d) <-> d < 0.32.
Proof.
  unfold reliability, Py.max.
  destruct (Rlt_dec 0 ((0.8 - d) / 0.8 * 100)); split; intros; lra.
Qed.

(** X8.  For an entry with a distance, [draw_face_box] draws a box whose
    corner has no negative coordinate.  An entry without a name, or with the
    empty string for a name, is red and labelled "Desconocido"; a named
    entry carries its name and its reliability, and is green when its
    distance is below 0.32 and yellow otherwise. *)
Theorem draw_face_box_colors (detection : Detection) (name : option string) (d : R) :
  (0 <= fst (ov_corner (draw_face_box detection name (Some d))))%Z
  /\ (0 <= snd (ov_corner (draw_face_box detection name (Some d))))%Z
  /\ (name_truthy name = false ->
      ov_color (draw_face_box detection name (Some d)) = (0, 0, 255)%Z
      /\ ov_label (draw_face_box detection name (Some d)) = "Desconocido"%string)
  /\ (forall s,
         name = Some s -> s <> EmptyString ->
         ov_label (draw_face_box detection name (Some d)) = s
         /\ ov_conf (draw_face_box detection name (Some d)) = Some (reliability (Some d))
         /\ (d < 0.32 ->
             ov_color (draw_face_box detection name (Some d)) = (0, 255, 0)%Z)
         /\ (~ d < 0.32 ->
             ov_color (draw_face_box detection name (Some d)) = (0, 255, 255)%Z)).
Proof.
  unfold draw_face_box.
  destruct detection as [[[[x y] w] h] conf]; cbn [box].
  split; [|split; [|split]].
  - destruct (name_truthy name); simpl; lia.
  - destruct (name_truthy name); simpl; lia.
  - intros ->. simpl. auto.
  - intros s -> Hs.
    assert (Ht : name_truthy (Some s) = true).
    { simpl. destruct (String.eqb_spec s ""); [contradiction|reflexivity]. }
    rewrite Ht. cbn [ov_label ov_conf ov_color]. repeat split.
    + intros Hd. apply reliability_above_60 in Hd.
      destruct (Rlt_dec 60 (reliability (Some d))); [reflexivity|contradiction].
    + intros Hd.
      destruct (Rlt_dec 60 (reliability (Some d))) as [H|H]; [|reflexivity].
      apply reliability_above_60 in H. contradiction.
Qed.

(** X9.  With a threshold of at most 0.8, a face that [recognize_face] names
    is shown with a reliability above [(0.8 - threshold) / 0.8 * 100], and a
    face it does not name with a reliability of at most that value: 25 % for
    the shipped threshold 0.6. *)
Theorem recognized_reliability_floor
        (cfg : Config) (db : Database) (q : Np.ndarray) (c : bool)
        (name : option string) (d : R) :
  DISTANCE_THRESHOLD cfg <= 0.8 ->
  recognize_face cfg db q c = Ok (name, d) ->
  (name <> None ->
   (0.8 - DISTANCE_THRESHOLD cfg) / 0.8 * 100 < reliability (Some d))
  /\ (name = None ->
      reliability (Some d) <= (0.8 - DISTANCE_THRESHOLD cfg) / 0.8 * 100).
Proof.
  intros Hthr Hrec.
  destruct (recognize_face_ok_inv cfg db q c name d Hrec)
    as (ds & i & _ & _ & Hlt & Hge).
  unfold reliability, Py.max. split.
  - intros Hname.
    destruct (Rlt_dec d (DISTANCE_THRESHOLD cfg)) as [H|H];
      [|rewrite (Hge H) in Hname; contradiction].
    destruct (Rlt_dec 0 ((0.8 - d) / 0.8 * 100)); lra.
  - intros Hname.
    destruct (Rlt_dec d (DISTANCE_THRESHOLD cfg)) as [H|H].
    + destruct (Hlt H) as [_ Hsome]. contradiction.
    + destruct (Rlt_dec 0 ((0.8 - d) / 0.8 * 100)); lra.
Qed.

Lemma recognized_reliability_floor_witness :
  (Some "Ana"%string <> None ->
   (0.8 - DISTANCE_THRESHOLD config) / 0.8 * 100 < reliability (Some 0))
  /\ (Some "Ana"%string = None ->
      reliability (Some 0) <= (0.8 - DISTANCE_THRESHOLD config) / 0.8 * 100).
Proof.
  apply (recognized_reliability_floor config store_two [1; 0] true).
  - simpl. lra.
  - exact sample_recognize_ana.
Defined.

Lemma draw_face_box_colors_witness :
  ov_color (draw_face_box det_a (Some "Ana"%string) (Some 0.2)) = (0, 255, 0)%Z
  /\ ov_label (draw_face_box det_a None (Some 0.7)) = "Desconocido"%string.
Proof.
  split.
  - apply (proj2 (proj2 (proj2 (draw_face_box_colors det_a (Some "Ana"%string) 0.2)))
                 "Ana"%string eq_refl).
    + discriminate.
    + lra.
  - apply (proj1 (proj2 (proj2 (draw_face_box_colors det_a None 0.7)))).
    reflexivity.
Defined.

Close Scope R_scope.

(** ** More about the loop *)

Section LoopInvariants.

Open Scope Z_scope.

Variable cfg : Config.
Variable database : Database.
Variable cv2_resize : image -> Z * Z -> result image.
Variable detect_faces : image -> result (list Detection).
Variable embedder_embeddings : image -> result Np.ndarray.

Local Abbreviation body :=
  (loop_body cfg database cv2_resize detect_faces embedder_embeddings).
Local Abbreviation loop :=
  (run_loop cfg database cv2_resize detect_faces embedder_embeddings).

Lemma process_detection_genuine (rgb_frame : image) (c : bool)
      (detection : Detection) (entry : FaceData) :
  process_detection cfg database cv2_resize embedder_embeddings rgb_frame c detection
  = Ok (Some entry) ->
  fd_detection entry = detection /\ genuine_entry cfg database entry.
Proof.
  unfold process_detection.
  destruct (Rlt_dec (confidence detection) (CONFIDENCE_THRESHOLD cfg)) as [|Hconf];
    [discriminate|].
  destruct (size (live_crop rgb_frame detection) =? 0); [discriminate|].
  destruct (get_face_embedding _ _ _ _) as [v|x]; simpl; [|discriminate].
  destruct (recognize_face cfg database v c) as [[name d]|x] eqn:Hrec; simpl;
    [|discriminate].
  intros H. injection H as <-. split; [reflexivity|].
  destruct (recognize_face_ok_inv cfg database v c name d Hrec)
    as (ds & i & _ & _ & Hlt & Hge).
  unfold genuine_entry; cbn [fd_detection fd_name fd_distance].
  repeat split; try assumption.
  - destruct (Rlt_dec d (DISTANCE_THRESHOLD cfg)) as [Hd|Hd].
    + destruct (Hlt Hd) as [Heq _]. rewrite Heq in H.
      eapply nth_error_In. exact H.
    + rewrite (Hge Hd) in H. discriminate.
  - destruct (Rlt_dec d (DISTANCE_THRESHOLD cfg)) as [Hd|Hd]; [exact Hd|].
    rewrite (Hge Hd) in H. discriminate.
  - intros Hnone Hd. destruct (Hlt Hd) as [_ Hsome]. contradiction.
Qed.

Lemma detections_loop_genuine (rgb_frame : image) (c : bool)
      (detections : list Detection) :
  forall acc res,
    Forall (genuine_entry cfg database) acc ->
    detections_loop cfg database cv2_resize embedder_embeddings
                    rgb_frame c detections acc = Ok res ->
    Forall (genuine_entry cfg database) res.
Proof.
  induction detections as [|d rest IH]; intros acc res Hacc H; simpl in H.
  - injection H as <-. exact Hacc.
  - destruct (process_detection _ _ _ _ rgb_frame c d) as [[entry|]|x] eqn:Hd;
      simpl in H; [| |discriminate].
    + apply (IH _ _ (proj2 (Forall_app _ _ _) (conj Hacc (Forall_cons _
                (proj2 (process_detection_genuine _ _ _ _ Hd)) (Forall_nil _)))) H).
    + apply (IH _ _ Hacc H).
Qed.

Lemma loop_body_genuine (s : LoopState) (frame : image) :
  Forall (genuine_entry cfg database) (active_faces s) ->
  Forall (genuine_entry cfg database) (active_faces (fst (body s frame)))
  /\ obs_drawn (snd (body s frame)) = active_faces (fst (body s frame)).
Proof.
  intros Hinv. unfold loop_body.
  destruct ((frame_count s + 1) mod process_every_n_frames =? 0).
  - destruct (detection_cycle _ _ _ _ _ _ _) as [faces|x] eqn:Hcycle.
    + assert (Hfaces : Forall (genuine_entry cfg database) faces).
      { unfold detection_cycle in Hcycle.
        destruct (detect_faces _) as [dets|y]; simpl in Hcycle; [|discriminate].
        eapply detections_loop_genuine; [constructor|exact Hcycle]. }
      destruct (0 <? length faces)%nat; simpl;
        [|destruct (PERSISTENCE_LIMIT <? frames_without_detection s + 1)];
        auto.
    + simpl. destruct (PERSISTENCE_LIMIT <? frames_without_detection s + 1); auto.
  - simpl. destruct (PERSISTENCE_LIMIT <? frames_without_detection s + 1); auto.
Qed.

Lemma run_loop_genuine (inputs : list (image * Z)) :
  forall s,
    Forall (genuine_entry cfg database) (active_faces s) ->
    Forall (fun o => Forall (genuine_entry cfg database) (obs_drawn o))
           (fst (loop s inputs)).
Proof.
  induction inputs as [|[frame waitKey] rest IH]; intros s Hinv; [constructor|].
  rewrite run_loop_cons.
  destruct (loop_body_genuine s frame Hinv) as [Hnext Hdrawn].
  destruct (Z.land waitKey 255 =? ord_q); cbn [fst].
  - constructor; [rewrite Hdrawn; exact Hnext|constructor].
  - constructor; [rewrite Hdrawn; exact Hnext|].
    apply IH. destruct (Z.land waitKey 255 =? ord_c); simpl; exact Hnext.
Qed.

(** What is drawn is the outcome of a detection phase at most
    [PERSISTENCE_LIMIT] frames back, or what the loop started with. *)
Lemma run_loop_drawn_origin (inputs : list (image * Z)) :
  forall s k o,
    nth_error (fst (loop s inputs)) k = Some o ->
    obs_drawn o <> [] ->
    (exists j oj,
        (j <= k)%nat /\ (k - j <= 20)%nat
        /\ nth_error (fst (loop s inputs)) j = Some oj
        /\ obs_cycle oj = Some (Ok (obs_drawn o)))
    \/ (obs_drawn o = active_faces s
        /\ frames_without_detection s + Z.of_nat k + 1 <= PERSISTENCE_LIMIT).
Proof.
  induction inputs as [|[frame waitKey] rest IH]; intros s k o Hnth Hdrawn.
  - destruct k; discriminate.
  - rewrite run_loop_cons in Hnth |- *. cbv zeta in Hnth |- *.
    set (o0 := snd (body s frame)) in *.
    set (s'' := if Z.land waitKey 255 =? ord_c
                then toggle_metric (fst (body s frame)) else fst (body s frame))
      in *.
    assert (Hs'' : frames_without_detection s''
                   = frames_without_detection (fst (body s frame))
                   /\ active_faces s'' = active_faces (fst (body s frame))).
    { unfold s''; destruct (Z.land waitKey 255 =? ord_c); simpl; auto. }
    destruct Hs'' as [Hst'' Hac''].
    assert (Hhead : nth_error
                      (fst (if Z.land waitKey 255 =? ord_q
                            then ([o0], fst (body s frame))
                            else (o0 :: fst (loop s'' rest), snd (loop s'' rest))))
                      0 = Some o0)
      by (destruct (Z.land waitKey 255 =? ord_q); reflexivity).
    destruct (cycle_found o0) eqn:Hfound.
    + (* the head frame refreshes *)
      assert (Hcyc : exists results, obs_cycle o0 = Some (Ok results) /\ results <> []).
      { unfold cycle_found in Hfound.
        destruct (obs_cycle o0) as [[[|fd l]|x]|]; try discriminate.
        eexists; split; [reflexivity|discriminate]. }
      destruct Hcyc as (results & Hcyc & Hne).
      destruct (loop_body_refreshes cfg database cv2_resize detect_faces
                                    embedder_embeddings s frame results Hcyc Hne)
        as (Hstale & Hactive & Hdr).
      destruct k as [|k].
      * left. exists 0%nat, o0.
        assert (o = o0) by congruence. subst o.
        repeat split; try lia; try exact Hhead. fold o0 in Hdr. congruence.
      * destruct (Z.land waitKey 255 =? ord_q); cbn [fst nth_error] in Hnth |- *;
          [destruct k; discriminate|].
        destruct (IH s'' k o Hnth Hdrawn)
          as [(j & oj & Hj & Hkj & Hoj & Hcj)|[Heq Hlim]].
        -- left. exists (S j), oj. repeat split; try lia; assumption.
        -- left. exists 0%nat, o0. rewrite Hst'', Hstale in Hlim.
           unfold PERSISTENCE_LIMIT in Hlim.
           repeat split; try lia. rewrite Heq, Hac'', Hactive. exact Hcyc.
    + (* the head frame only ages *)
      destruct (loop_body_ages cfg database cv2_resize detect_faces
                               embedder_embeddings s frame Hfound)
        as (Hstale & Hactive & Hdr).
      fold o0 in Hdr.
      destruct k as [|k].
      * right. assert (o = o0) by congruence. subst o.
        rewrite Hdr, Hactive in Hdrawn |- *.
        destruct (Z.ltb_spec PERSISTENCE_LIMIT (frames_without_detection s + 1));
          [contradiction|]. split; [reflexivity|lia].
      * destruct (Z.land waitKey 255 =? ord_q); cbn [fst nth_error] in Hnth |- *;
          [destruct k; discriminate|].
        destruct (IH s'' k o Hnth Hdrawn)
          as [(j & oj & Hj & Hkj & Hoj & Hcj)|[Heq Hlim]].
        -- left. exists (S j), oj. repeat split; try lia; assumption.
        -- right. rewrite Hst'', Hstale in Hlim. rewrite Hac'', Hactive in Heq.
           destruct (Z.ltb_spec PERSISTENCE_LIMIT (frames_without_detection s + 1));
             [lia|]. split; [exact Heq|lia].
Qed.

End LoopInvariants.

(** X10.  Every entry the loop ever draws is genuine: its detection is not
    below the confidence floor, a name it carries is a label of the store
    and comes with a distance below the threshold, and an entry without a
    name has a distance that is not below the threshold. *)
Theorem drawn_entries_genuine
        (cfg : Config) (db : Database)
        (cv2_resize : image -> Z * Z -> result image)
        (detect_faces : image -> result (list Detection))
        (embedder_embeddings : image -> result Np.ndarray)
        (inputs : list (image * Z)) :
  Forall (fun o => Forall (genuine_entry cfg db) (obs_drawn o))
         (fst (run cfg db cv2_resize detect_faces embedder_embeddings inputs)).
Proof.
  unfold run. apply run_loop_genuine. constructor.
Qed.

(** X11.  Starting without active faces, the loop draws nothing but the
    whole outcome of a detection phase that ended with results on the same
    frame or at most 20 frames earlier. *)
Theorem drawn_comes_from_recent_cycle
        (cfg : Config) (db : Database)
        (cv2_resize : image -> Z * Z -> result image)
        (detect_faces : image -> result (list Detection))
        (embedder_embeddings : image -> result Np.ndarray)
        (s : LoopState) (inputs : list (image * Z)) (k : nat) (o : Observation) :
  active_faces s = [] ->
  nth_error (fst (run_loop cfg db cv2_resize detect_faces embedder_embeddings s inputs)) k
  = Some o ->
  obs_drawn o <> [] ->
  exists j oj,
    (j <= k)%nat /\ (k - j <= Z.to_nat PERSISTENCE_LIMIT)%nat
    /\ nth_error (fst (run_loop cfg db cv2_resize detect_faces embedder_embeddings
                                s inputs)) j = Some oj
    /\ obs_cycle oj = Some (Ok (obs_drawn o)).
Proof.
  intros Hempty Hnth Hdrawn.
  destruct (run_loop_drawn_origin cfg db cv2_resize detect_faces embedder_embeddings
                                  inputs s k o Hnth Hdrawn)
    as [H|[Heq _]]; [exact H|].
  rewrite Hempty in Heq. contradiction.
Qed.

Lemma drawn_comes_from_recent_cycle_witness :
  exists o j oj,
    nth_error (fst (run_loop config store_two resize_nearest sample_detect
                             sample_embed state_before_cycle window_inputs)) 0
    = Some o
    /\ obs_drawn o <> []
    /\ (j <= 0)%nat
    /\ nth_error (fst (run_loop config store_two resize_nearest sample_detect
                                sample_embed state_before_cycle window_inputs)) j
       = Some oj
    /\ obs_cycle oj = Some (Ok (obs_drawn o)).
Proof.
  destruct (sample_cycle_face true) as [entry Hentry].
  set (o := snd (loop_body config store_two resize_nearest sample_detect
                           sample_embed state_before_cycle face_frame)).
  assert (Hhead : nth_error
                    (fst (run_loop config store_two resize_nearest sample_detect
                                   sample_embed state_before_cycle window_inputs)) 0
                  = Some o).
  { unfold window_inputs. rewrite run_loop_cons. reflexivity. }
  assert (Ho : obs_cycle o = Some (Ok [entry])).
  { unfold o, loop_body.
    change ((frame_count state_before_cycle + 1) mod process_every_n_frames =? 0)%Z
      with true.
    cbv iota. change (use_cosine state_before_cycle) with true.
    rewrite Hentry. reflexivity. }
  destruct (loop_body_refreshes config store_two resize_nearest sample_detect
                                sample_embed state_before_cycle face_frame [entry] Ho)
    as (_ & _ & Hdrawn); [discriminate|].
  fold o in Hdrawn.
  assert (Hne : obs_drawn o <> []) by (rewrite Hdrawn; discriminate).
  destruct (drawn_comes_from_recent_cycle
              config store_two resize_nearest sample_detect sample_embed
              state_before_cycle window_inputs 0 o eq_refl Hhead Hne)
    as (j & oj & Hj & _ & Hoj & Hcyc).
  exists o, j, oj. repeat split; assumption.
Defined.

(** X12.  A run does not look at anything that arrives after the frame
    answered by the key [q]: the frames after it change neither the
    observations nor the final state. *)
Theorem frames_after_quit_ignored
        (cfg : Config) (db : Database)
        (cv2_resize : image -> Z * Z -> result image)
        (detect_faces : image -> result (list Detection))
        (embedder_embeddings : image -> result Np.ndarray)
        (s : LoopState) (before : list (image * Z)) (frame : image) (waitKey : Z)
        (after : list (image * Z)) :
  Z.land waitKey 255 = ord_q ->
  run_loop cfg db cv2_resize detect_faces embedder_embeddings s
           (before ++ (frame, waitKey) :: after)
  = run_loop cfg db cv2_resize detect_faces embedder_embeddings s
             (before ++ [(frame, waitKey)]).
Proof.
  intros Hq. revert s.
  induction before as [|[f k] before IH]; intros s.
  - cbn [app]. rewrite !run_loop_cons, Hq, Z.eqb_refl. reflexivity.
  - cbn [app]. rewrite !run_loop_cons.
    destruct (Z.land k 255 =? ord_q)%Z; [reflexivity|].
    cbv zeta. rewrite IH. reflexivity.
Qed.

Lemma frames_after_quit_ignored_witness :
  run_loop config store_two resize_nearest sample_detect sample_embed initial_state
           ([(empty_frame, 0%Z)] ++ (empty_frame, 113%Z) :: [(face_frame, 0%Z)])
  = run_loop config store_two resize_nearest sample_detect sample_embed initial_state
             ([(empty_frame, 0%Z)] ++ [(empty_frame, 113%Z)]).
Proof.
  apply (frames_after_quit_ignored
           config store_two resize_nearest sample_detect sample_embed
           initial_state [(empty_frame, 0%Z)] empty_frame 113 [(face_frame, 0%Z)]).
  reflexivity.
Defined.

(** X13.  At the end of a run the metric is the one it started with when
    the key [c] was acted upon an even number of times, and the other one
    when it was acted upon an odd number of times; presses on or after the
    frame answered by [q] do not count. *)
Theorem metric_after_run
        (cfg : Config) (db : Database)
        (cv2_resize : image -> Z * Z -> result image)
        (detect_faces : image -> result (list Detection))
        (embedder_embeddings : image -> result Np.ndarray)
        (inputs : list (image * Z)) (s : LoopState) :
  use_cosine (snd (run_loop cfg db cv2_resize detect_faces embedder_embeddings s inputs))
  = if Nat.even (metric_toggles inputs) then use_cosine s else negb (use_cosine s).
Proof.
  revert s. induction inputs as [|[frame waitKey] rest IH]; intros s; [reflexivity|].
  rewrite run_loop_cons. cbn [metric_toggles].
  pose proof (loop_body_counts cfg db cv2_resize detect_faces embedder_embeddings
                               s frame) as (_ & _ & _ & Hmetric).
  destruct (Z.land waitKey 255 =? ord_q)%Z; [exact Hmetric|].
  cbv zeta. cbn [snd]. rewrite IH.
  destruct (Z.land waitKey 255 =? ord_c)%Z.
  - cbn [toggle_metric use_cosine]. rewrite Hmetric.
    rewrite Nat.even_succ, <- Nat.negb_even.
    destruct (Nat.even (metric_toggles rest)), (use_cosine s); reflexivity.
  - rewrite Hmetric. reflexivity.
Qed.

(** X14.  The status dot and the faces disagree for one frame.  After an
    iteration, a stale counter below 20 gives a green dot; a stale counter
    of exactly 20 gives a red dot although the faces of the previous frame
    are still drawn; from 21 on the dot is red and nothing is drawn. *)
Theorem status_dot_and_faces
        (cfg : Config) (db : Database)
        (cv2_resize : image -> Z * Z -> result image)
        (detect_faces : image -> result (list Detection))
        (embedder_embeddings : image -> result Np.ndarray)
        (s : LoopState) (frame : image) :
  ((frames_without_detection
      (fst (loop_body cfg db cv2_resize detect_faces embedder_embeddings s frame))
    < PERSISTENCE_LIMIT)%Z ->
   status_color (frames_without_detection
                   (fst (loop_body cfg db cv2_resize detect_faces
                                   embedder_embeddings s frame)))
   = (0, 255, 0)%Z)
  /\ (frames_without_detection
        (fst (loop_body cfg db cv2_resize detect_faces embedder_embeddings s frame))
      = PERSISTENCE_LIMIT ->
      status_color (frames_without_detection
                      (fst (loop_body cfg db cv2_resize detect_faces
                                      embedder_embeddings s frame)))
      = (0, 0, 255)%Z
      /\ obs_drawn (snd (loop_body cfg db cv2_resize detect_faces
                                   embedder_embeddings s frame))
         = active_faces s)
  /\ ((PERSISTENCE_LIMIT
       < frames_without_detection
           (fst (loop_body cfg db cv2_resize detect_faces embedder_embeddings s frame)))%Z ->
      status_color (frames_without_detection
                      (fst (loop_body cfg db cv2_resize detect_faces
                                      embedder_embeddings s frame)))
      = (0, 0, 255)%Z
      /\ obs_drawn (snd (loop_body cfg db cv2_resize detect_faces
                                   embedder_embeddings s frame))
         = []).
Proof.
  set (o := snd (loop_body cfg db cv2_resize detect_faces embedder_embeddings s frame)).
  set (s' := fst (loop_body cfg db cv2_resize detect_faces embedder_embeddings s frame)).
  assert (Hcases :
            (frames_without_detection s' = 0%Z)
            \/ (frames_without_detection s' = (frames_without_detection s + 1)%Z
                /\ obs_drawn o
                   = if (PERSISTENCE_LIMIT <? frames_without_detection s + 1)%Z
                     then [] else active_faces s)).
  { destruct (cycle_found o) eqn:Hfound.
    - left. unfold cycle_found in Hfound.
      destruct (obs_cycle o) as [[[|fd l]|x]|] eqn:Hc; try discriminate.
      apply (loop_body_refreshes cfg db cv2_resize detect_faces embedder_embeddings
                                 s frame (fd :: l) Hc). discriminate.
    - right.
      destruct (loop_body_ages cfg db cv2_resize detect_faces embedder_embeddings
                               s frame Hfound) as (Hst & Hac & Hdr).
      fold o s' in Hst, Hac, Hdr. split; [exact Hst|]. rewrite Hdr. exact Hac. }
  unfold status_color, PERSISTENCE_LIMIT in *.
  split; [|split].
  - intros H. destruct (Z.ltb_spec (frames_without_detection s') 20);
      [reflexivity|lia].
  - intros H. destruct Hcases as [H0|[Hst Hdr]]; [lia|].
    rewrite H. split; [reflexivity|]. rewrite Hdr.
    destruct (Z.ltb_spec 20 (frames_without_detection s + 1)); [lia|reflexivity].
  - intros H. destruct Hcases as [H0|[Hst Hdr]]; [lia|].
    destruct (Z.ltb_spec (frames_without_detection s') 20); [lia|].
    split; [reflexivity|]. rewrite Hdr.
    destruct (Z.ltb_spec 20 (frames_without_detection s + 1)); [reflexivity|lia].
Qed.

Lemma status_dot_and_faces_witness :
  status_color (frames_without_detection
                  (fst (loop_body config store_two resize_nearest sample_detect
                                  sample_embed state_nearly_stale empty_frame)))
  = (0, 0, 255)%Z
  /\ obs_drawn (snd (loop_body config store_two resize_nearest sample_detect
                               sample_embed state_nearly_stale empty_frame))
     = active_faces state_nearly_stale.
Proof.
  apply (proj1 (proj2 (status_dot_and_faces
                         config store_two resize_nearest sample_detect sample_embed
                         state_nearly_stale empty_frame))).
  reflexivity.
Defined.

(** ** More about the normalizer *)

Section NormalizerAnatomy.

Open Scope Z_scope.

Lemma slice_bound_nonneg (n i : Z) : 0 <= i -> slice_bound n i = Z.min i n.
Proof.
  intros Hi. unfold slice_bound. destruct (Z.ltb_spec i 0); [lia|reflexivity].
Qed.

Lemma int_15_percent_mono (a b : Z) :
  0 <= a -> a <= b -> int_15_percent a <= int_15_percent b.
Proof.
  intros Ha Hab. unfold int_15_percent. apply Z.quot_le_mono; lia.
Qed.

Lemma align_face_via_crop (cv2_resize : image -> Z * Z -> result image)
      (img : image) (detection : Detection) (output_size : Z) :
  align_face cv2_resize img detection output_size
  = if size (align_crop img detection) =? 0 then Ok None
    else face_resized <- cv2_resize (align_crop img detection)
                                    (output_size, output_size) ;;
         Ok (Some face_resized).
Proof.
  unfold align_face, align_crop.
  destruct detection as [[[[x y] w] h] conf]. reflexivity.
Qed.

(** The extent of the crop of [align_face] along one axis. *)
Lemma align_extent (n p w : Z) :
  0 <= n -> 0 <= w ->
  slice_len n (Z.max 0 (Z.abs p - int_15_percent w))
              (Z.min n (Z.abs p + w + int_15_percent w)) = 0
  <-> w = 0 \/ n = 0 \/ n <= Z.abs p - int_15_percent w.
Proof.
  intros Hn Hw.
  pose proof (int_15_percent_nonneg w Hw) as Hm.
  assert (Hm0 : w = 0 -> int_15_percent w = 0) by (intros ->; reflexivity).
  unfold slice_len. rewrite !slice_bound_nonneg by lia. lia.
Qed.

End NormalizerAnatomy.

(** X15.  For a box of width and height that are not negative,
    [align_face] returns [None] in exactly these cases: the box has no
    area, the image has no pixel, or the box, after [abs] of its origin and
    widened by its margin, starts right of the last column or below the
    last row. *)
Theorem align_face_none_iff
        (cv2_resize : image -> Z * Z -> result image)
        (img : image) (x y w h : Z) (conf : R) (output_size : Z) :
  (0 <= w)%Z -> (0 <= h)%Z ->
  (0 <= shape0 img)%Z -> (0 <= shape1 img)%Z ->
  align_face cv2_resize img {| box := (x, y, w, h); confidence := conf |} output_size
  = Ok None
  <-> box_has_area (x, y, w, h) = false
      \/ shape0 img = 0%Z \/ shape1 img = 0%Z
      \/ widened_box_beyond img (x, y, w, h) = true.
Proof.
  intros Hw Hh H0 H1. rewrite align_face_via_crop.
  unfold align_crop, size, crop; cbn [box shape0 shape1].
  pose proof (align_extent (shape1 img) x w H1 Hw) as Hcols.
  pose proof (align_extent (shape0 img) y h H0 Hh) as Hrows.
  set (rows := slice_len (shape0 img) _ _) in *.
  set (cols := slice_len (shape1 img) _ _) in *.
  assert (Hr : (0 <= rows)%Z) by (unfold rows, slice_len; lia).
  assert (Hc : (0 <= cols)%Z) by (unfold cols, slice_len; lia).
  assert (Hbox : box_has_area (x, y, w, h) = false <-> (w = 0 \/ h = 0)%Z).
  { unfold box_has_area. rewrite andb_false_iff, !Z.ltb_ge. lia. }
  assert (Hbeyond : widened_box_beyond img (x, y, w, h) = true
                    <-> (shape1 img <= Z.abs x - int_15_percent w
                         \/ shape0 img <= Z.abs y - int_15_percent h)%Z).
  { unfold widened_box_beyond. rewrite orb_true_iff, !Z.leb_le. tauto. }
  rewrite Hbox, Hbeyond.
  destruct (rows * cols * 3 =? 0)%Z eqn:Hsize.
  - apply Z.eqb_eq in Hsize.
    assert (rows = 0 \/ cols = 0)%Z by nia.
    split; [intros _|reflexivity]. tauto.
  - apply Z.eqb_neq in Hsize.
    assert (rows <> 0 /\ cols <> 0)%Z by nia.
    split.
    + destruct (cv2_resize _ _); simpl; discriminate.
    + intros Hcase. exfalso. tauto.
Qed.

Lemma align_face_none_iff_witness :
  align_face resize_nearest (plain_image 100 100 (0, 0, 0)%Z)
             {| box := (10, 10, 0, 40)%Z; confidence := 1%R |} 160
  = Ok None.
Proof.
  apply (align_face_none_iff resize_nearest (plain_image 100 100 (0, 0, 0)%Z)
                             10 10 0 40 1%R 160).
  - lia.
  - lia.
  - simpl; lia.
  - simpl; lia.
  - left. reflexivity.
Defined.

(** X16.  The crop that enrollment takes ([align_face], margin per side of
    the box) is a window of the crop that the live loop takes (margin from
    the longer side): same pixels, shifted by an offset that is not
    negative, and not larger.  For a square box the two crops are the
    same. *)
Theorem enrollment_crop_within_live_crop
        (img : image) (x y w h : Z) (conf : R) :
  (0 <= w)%Z -> (0 <= h)%Z ->
  (0 <= shape0 img)%Z -> (0 <= shape1 img)%Z ->
  (exists dy dx,
      (0 <= dy)%Z /\ (0 <= dx)%Z
      /\ (shape0 (align_crop img {| box := (x, y, w, h); confidence := conf |}) + dy
          <= shape0 (live_crop img {| box := (x, y, w, h); confidence := conf |}))%Z
      /\ (shape1 (align_crop img {| box := (x, y, w, h); confidence := conf |}) + dx
          <= shape1 (live_crop img {| box := (x, y, w, h); confidence := conf |}))%Z
      /\ forall r c,
          at_ (align_crop img {| box := (x, y, w, h); confidence := conf |}) r c
          = at_ (live_crop img {| box := (x, y, w, h); confidence := conf |})
                (r + dy)%Z (c + dx)%Z)
  /\ (w = h ->
      align_crop img {| box := (x, y, w, h); confidence := conf |}
      = live_crop img {| box := (x, y, w, h); confidence := conf |}).
Proof.
  intros Hw Hh H0 H1.
  pose proof (int_15_percent_nonneg w Hw) as Hmx.
  pose proof (int_15_percent_nonneg h Hh) as Hmy.
  pose proof (int_15_percent_mono w (Z.max w h) Hw ltac:(lia)) as Hlx.
  pose proof (int_15_percent_mono h (Z.max w h) Hh ltac:(lia)) as Hly.
  unfold align_crop, live_crop, crop; cbn [box shape0 shape1 at_].
  set (mx := int_15_percent w) in *. set (my := int_15_percent h) in *.
  set (m := int_15_percent (Z.max w h)) in *.
  split.
  - exists (slice_bound (shape0 img) (Z.max 0 (Z.abs y - my))
            - slice_bound (shape0 img) (Z.max 0 (Z.abs y - m)))%Z,
           (slice_bound (shape1 img) (Z.max 0 (Z.abs x - mx))
            - slice_bound (shape1 img) (Z.max 0 (Z.abs x - m)))%Z.
    unfold slice_len. rewrite !slice_bound_nonneg by lia.
    repeat split; try lia.
    intros r c. f_equal; lia.
  - intros ->. unfold mx, my, m. rewrite Z.max_id. reflexivity.
Qed.

Lemma enrollment_crop_within_live_crop_witness :
  align_crop face_frame {| box := (10, 10, 40, 40)%Z; confidence := 1%R |}
  = live_crop face_frame {| box := (10, 10, 40, 40)%Z; confidence := 1%R |}.
Proof.
  apply (proj2 (enrollment_crop_within_live_crop
                  face_frame 10 10 40 40 1%R
                  ltac:(lia) ltac:(lia) ltac:(simpl; lia) ltac:(simpl; lia))).
  reflexivity.
Defined.

(** ** The batch that aligns the raw images *)

Section AlignBatchProperties.

Open Scope R_scope.

Variable cfg : Config.
Variable cv2_resize : image -> Z * Z -> result image.
Variable detect_faces : image -> result (list Detection).

Lemma max_by_confidence_spec (rest : list Detection) :
  forall first,
    In (max_by_confidence first rest) (first :: rest)
    /\ forall d, In d (first :: rest) ->
                 confidence d <= confidence (max_by_confidence first rest).
Proof.
  unfold max_by_confidence.
  induction rest as [|x rest IH]; intros first; cbn [fold_left].
  - split; [left; reflexivity|]. intros d [<-|[]]. lra.
  - destruct (Rlt_dec (confidence first) (confidence x)) as [Hlt|Hge].
    + destruct (IH x) as [Hin Hmax]. split.
      * right. exact Hin.
      * intros d [<-|Hd]; [|exact (Hmax d Hd)].
        pose proof (Hmax x (or_introl eq_refl)). lra.
    + destruct (IH first) as [Hin Hmax]. split.
      * destruct Hin as [<-|Hin]; [left; reflexivity|right; right; exact Hin].
      * intros d [<-|[<-|Hd]].
        -- exact (Hmax _ (or_introl eq_refl)).
        -- pose proof (Hmax first (or_introl eq_refl)). lra.
        -- exact (Hmax d (or_intror Hd)).
Qed.

Lemma valid_detections_spec (detections : list Detection) (d : Detection) :
  In d (valid_detections cfg detections)
  <-> In d detections /\ CONFIDENCE_THRESHOLD cfg <= confidence d.
Proof.
  unfold valid_detections. rewrite filter_In.
  destruct (Rle_dec (CONFIDENCE_THRESHOLD cfg) (confidence d)); split;
    intros [H1 H2]; split; auto; discriminate || contradiction.
Qed.

Lemma align_person_steps (person_name : string)
      (image_files : list (string * option image)) :
  forall processed faces_detected written,
  exists added,
    align_person cfg cv2_resize detect_faces person_name image_files
                 processed faces_detected written
    = ((processed + Z.of_nat (length added))%Z,
       (faces_detected + Z.of_nat (length added))%Z,
       written ++ added)
    /\ (length added <= length image_files)%nat
    /\ Forall (fun w => w_person w = person_name
                        /\ exists imread, In (w_source w, imread) image_files)
              added.
Proof.
  induction image_files as [|[image_file imread] rest IH];
    intros processed faces_detected written.
  - exists []. simpl. rewrite app_nil_r, !Z.add_0_r. auto.
  - cbn [align_person].
    destruct (align_image cfg cv2_resize detect_faces imread) as [[sk|[best face]]|x].
    + destruct (IH processed faces_detected written) as (added & Heq & Hlen & Hall).
      exists added. rewrite Heq. repeat split; [simpl; lia|].
      eapply Forall_impl; [|exact Hall].
      intros w [Hp [im Him]]. split; [exact Hp|]. exists im. right. exact Him.
    + destruct (IH (processed + 1)%Z (faces_detected + 1)%Z
                   (written ++ [{| w_person := person_name;
                                   w_source := image_file;
                                   w_image := face |}]))
        as (added & Heq & Hlen & Hall).
      exists ({| w_person := person_name; w_source := image_file; w_image := face |}
                :: added).
      rewrite Heq. cbn [length]. rewrite <- app_assoc. cbn [app].
      repeat split; try lia.
      * apply f_equal2; [apply f_equal2; lia|reflexivity].
      * constructor.
        -- cbn. split; [reflexivity|]. exists imread. left. reflexivity.
        -- eapply Forall_impl; [|exact Hall].
           intros w [Hp [im Him]]. split; [exact Hp|]. exists im. right. exact Him.
    + destruct (IH processed faces_detected written) as (added & Heq & Hlen & Hall).
      exists added. rewrite Heq. repeat split; [simpl; lia|].
      eapply Forall_impl; [|exact Hall].
      intros w [Hp [im Him]]. split; [exact Hp|]. exists im. right. exact Him.
Qed.

End AlignBatchProperties.

Lemma align_crop_shape_nonneg (img : image) (detection : Detection) :
  (0 <= shape0 (align_crop img detection))%Z
  /\ (0 <= shape1 (align_crop img detection))%Z.
Proof.
  unfold align_crop. destruct detection as [[[[x y] w] h] conf].
  cbn [box crop shape0 shape1]. unfold slice_len. lia.
Qed.

Lemma align_face_some_shape (cv2_resize : image -> Z * Z -> result image)
      (img : image) (detection : Detection) (output_size : Z) (face : image) :
  resize_contract cv2_resize ->
  (0 < output_size)%Z ->
  align_face cv2_resize img detection output_size = Ok (Some face) ->
  shape0 face = output_size /\ shape1 face = output_size.
Proof.
  intros Hres Hout. rewrite align_face_via_crop.
  destruct (align_crop_shape_nonneg img detection) as [H0 H1].
  unfold size.
  destruct (shape0 (align_crop img detection) * shape1 (align_crop img detection) * 3
            =? 0)%Z eqn:Hsize; [discriminate|].
  apply Z.eqb_neq in Hsize.
  destruct (Hres (align_crop img detection) output_size output_size)
    as (dst & Hdst & Hs0 & Hs1); try lia; try nia.
  rewrite Hdst. simpl. intros H. injection H as <-. auto.
Qed.

(** X17.  When the batch aligns an image, the detection it used is one the
    detector reported, it reaches the confidence floor, no reported
    detection has a greater confidence, and the image written has
    [IMAGE_SIZE] rows and columns. *)
Theorem aligned_image_uses_best_detection
        (cfg : Config)
        (cv2_resize : image -> Z * Z -> result image)
        (detect_faces : image -> result (list Detection))
        (img : image) (detections : list Detection)
        (best : Detection) (out : image) :
  resize_contract cv2_resize ->
  (0 < IMAGE_SIZE cfg)%Z ->
  detect_faces (cvtColor_BGR2RGB img) = Ok detections ->
  align_image cfg cv2_resize detect_faces (Some img) = Ok (inr (best, out)) ->
  In best detections
  /\ (CONFIDENCE_THRESHOLD cfg <= confidence best)%R
  /\ (forall d, In d detections -> (confidence d <= confidence best)%R)
  /\ shape0 out = IMAGE_SIZE cfg
  /\ shape1 out = IMAGE_SIZE cfg.
Proof.
  intros Hres Hsize Hdet. unfold align_image. rewrite Hdet. unfold bind at 1.
  destruct detections as [|d0 ds]; [discriminate|].
  destruct (valid_detections cfg (d0 :: ds)) as [|first rest] eqn:Hvalid;
    [discriminate|].
  destruct (align_face cv2_resize (cvtColor_BGR2RGB img)
                       (max_by_confidence first rest) (IMAGE_SIZE cfg))
    as [[face|]|x] eqn:Halign; simpl; try discriminate.
  intros H. injection H as <- <-.
  destruct (max_by_confidence_spec rest first) as [Hin Hmax].
  rewrite <- Hvalid in Hin.
  apply valid_detections_spec in Hin. destruct Hin as [Hin Hconf].
  destruct (align_face_some_shape cv2_resize _ _ _ face Hres Hsize Halign)
    as [Hs0 Hs1].
  repeat split; try assumption.
  intros d Hd.
  destruct (Rle_dec (CONFIDENCE_THRESHOLD cfg) (confidence d)) as [Hv|Hv].
  - apply Hmax. rewrite <- Hvalid. apply valid_detections_spec. auto.
  - lra.
Qed.

Lemma sample_align_face_frame :
  exists out,
    align_image config resize_nearest sample_detect (Some face_frame)
    = Ok (inr (det_b, out)).
Proof.
  unfold align_image.
  change (sample_detect (cvtColor_BGR2RGB face_frame)) with (Ok [det_b]).
  unfold bind at 1. unfold valid_detections; cbn [filter].
  destruct (Rle_dec (CONFIDENCE_THRESHOLD config) (confidence det_b)) as [_|H];
    [|exfalso; simpl in H; lra].
  eexists. reflexivity.
Qed.

Lemma aligned_image_uses_best_detection_witness :
  exists out,
    In det_b [det_b]
    /\ (CONFIDENCE_THRESHOLD config <= confidence det_b)%R
    /\ (forall d, In d [det_b] -> (confidence d <= confidence det_b)%R)
    /\ shape0 out = IMAGE_SIZE config
    /\ shape1 out = IMAGE_SIZE config.
Proof.
  destruct sample_align_face_frame as [out Hout].
  exists out.
  apply (aligned_image_uses_best_detection
           config resize_nearest sample_detect face_frame [det_b] det_b out).
  - exact resize_nearest_contract.
  - reflexivity.
  - reflexivity.
  - exact Hout.
Defined.

(** X18.  In the batch an image that yields no aligned face, because it
    cannot be read, shows no usable detection, cannot be cropped or raises
    an exception, changes nothing for the other images of the person: the
    counters and the images written are those of the batch without it. *)
Theorem unaligned_image_is_isolated
        (cfg : Config)
        (cv2_resize : image -> Z * Z -> result image)
        (detect_faces : image -> result (list Detection))
        (person_name : string)
        (before : list (string * option image))
        (image_file : string) (imread : option image)
        (after : list (string * option image))
        (processed faces_detected : Z) (written : list Written) :
  (forall aligned, align_image cfg cv2_resize detect_faces imread <> Ok (inr aligned)) ->
  align_person cfg cv2_resize detect_faces person_name
               (before ++ (image_file, imread) :: after)
               processed faces_detected written
  = align_person cfg cv2_resize detect_faces person_name
                 (before ++ after) processed faces_detected written.
Proof.
  intros Hbad. revert processed faces_detected written.
  induction before as [|[f im] before IH]; intros processed faces_detected written.
  - cbn [app align_person].
    destruct (align_image cfg cv2_resize detect_faces imread) as [[sk|[b face]]|x];
      try reflexivity.
    exfalso. apply (Hbad (b, face)). reflexivity.
  - cbn [app align_person].
    destruct (align_image cfg cv2_resize detect_faces im) as [[sk|[b face]]|x];
      apply IH.
Qed.

Lemma unaligned_image_is_isolated_witness :
  align_person config resize_nearest sample_detect "Ana"%string
               ([("face.jpg"%string, Some face_frame)]
                  ++ ("wall.jpg"%string, Some empty_frame) :: []) 0%Z 0%Z []
  = align_person config resize_nearest sample_detect "Ana"%string
                 ([("face.jpg"%string, Some face_frame)] ++ []) 0%Z 0%Z [].
Proof.
  apply (unaligned_image_is_isolated
           config resize_nearest sample_detect "Ana"%string
           [("face.jpg"%string, Some face_frame)] "wall.jpg"%string (Some empty_frame) []).
  intros aligned. discriminate.
Defined.

(** X19.  Over the whole batch the two totals are equal, they count the
    images written, they cannot exceed the number of image files, and every
    image written belongs to a person of the batch and stems from one of
    that person's files. *)
Theorem process_images_totals
        (cfg : Config)
        (cv2_resize : image -> Z * Z -> result image)
        (detect_faces : image -> result (list Detection))
        (persons : list (string * list (string * option image))) :
  fst (fst (process_images cfg cv2_resize detect_faces persons))
  = Z.of_nat (length (snd (process_images cfg cv2_resize detect_faces persons)))
  /\ snd (fst (process_images cfg cv2_resize detect_faces persons))
     = fst (fst (process_images cfg cv2_resize detect_faces persons))
  /\ (length (snd (process_images cfg cv2_resize detect_faces persons))
      <= count_files persons)%nat
  /\ Forall (fun w => exists image_files imread,
                 In (w_person w, image_files) persons
                 /\ In (w_source w, imread) image_files)
            (snd (process_images cfg cv2_resize detect_faces persons)).
Proof.
  unfold process_images.
  assert (Hgen : forall ps tp tf written,
             exists added,
               align_persons cfg cv2_resize detect_faces ps tp tf written
               = ((tp + Z.of_nat (length added))%Z,
                  (tf + Z.of_nat (length added))%Z,
                  written ++ added)
               /\ (length added <= count_files ps)%nat
               /\ Forall (fun w => exists image_files imread,
                              In (w_person w, image_files) ps
                              /\ In (w_source w, imread) image_files)
                         added).
  { induction ps as [|[name files] ps IH]; intros tp tf written.
    - exists []. simpl. rewrite app_nil_r, !Z.add_0_r. auto.
    - cbn [align_persons].
      destruct (align_person_steps cfg cv2_resize detect_faces name files 0%Z 0%Z written)
        as (a1 & Heq1 & Hlen1 & Hall1).
      rewrite Heq1. cbv beta iota.
      destruct (IH (tp + (0 + Z.of_nat (length a1)))%Z
                   (tf + (0 + Z.of_nat (length a1)))%Z (written ++ a1))
        as (a2 & Heq2 & Hlen2 & Hall2).
      rewrite Heq2. exists (a1 ++ a2).
      rewrite length_app, <- app_assoc. unfold count_files, list_sum in *.
      cbn [map fold_right snd].
      repeat split; try lia.
      + apply f_equal2; [apply f_equal2; lia|reflexivity].
      + apply Forall_app. split.
        * eapply Forall_impl; [|exact Hall1].
          intros w [Hp [im Him]]. exists files, im. rewrite Hp.
          split; [left; reflexivity|exact Him].
        * eapply Forall_impl; [|exact Hall2].
          intros w (fs & im & Hin1 & Hin2). exists fs, im.
          split; [right; exact Hin1|exact Hin2]. }
  destruct (Hgen persons 0%Z 0%Z []) as (added & Heq & Hlen & Hall).
  rewrite Heq. cbn [fst snd app]. repeat split; try assumption; lia.
Qed.

(** ** Generating the embeddings *)

Section GenerateProperties.

Open Scope R_scope.

Variable cfg : Config.
Variable cv2_resize : image -> Z * Z -> result image.
Variable embedder_embeddings : image -> result Np.ndarray.

Local Abbreviation normalized_output :=
  (normalized_output_of embedder_embeddings).

Lemma embed_image_some (imread : option image) (e : Np.ndarray) :
  embed_image cfg cv2_resize embedder_embeddings imread = Ok (Some e) ->
  normalized_output e.
Proof.
  unfold embed_image.
  destruct (preprocess_image cfg cv2_resize imread) as [[img|]|x]; simpl;
    try discriminate.
  destruct (embedder_embeddings img) as [v|x] eqn:Hv; simpl; [|discriminate].
  intros H. injection H as <-. exists img, v. auto.
Qed.

Lemma get_face_embedding_some (face : image) (q : Np.ndarray) :
  get_face_embedding cfg cv2_resize embedder_embeddings face = Ok q ->
  normalized_output q.
Proof.
  unfold get_face_embedding.
  assert (Hgen : forall m : result image,
             (face_image <- m ;;
              embedding <- embedder_embeddings face_image ;;
              Ok (map (fun v => v / Np.linalg_norm embedding) embedding)) = Ok q ->
             normalized_output q).
  { intros [img|x]; simpl; [|discriminate].
    destruct (embedder_embeddings img) as [v|x] eqn:Hv; simpl; [|discriminate].
    intros H. injection H as <-. exists img, v. auto. }
  apply Hgen.
Qed.

Lemma embed_person_steps (person_name : string)
      (image_files : list (string * option image)) :
  forall db,
  exists E P,
    embed_person cfg cv2_resize embedder_embeddings person_name image_files db
    = {| ef_embeddings := ef_embeddings db ++ E;
         ef_labels := ef_labels db ++ repeat person_name (length E);
         ef_image_paths := ef_image_paths db ++ P |}
    /\ length P = length E
    /\ (length E <= length image_files)%nat
    /\ Forall normalized_output E.
Proof.
  induction image_files as [|[path imread] rest IH]; intros db.
  - exists [], []. simpl. rewrite !app_nil_r. destruct db; auto.
  - cbn [embed_person].
    destruct (embed_image cfg cv2_resize embedder_embeddings imread)
      as [[e|]|x] eqn:He.
    + destruct (IH {| ef_embeddings := ef_embeddings db ++ [e];
                      ef_labels := ef_labels db ++ [person_name];
                      ef_image_paths := ef_image_paths db ++ [path] |})
        as (E & P & Heq & HP & Hlen & Hall).
      exists (e :: E), (path :: P). rewrite Heq.
      cbn [ef_embeddings ef_labels ef_image_paths length repeat].
      rewrite <- !app_assoc. cbn [app].
      repeat split; try lia.
      constructor; [exact (embed_image_some _ _ He)|exact Hall].
    + destruct (IH db) as (E & P & Heq & HP & Hlen & Hall).
      exists E, P. rewrite Heq. repeat split; try assumption. simpl; lia.
    + destruct (IH db) as (E & P & Heq & HP & Hlen & Hall).
      exists E, P. rewrite Heq. repeat split; try assumption. simpl; lia.
Qed.

Lemma embed_persons_steps (persons : list (string * list (string * option image))) :
  forall db,
  exists E L P,
    embed_persons cfg cv2_resize embedder_embeddings persons db
    = {| ef_embeddings := ef_embeddings db ++ E;
         ef_labels := ef_labels db ++ L;
         ef_image_paths := ef_image_paths db ++ P |}
    /\ length L = length E
    /\ length P = length E
    /\ Forall (fun l => In l (map fst persons)) L
    /\ Forall normalized_output E.
Proof.
  induction persons as [|[name files] persons IH]; intros db.
  - exists [], [], []. simpl. rewrite !app_nil_r. destruct db; auto.
  - cbn [embed_persons].
    destruct (embed_person_steps name files db) as (E1 & P1 & Heq1 & HP1 & _ & Hall1).
    rewrite Heq1.
    destruct (IH {| ef_embeddings := ef_embeddings db ++ E1;
                    ef_labels := ef_labels db ++ repeat name (length E1);
                    ef_image_paths := ef_image_paths db ++ P1 |})
      as (E2 & L2 & P2 & Heq2 & HL2 & HP2 & Hlab2 & Hall2).
    exists (E1 ++ E2), (repeat name (length E1) ++ L2), (P1 ++ P2).
    rewrite Heq2. cbn [ef_embeddings ef_labels ef_image_paths].
    rewrite <- !app_assoc, !length_app, repeat_length.
    repeat split; try lia.
    + apply Forall_app. split.
      * apply Forall_forall. intros l Hl. apply repeat_spec in Hl. subst l.
        left. reflexivity.
      * eapply Forall_impl; [|exact Hlab2]. intros l Hl. right. exact Hl.
    + apply Forall_app. auto.
Qed.

Lemma np_array_rows_ok (rows rows' : list Np.ndarray) :
  np_array_rows rows = Ok rows' ->
  rows' = rows /\ forall a b, In a rows -> In b rows -> length a = length b.
Proof.
  unfold np_array_rows. destruct rows as [|first rest].
  - intros H. injection H as <-. split; [reflexivity|]. intros a b [].
  - destruct (forallb (fun r => Nat.eqb (length r) (length first)) rest) eqn:Hall;
      [|discriminate].
    intros H. injection H as <-. split; [reflexivity|].
    rewrite forallb_forall in Hall.
    assert (Hlen : forall a, In a (first :: rest) -> length a = length first).
    { intros a [<-|Ha]; [reflexivity|]. apply Nat.eqb_eq. apply Hall. exact Ha. }
    intros a b Ha Hb. rewrite (Hlen a Ha), (Hlen b Hb). reflexivity.
Qed.

Lemma np_array_rows_uniform (rows : list Np.ndarray) (D : nat) :
  Forall (fun r => length r = D) rows -> np_array_rows rows = Ok rows.
Proof.
  intros Hall. unfold np_array_rows. destruct rows as [|first rest]; [reflexivity|].
  inversion Hall as [|? ? Hfirst Hrest]; subst.
  replace (forallb (fun r => Nat.eqb (length r) (length first)) rest) with true;
    [reflexivity|].
  symmetry. apply forallb_forall. intros r Hr. apply Nat.eqb_eq.
  rewrite Forall_forall in Hrest. apply Hrest. exact Hr.
Qed.

Lemma generate_embeddings_steps
      (persons : list (string * list (string * option image)))
      (file : EmbeddingsFile) :
  generate_embeddings cfg cv2_resize embedder_embeddings persons = Ok (Some file) ->
  length (ef_labels file) = length (ef_embeddings file)
  /\ length (ef_image_paths file) = length (ef_embeddings file)
  /\ Forall (fun l => In l (map fst persons)) (ef_labels file)
  /\ Forall normalized_output (ef_embeddings file)
  /\ (forall a b, In a (ef_embeddings file) -> In b (ef_embeddings file) ->
                  length a = length b).
Proof.
  unfold generate_embeddings. destruct persons as [|p ps]; [discriminate|].
  destruct (embed_persons_steps (p :: ps)
              {| ef_embeddings := []; ef_labels := []; ef_image_paths := [] |})
    as (E & L & P & Heq & HL & HP & Hlab & Hall).
  rewrite Heq. cbn [ef_embeddings ef_labels ef_image_paths app].
  destruct (np_array_rows E) as [rows|x] eqn:Hrows; simpl; [|discriminate].
  destruct (np_array_rows_ok _ _ Hrows) as [-> Hsame].
  intros H. injection H as <-. cbn [ef_embeddings ef_labels ef_image_paths].
  auto.
Qed.

End GenerateProperties.

Open Scope R_scope.

(** X20.  The dictionary that [generate_embeddings] pickles holds three
    sequences of one length, its labels are names of the person folders,
    its vectors have one length, and every stored vector is an output of
    the embedder with each component divided by the norm of that output. *)
Theorem generated_database_aligned
        (cfg : Config)
        (cv2_resize : image -> Z * Z -> result image)
        (embedder_embeddings : image -> result Np.ndarray)
        (persons : list (string * list (string * option image)))
        (file : EmbeddingsFile) :
  generate_embeddings cfg cv2_resize embedder_embeddings persons = Ok (Some file) ->
  length (ef_labels file) = length (ef_embeddings file)
  /\ length (ef_image_paths file) = length (ef_embeddings file)
  /\ Forall (fun l => In l (map fst persons)) (ef_labels file)
  /\ (forall a b, In a (ef_embeddings file) -> In b (ef_embeddings file) ->
                  length a = length b)
  /\ Forall (normalized_output_of embedder_embeddings) (ef_embeddings file).
Proof.
  intros Hgen.
  destruct (generate_embeddings_steps cfg cv2_resize embedder_embeddings persons file Hgen)
    as (HL & HP & Hlab & Hall & Hsame).
  repeat split; assumption.
Qed.

Lemma sample_generate :
  exists e,
    generate_embeddings config resize_nearest sample_embed enrolled_persons
    = Ok (Some {| ef_embeddings := [e];
                  ef_labels := ["Ana"%string];
                  ef_image_paths := ["aligned_face.jpg"%string] |}).
Proof. eexists. reflexivity. Qed.

Lemma sample_embed_nonzero (img : image) (v : Np.ndarray) :
  sample_embed img = Ok v -> length v = 2%nat /\ Np.linalg_norm v <> 0.
Proof.
  unfold sample_embed. destruct (at_ img 0 0) as [[r g] b].
  destruct (g =? 9)%Z; [discriminate|].
  intros H. injection H as <-. split; [reflexivity|].
  rewrite unit_e1. lra.
Qed.

Lemma generated_database_aligned_witness :
  exists e,
    length ["Ana"%string] = length [e]
    /\ length ["aligned_face.jpg"%string] = length [e]
    /\ Forall (fun l => In l (map fst enrolled_persons)) ["Ana"%string]
    /\ (forall a b, In a [e] -> In b [e] -> length a = length b)
    /\ Forall (normalized_output_of sample_embed) [e].
Proof.
  destruct sample_generate as [e He]. exists e.
  exact (generated_database_aligned
           config resize_nearest sample_embed enrolled_persons _ He).
Defined.

(** X21.  Enrollment establishes the shapes the matcher needs.  With an
    embedder whose outputs have one length, the database loaded from the
    file that [generate_embeddings] wrote and a query from
    [get_face_embedding] fit together: the stored vectors and the query
    have one length and there is a label for every vector; so on a file
    that is not empty [recognize_face] returns an answer under either
    metric. *)
Theorem enrollment_feeds_matcher
        (cfg : Config)
        (cv2_resize : image -> Z * Z -> result image)
        (embedder_embeddings : image -> result Np.ndarray)
        (D : nat)
        (persons : list (string * list (string * option image)))
        (file : EmbeddingsFile) (db : Database)
        (face : image) (q : Np.ndarray) :
  (forall img v, embedder_embeddings img = Ok v -> length v = D) ->
  generate_embeddings cfg cv2_resize embedder_embeddings persons = Ok (Some file) ->
  load_database (Some file) = Some db ->
  get_face_embedding cfg cv2_resize embedder_embeddings face = Ok q ->
  well_shaped db q
  /\ length q = D
  /\ (embeddings db <> [] ->
      forall c, exists name d, recognize_face cfg db q c = Ok (name, d)).
Proof.
  intros Hemb Hgen Hload Hq.
  destruct (generate_embeddings_steps cfg cv2_resize embedder_embeddings persons file Hgen)
    as (HL & _ & _ & Hall & _).
  simpl in Hload. injection Hload as <-.
  destruct (get_face_embedding_some cfg cv2_resize embedder_embeddings face q Hq)
    as (img & v & Hv & ->).
  pose proof (Hemb img v Hv) as Hlen.
  assert (Hws : well_shaped {| embeddings := ef_embeddings file;
                               labels := ef_labels file |}
                            (map (fun x => x / Np.linalg_norm v) v)).
  { split; [|exact HL]. cbn [embeddings].
    eapply Forall_impl; [|exact Hall].
    intros e (img' & v' & Hv' & ->). rewrite !length_map, Hlen.
    exact (Hemb img' v' Hv'). }
  split; [exact Hws|]. split; [rewrite length_map; exact Hlen|].
  intros Hne c.
  destruct (recognize_face_first_min cfg _ _ c Hne Hws)
    as (i & d & label & _ & _ & _ & Hrec).
  rewrite Hrec. eexists; eexists; reflexivity.
Qed.

Lemma sample_query :
  exists q,
    get_face_embedding config resize_nearest sample_embed face_frame = Ok q.
Proof. eexists. reflexivity. Qed.

Lemma enrollment_feeds_matcher_witness :
  exists db q,
    well_shaped db q
    /\ length q = 2%nat
    /\ (embeddings db <> [] ->
        forall c, exists name d, recognize_face config db q c = Ok (name, d)).
Proof.
  destruct sample_generate as [e He]. destruct sample_query as [q Hq].
  exists {| embeddings := [e]; labels := ["Ana"%string] |}, q.
  apply (enrollment_feeds_matcher
           config resize_nearest sample_embed 2 enrolled_persons _ _ face_frame q
           (fun img v H => proj1 (sample_embed_nonzero img v H)) He eq_refl Hq).
Defined.



(** The same division in binary64: the vector (1, 1) divided by its
    computed norm has computed norm [1 - 2^-53]. *)
Lemma normalized_off_unit_in_binary64 :
  F64.normalized [1; 1]%float = [0x1.6a09e667f3bccp-1; 0x1.6a09e667f3bccp-1]%float
  /\ F64.linalg_norm (F64.normalized [1; 1]%float) = 0x1.fffffffffffffp-1%float.
Proof. split; reflexivity. Qed.

(** X22.  While the embeddings are generated, an image that cannot be
    loaded, or on which the resizing or the embedder raises, changes
    nothing for the other images of the person: the three lists are those
    of the run without it. *)
Theorem unembedded_image_is_isolated
        (cfg : Config)
        (cv2_resize : image -> Z * Z -> result image)
        (embedder_embeddings : image -> result Np.ndarray)
        (person_name : string)
        (before : list (string * option image))
        (image_path : string) (imread : option image)
        (after : list (string * option image))
        (db : EmbeddingsFile) :
  (forall e, embed_image cfg cv2_resize embedder_embeddings imread <> Ok (Some e)) ->
  embed_person cfg cv2_resize embedder_embeddings person_name
               (before ++ (image_path, imread) :: after) db
  = embed_person cfg cv2_resize embedder_embeddings person_name
                 (before ++ after) db.
Proof.
  intros Hbad. revert db.
  induction before as [|[p im] before IH]; intros db.
  - cbn [app embed_person].
    destruct (embed_image cfg cv2_resize embedder_embeddings imread) as [[e|]|x];
      try reflexivity.
    exfalso. apply (Hbad e). reflexivity.
  - cbn [app embed_person].
    destruct (embed_image cfg cv2_resize embedder_embeddings im) as [[e|]|x];
      apply IH.
Qed.

Lemma unembedded_image_is_isolated_witness :
  embed_person config resize_nearest sample_embed "Ana"%string
               ([("aligned_face.jpg"%string, Some face_frame)]
                  ++ ("aligned_upper.jpg"%string, Some two_face_frame) :: [])
               {| ef_embeddings := []; ef_labels := []; ef_image_paths := [] |}
  = embed_person config resize_nearest sample_embed "Ana"%string
                 ([("aligned_face.jpg"%string, Some face_frame)] ++ [])
                 {| ef_embeddings := []; ef_labels := []; ef_image_paths := [] |}.
Proof.
  apply (unembedded_image_is_isolated
           config resize_nearest sample_embed "Ana"%string
           [("aligned_face.jpg"%string, Some face_frame)]
           "aligned_upper.jpg"%string (Some two_face_frame) []).
  intros e. discriminate.
Defined.

Close Scope R_scope.

(** X23.  From the state in which [run] starts, nothing is drawn on the
    first 14 frames, whatever the camera shows and whatever keys are
    pressed. *)
Theorem nothing_drawn_before_first_cycle
        (cfg : Config) (db : Database)
        (cv2_resize : image -> Z * Z -> result image)
        (detect_faces : image -> result (list Detection))
        (embedder_embeddings : image -> result Np.ndarray)
        (inputs : list (image * Z)) (k : nat) (o : Observation) :
  nth_error (fst (run cfg db cv2_resize detect_faces embedder_embeddings inputs)) k
  = Some o ->
  (k < 14)%nat ->
  obs_drawn o = [].
Proof.
  unfold run. intros Hnth Hk.
  destruct (obs_drawn o) as [|fd l] eqn:Hdrawn; [reflexivity|exfalso].
  destruct (run_loop_drawn_origin cfg db cv2_resize detect_faces embedder_embeddings
                                  inputs (initial_state) k o Hnth)
    as [(j & oj & Hj & _ & Hoj & Hcyc)|[Heq _]].
  - rewrite Hdrawn. discriminate.
  - destruct (run_loop_frame_numbers cfg db cv2_resize detect_faces
                                     embedder_embeddings _ _ _ _ Hoj) as [_ Hran].
    unfold cycle_ran in Hran. rewrite Hcyc in Hran.
    symmetry in Hran. apply Z.eqb_eq in Hran.
    unfold process_every_n_frames in Hran. simpl frame_count in Hran.
    assert (0 <= Z.of_nat j < 14)%Z by lia.
    rewrite Z.mod_small in Hran by lia. lia.
  - rewrite Hdrawn in Heq. discriminate.
Qed.

Lemma nothing_drawn_before_first_cycle_witness :
  obs_drawn (snd (loop_body config store_two resize_nearest sample_detect sample_embed
                            (initial_state) face_frame))
  = [].
Proof.
  apply (nothing_drawn_before_first_cycle
           config store_two resize_nearest sample_detect sample_embed
           window_inputs 0).
  - unfold run, window_inputs. rewrite run_loop_cons. reflexivity.
  - lia.
Defined.

(** X24.  In the capture loop the counter grows by exactly the number of
    frames written, and a frame is written only when it was answered by the
    key [c] while the cascade saw at least one face in it; what is written
    is the frame as it was read. *)
Theorem capture_loop_counts (inputs : list CaptureInput) (image_count : Z)
        (saved : list image) :
  exists added,
    capture_loop inputs image_count saved
    = ((image_count + Z.of_nat (length added))%Z, saved ++ added)
    /\ (length added <= length inputs)%nat
    /\ Forall (fun frame =>
                 exists i,
                   In i inputs
                   /\ ci_frame i = frame
                   /\ Z.land (ci_key i) 255 = ord_c
                   /\ ci_faces i <> [])
              added.
Proof.
  revert image_count saved.
  induction inputs as [|i rest IH]; intros image_count saved.
  - exists []. simpl. rewrite app_nil_r, Z.add_0_r. auto.
  - cbn [capture_loop].
    destruct (Z.land (ci_key i) 255 =? ord_c)%Z eqn:Hc.
    + destruct (0 <? length (ci_faces i))%nat eqn:Hfaces.
      * destruct (IH (image_count + 1)%Z (saved ++ [ci_frame i]))
          as (added & Heq & Hlen & Hall).
        exists (ci_frame i :: added). rewrite Heq, <- app_assoc. cbn [app length].
        repeat split; try lia.
        -- apply f_equal2; [lia|reflexivity].
        -- constructor.
           ++ exists i. apply Z.eqb_eq in Hc. apply Nat.ltb_lt in Hfaces.
              repeat split; try assumption; [left; reflexivity|].
              intros Hnil. rewrite Hnil in Hfaces. simpl in Hfaces. lia.
           ++ eapply Forall_impl; [|exact Hall].
              intros fr (i' & Hin & Hrest). exists i'. split; [right; exact Hin|exact Hrest].
      * destruct (IH image_count saved) as (added & Heq & Hlen & Hall).
        exists added. rewrite Heq. repeat split; [simpl; lia|].
        eapply Forall_impl; [|exact Hall].
        intros fr (i' & Hin & Hrest). exists i'. split; [right; exact Hin|exact Hrest].
    + destruct (Z.land (ci_key i) 255 =? ord_q)%Z.
      * exists []. rewrite app_nil_r, Z.add_0_r. repeat split; [simpl; lia|constructor].
      * destruct (IH image_count saved) as (added & Heq & Hlen & Hall).
        exists added. rewrite Heq. repeat split; [simpl; lia|].
        eapply Forall_impl; [|exact Hall].
        intros fr (i' & Hin & Hrest). exists i'. split; [right; exact Hin|exact Hrest].
Qed.

(** ** The text-to-speech endpoint *)

Section TtsProperties.

Variable Wav : Type.
Variable blank : string -> bool.
Variable synthesize : string -> Tts.PyError + Wav.

Lemma tts_anatomy (get_json : Tts.PyError + Tts.Json) :
  (exists e, Tts.text_to_speech_api blank synthesize get_json = Tts.ServerError e)
  \/ Tts.text_to_speech_api blank synthesize get_json = Tts.MissingText
  \/ Tts.text_to_speech_api blank synthesize get_json = Tts.EmptyText
  \/ exists members text wav,
      get_json = inr (Tts.JObject members)
      /\ Tts.lookup "text" members = Some (Tts.JString text)
      /\ blank text = false
      /\ synthesize text = inr wav
      /\ Tts.text_to_speech_api blank synthesize get_json = Tts.Audio wav.
Proof.
  unfold Tts.text_to_speech_api.
  destruct get_json as [e|data]; [left; eauto|].
  destruct (negb (Tts.truthy data)); [right; left; reflexivity|].
  destruct data as [|b|x|s|items|members]; cbn [Tts.contains_text Tts.getitem_text];
    try (left; eauto; fail).
  - destruct (String.index 0 "text" s); [left; eauto|right; left; reflexivity].
  - destruct (existsb _ items); [left; eauto|right; left; reflexivity].
  - destruct (Tts.lookup "text" members) as [v|] eqn:Hv;
      [|right; left; reflexivity].
    destruct v as [|b|x|text|items|ms]; try (left; eauto; fail).
    destruct (blank text) eqn:Hb; [right; right; left; reflexivity|].
    destruct (synthesize text) as [e|wav] eqn:Hs; [left; eauto|].
    right; right; right. exists members, text, wav. auto.
Qed.

(** A request whose body is an object with a text that is not blank and
    that the synthesis accepts is answered with the audio. *)
Lemma tts_audio_on_text (members : list (string * Tts.Json)) (text : string) (wav : Wav) :
  Tts.lookup "text" members = Some (Tts.JString text) ->
  blank text = false ->
  synthesize text = inr wav ->
  Tts.text_to_speech_api blank synthesize (inr (Tts.JObject members)) = Tts.Audio wav.
Proof.
  intros Hl Hb Hs. unfold Tts.text_to_speech_api.
  cbn [Tts.truthy Tts.contains_text Tts.getitem_text].
  destruct members as [|m members]; [discriminate|].
  cbn [negb]. rewrite Hl, Hb, Hs. reflexivity.
Qed.

End TtsProperties.

(** X25.  The endpoint answers with status 200, 400 or 500 only.  It
    answers 200 exactly when the body is a JSON object whose member [text]
    is a string that is not blank and on which the synthesis does not
    raise; and on every such request the answer is the audio that the
    synthesis returned for that text. *)
Theorem tts_success_iff
        (Wav : Type) (blank : string -> bool)
        (synthesize : string -> Tts.PyError + Wav)
        (get_json : Tts.PyError + Tts.Json) :
  (Tts.status (Tts.text_to_speech_api blank synthesize get_json) = 200%Z
   \/ Tts.status (Tts.text_to_speech_api blank synthesize get_json) = 400%Z
   \/ Tts.status (Tts.text_to_speech_api blank synthesize get_json) = 500%Z)
  /\ (Tts.status (Tts.text_to_speech_api blank synthesize get_json) = 200%Z
      <-> exists members text wav,
          get_json = inr (Tts.JObject members)
          /\ Tts.lookup "text" members = Some (Tts.JString text)
          /\ blank text = false
          /\ synthesize text = inr wav)
  /\ (forall members text wav,
         get_json = inr (Tts.JObject members) ->
         Tts.lookup "text" members = Some (Tts.JString text) ->
         blank text = false ->
         synthesize text = inr wav ->
         Tts.text_to_speech_api blank synthesize get_json = Tts.Audio wav).
Proof.
  assert (Hgood : forall members text wav,
             get_json = inr (Tts.JObject members) ->
             Tts.lookup "text" members = Some (Tts.JString text) ->
             blank text = false ->
             synthesize text = inr wav ->
             Tts.text_to_speech_api blank synthesize get_json = Tts.Audio wav).
  { intros members text wav -> Hl Hb Hs.
    exact (tts_audio_on_text Wav blank synthesize members text wav Hl Hb Hs). }
  split; [|split; [split|exact Hgood]].
  - destruct (tts_anatomy Wav blank synthesize get_json)
      as [[e H]|[H|[H|(members & text & wav & _ & _ & _ & _ & H)]]];
      rewrite H; simpl; auto.
  - intros H200.
    destruct (tts_anatomy Wav blank synthesize get_json)
      as [[e H]|[H|[H|(members & text & wav & Hj & Hl & Hb & Hs & H)]]];
      try (rewrite H in H200; discriminate).
    exists members, text, wav. auto.
  - intros (members & text & wav & Hj & Hl & Hb & Hs).
    rewrite (Hgood members text wav Hj Hl Hb Hs). reflexivity.
Qed.

(** X26.  The endpoint runs the synthesis on nothing but a text that is not
    blank: two synthesizers that agree on all such texts give the same
    answer to every request. *)
Theorem tts_synthesis_only_on_text
        (Wav : Type) (blank : string -> bool)
        (synthesize synthesize' : string -> Tts.PyError + Wav)
        (get_json : Tts.PyError + Tts.Json) :
  (forall text, blank text = false -> synthesize text = synthesize' text) ->
  Tts.text_to_speech_api blank synthesize get_json
  = Tts.text_to_speech_api blank synthesize' get_json.
Proof.
  intros Hagree. unfold Tts.text_to_speech_api.
  destruct get_json as [e|data]; [reflexivity|].
  destruct (negb (Tts.truthy data)); [reflexivity|].
  destruct (Tts.contains_text data) as [e|[|]]; try reflexivity.
  destruct (Tts.getitem_text data) as [e|[|b|x|text|items|ms]]; try reflexivity.
  destruct (blank text) eqn:Hb; [reflexivity|].
  rewrite (Hagree text Hb). reflexivity.
Qed.

Lemma tts_synthesis_only_on_text_witness :
  Tts.text_to_speech_api (fun s => String.eqb s "")
                         (fun s => if String.eqb s "" then inl Tts.ModelError else inr s)
                         (inr (Tts.JObject [("text"%string, Tts.JString "hola")]))
  = Tts.text_to_speech_api (fun s => String.eqb s "")
                           (fun s => inr s)
                           (inr (Tts.JObject [("text"%string, Tts.JString "hola")])).
Proof.
  apply (tts_synthesis_only_on_text
           string (fun s => String.eqb s "")
           (fun s => if String.eqb s "" then inl Tts.ModelError else inr s)
           (fun s => inr s)).
  intros text Hb. rewrite Hb. reflexivity.
Defined.

(** X27.  A body that is not a JSON object never yields audio.  An empty or
    zero or null body, an array without the element "text" and a string
    without the substring "text" are answered 400; a number that is not
    zero, the value true, an array with the element "text" and a string
    containing "text" are answered 500, by the [TypeError] of the handler's
    own subscript or membership test; and an object whose member [text] is
    not a string is answered 500 by the [AttributeError] of [strip]. *)
Theorem tts_other_bodies
        (Wav : Type) (blank : string -> bool)
        (synthesize : string -> Tts.PyError + Wav)
        (data : Tts.Json) :
  match data with
  | Tts.JObject members =>
      forall v,
        Tts.lookup "text" members = Some v ->
        (forall text, v <> Tts.JString text) ->
        Tts.text_to_speech_api blank synthesize (inr data)
        = Tts.ServerError Tts.AttributeError
  | _ =>
      Tts.text_to_speech_api blank synthesize (inr data)
      = if Tts.truthy data
        then match Tts.contains_text data with
             | inr false => Tts.MissingText
             | _ => Tts.ServerError Tts.TypeError
             end
        else Tts.MissingText
  end.
Proof.
  unfold Tts.text_to_speech_api.
  destruct data as [|b|x|s|items|members].
  - reflexivity.
  - destruct b; reflexivity.
  - cbn [Tts.truthy]. destruct (Req_dec_T x 0); reflexivity.
  - cbn [Tts.truthy Tts.contains_text Tts.getitem_text].
    destruct (negb (String.eqb s "")); [|reflexivity].
    cbn [negb]. destruct (String.index 0 "text" s); reflexivity.
  - cbn [Tts.truthy Tts.contains_text Tts.getitem_text].
    destruct items as [|i items]; [reflexivity|].
    cbn [negb]. destruct (existsb _ (i :: items)); reflexivity.
  - intros v Hv Hnot. cbn [Tts.truthy Tts.contains_text Tts.getitem_text].
    destruct members as [|m members]; [discriminate|].
    cbn [negb]. rewrite Hv.
    destruct v as [|b|x|text|items|ms]; try reflexivity.
    exfalso. apply (Hnot text). reflexivity.
Qed.

Lemma tts_other_bodies_witness :
  Tts.text_to_speech_api (fun s => String.eqb s "")
                         (fun s => inr s : Tts.PyError + string)
                         (inr (Tts.JObject [("text"%string, Tts.JNumber 5)]))
  = Tts.ServerError Tts.AttributeError.
Proof.
  apply (tts_other_bodies string (fun s => String.eqb s "") (fun s => inr s)
                          (Tts.JObject [("text"%string, Tts.JNumber 5)])
                          (Tts.JNumber 5)).
  - reflexivity.
  - intros text. discriminate.
Defined.
